(** * Portfolio website: the client-side request / validation / security gate

    A shallow embedding of the logic of

    - [js/main.js], the contact form (called the Form Gate): field validation,
      honeypot, rate limit, content filter, mail send and best-effort storage;
    - the Supabase client module (called the Session Gate and the CRUD
      Mediator): project CRUD, admin login, second factor and session state;

    together with the properties of them that the specification states.

    Conventions.  A JavaScript string is modelled as a Rocq [string] whose
    characters are the UTF-16 code units of the JavaScript string; the
    character-level primitives below ([trim], [toLowerCase], the regular
    expression classes) are exact for code units in the range U+0000..U+00FF.
    Instants ([Date.now()]) are integers of type [Z], in milliseconds.
    Effectful code is written in a state-and-exception monad over the
    mutable state of the page; every call that leaves the page (console,
    notification, DOM marking of a field, mail service, hosted store, auth
    provider) is recorded, in program order, in a log of events.

    What is taken from the surroundings rather than from the program: the
    page holds the four controls of the form, each inside a [.form-group]
    (so that marking a field never throws); a handler or an exported
    operation runs to its end before the next one starts; the behaviour of
    the mail service, of the hosted store, of the auth provider and of the
    clock is an input.

    Two states are added in layers of their own, on top of the modules
    that describe the program in its regular states.  [ContactForm] reads
    the local storage as holding, under the rate-limit key, what the
    program wrote there; [StoredText] adds the stored text that parses to
    something other than an array.  [SupabaseClient] describes the client
    module once [createSupabaseClient] has assigned the client;
    [ClientHandle] adds the module before that.  Each layer agrees with the
    module below it on the regular states, which is proved. *)

From Stdlib Require Import ZArith Ascii String List Bool Lia DecimalString Sorted.
From stdpp Require Import base option list strings gmap.

Local Open Scope string_scope.
Local Open Scope bool_scope.

(** ** JavaScript string primitives *)

Module Js.

Definition chars (s : string) : list ascii := list_ascii_of_string s.
Definition str (l : list ascii) : string := string_of_list_ascii l.

Definition code (c : ascii) : nat := nat_of_ascii c.

Definition between (lo hi : nat) (c : ascii) : bool :=
  (lo <=? code c)%nat && (code c <=? hi)%nat.

(** [WhiteSpace] and [LineTerminator] of ECMAScript, restricted to
    U+0000..U+00FF: TAB, LF, VT, FF, CR, SP and NBSP.  This is both the set
    stripped by [String.prototype.trim] and the class [\s]. *)
Definition isSpace (c : ascii) : bool :=
  between 9 13 c || (code c =? 32)%nat || (code c =? 160)%nat.

Definition isUpper (c : ascii) : bool := between 65 90 c.
Definition isLower (c : ascii) : bool := between 97 122 c.
Definition isDigit (c : ascii) : bool := between 48 57 c.
Definition isAlpha (c : ascii) : bool := isUpper c || isLower c.
Definition isAlnum (c : ascii) : bool := isAlpha c || isDigit c.

(** The class [\w] (without the [u] flag). *)
Definition isWord (c : ascii) : bool := isAlnum c || (code c =? 95)%nat.

(** The class [.] (without the [s] flag): everything but LF and CR. *)
Definition isDot (c : ascii) : bool :=
  negb ((code c =? 10)%nat || (code c =? 13)%nat).

(** [String.prototype.toLowerCase] on one code unit of U+0000..U+00FF:
    A-Z and the Latin-1 capitals U+00C0..U+00DE (except the multiplication
    sign U+00D7) move up by 32; everything else is unchanged. *)
Definition toLowerChar (c : ascii) : ascii :=
  if isUpper c || (between 192 222 c && negb (code c =? 215)%nat)
  then ascii_of_nat (code c + 32) else c.

Definition toLowerCase (s : string) : string :=
  str (map toLowerChar (chars s)).

(** [toUpperCase] on one ASCII code unit (used by [capitalizeFirst], which
    the program applies to the ASCII field names only). *)
Definition toUpperAscii (c : ascii) : ascii :=
  if isLower c then ascii_of_nat (code c - 32) else c.

Fixpoint dropSpace (l : list ascii) : list ascii :=
  match l with
  | c :: l' => if isSpace c then dropSpace l' else l
  | [] => []
  end.

(** [String.prototype.trim]. *)
Definition trimChars (l : list ascii) : list ascii :=
  rev (dropSpace (rev (dropSpace l))).

Definition trim (s : string) : string := str (trimChars (chars s)).

(** [s.replace(/[<>]/g, '')]. *)
Definition isAngle (c : ascii) : bool :=
  (code c =? 60)%nat || (code c =? 62)%nat.

Definition stripAngle (s : string) : string :=
  str (filter (fun c => negb (isAngle c)) (chars s)).

(** [s.length]. *)
Definition len (s : string) : nat := String.length s.

(** JavaScript truthiness of a string: non-empty. *)
Definition truthy (s : string) : bool := negb (String.eqb s "").

(** Template-literal rendering of a non-negative integer. *)
Definition ofNat (n : nat) : string := NilEmpty.string_of_uint (Nat.to_uint n).

End Js.

(** ** Regular expressions of the program

    Each regular expression literal of the source is embedded as a boolean
    matcher over the code units of the subject string, written by hand from
    the pattern.  The patterns carrying the [g] flag are created afresh on
    every call of the function that tests them, so each [test] starts at
    index 0. *)

Module Re.
Import Js.

(** [/^[a-zA-Z\s'-]+$/] *)
Definition nameChar (c : ascii) : bool :=
  isAlpha c || isSpace c || (code c =? 39)%nat || (code c =? 45)%nat.

Definition namePattern (s : string) : bool :=
  match chars s with
  | [] => false
  | l => forallb nameChar l
  end.

(** The e-mail pattern

    [/^[a-zA-Z0-9.!#$%&'*+\/=?^_`{|}~-]+@L(?:\.L)*$/]

    where [L] is [[a-zA-Z0-9](?:[a-zA-Z0-9-]{0,61}[a-zA-Z0-9])?]. *)
Definition localChar (c : ascii) : bool :=
  isAlnum c ||
  existsb (Nat.eqb (code c))
    [46; 33; 35; 36; 37; 38; 39; 42; 43; 47; 61; 63; 94; 95; 96; 123; 124; 125; 126; 45]%nat.

Definition labelChar (c : ascii) : bool := isAlnum c || (code c =? 45)%nat.

(** One label [L]: an alphanumeric, optionally followed by at most 61
    alphanumerics or hyphens and one closing alphanumeric. *)
Definition label (l : list ascii) : bool :=
  match l with
  | [] => false
  | c :: rest =>
      isAlnum c &&
      match rest with
      | [] => true
      | _ => (length rest <=? 62)%nat && forallb labelChar rest
             && isAlnum (List.last rest c)
      end
  end.

(** Split at every occurrence of [sep]; the result is never empty. *)
Fixpoint splitOn (sep : ascii) (l : list ascii) : list (list ascii) :=
  match l with
  | [] => [[]]
  | c :: l' =>
      if Ascii.eqb c sep then [] :: splitOn sep l'
      else match splitOn sep l' with
           | w :: ws => (c :: w) :: ws
           | [] => [[c]]
           end
  end.

Definition emailPattern (s : string) : bool :=
  match splitOn "@"%char (chars s) with
  | [loc; dom] =>
      (0 <? length loc)%nat && forallb localChar loc
      && forallb label (splitOn "."%char dom)
  | _ => false
  end.

(** [/\b(viagra|casino|lottery|winner|congratulations|click here|buy now)\b/i] *)
Definition keywords : list string :=
  ["viagra"; "casino"; "lottery"; "winner"; "congratulations";
   "click here"; "buy now"].

(** Case-insensitive comparison of a pattern character with a subject
    character (the [i] flag, for the ASCII pattern characters above). *)
Definition eqCI (p c : ascii) : bool :=
  Ascii.eqb (toUpperAscii p) (toUpperAscii c).

Definition isWordOpt (o : option ascii) : bool :=
  match o with Some c => isWord c | None => false end.

(** The assertion [\b] between two adjacent positions. *)
Definition boundary (before after : option ascii) : bool :=
  xorb (isWordOpt before) (isWordOpt after).

(** Match keyword [kw] at the head of [s]; on success return the last
    subject character consumed (or [prev] when [kw] is empty) and the
    rest of the subject. *)
Fixpoint matchKw (kw : list ascii) (prev : option ascii) (s : list ascii)
  : option (option ascii * list ascii) :=
  match kw with
  | [] => Some (prev, s)
  | p :: kw' =>
      match s with
      | c :: s' => if eqCI p c then matchKw kw' (Some c) s' else None
      | [] => None
      end
  end.

Definition spamAt (prev : option ascii) (s : list ascii) : bool :=
  boundary prev (head s) &&
  existsb (fun kw =>
             match matchKw (chars kw) prev s with
             | Some (lst, rest) => boundary lst (head rest)
             | None => false
             end) keywords.

Fixpoint spamFrom (prev : option ascii) (s : list ascii) : bool :=
  spamAt prev s ||
  match s with
  | c :: s' => spamFrom (Some c) s'
  | [] => false
  end.

Definition spamPattern (s : string) : bool := spamFrom None (chars s).

(** [/https?:\/\/[^\s]+/g] *)
Fixpoint stripPrefix (p s : list ascii) : option (list ascii) :=
  match p with
  | [] => Some s
  | a :: p' =>
      match s with
      | c :: s' => if Ascii.eqb a c then stripPrefix p' s' else None
      | [] => None
      end
  end.

Definition slashesThenNonSpace (s : list ascii) : bool :=
  match stripPrefix (chars "://") s with
  | Some (c :: _) => negb (isSpace c)
  | _ => false
  end.

Definition urlAt (s : list ascii) : bool :=
  match stripPrefix (chars "http") s with
  | Some r =>
      match r with
      | c :: r' => (Ascii.eqb c "s"%char && slashesThenNonSpace r')
                   || slashesThenNonSpace r
      | [] => false
      end
  | None => false
  end.

Fixpoint urlFrom (s : list ascii) : bool :=
  urlAt s ||
  match s with
  | _ :: s' => urlFrom s'
  | [] => false
  end.

Definition urlPattern (s : string) : bool := urlFrom (chars s).

(** [/(.)\1{10,}/g]: one character other than a line terminator, then at
    least ten further copies of it. *)
Fixpoint copies (c : ascii) (n : nat) (s : list ascii) : bool :=
  match n with
  | O => true
  | S n' =>
      match s with
      | d :: s' => Ascii.eqb c d && copies c n' s'
      | [] => false
      end
  end.

Fixpoint runFrom (s : list ascii) : bool :=
  match s with
  | c :: s' => (isDot c && copies c 10 s') || runFrom s'
  | [] => false
  end.

Definition runPattern (s : string) : bool := runFrom (chars s).

End Re.

(** ** A state-and-exception monad

    [M S A] is a computation over a mutable state [S] that either returns a
    value or throws a JavaScript exception, of which only the message is
    kept. *)

Inductive Res (A : Type) : Type :=
| Val (a : A)
| Exn (message : string).
Arguments Val {A} a.
Arguments Exn {A} message.

Definition M (S A : Type) : Type := S -> Res A * S.

Definition ret {S A} (a : A) : M S A := fun s => (Val a, s).

Definition throw {S A} (message : string) : M S A := fun s => (Exn message, s).

Definition bind {S A B} (m : M S A) (k : A -> M S B) : M S B :=
  fun s =>
    match m s with
    | (Val a, s') => k a s'
    | (Exn e, s') => (Exn e, s')
    end.

Definition gets {S A} (f : S -> A) : M S A := fun s => (Val (f s), s).

Definition modify {S} (f : S -> S) : M S unit := fun s => (Val tt, f s).

(** [try { m } catch (e) { h e }] *)
Definition try_catch {S A} (m : M S A) (h : string -> M S A) : M S A :=
  fun s =>
    match m s with
    | (Val a, s') => (Val a, s')
    | (Exn e, s') => h e s'
    end.

(** [try { m } finally { f }] *)
Definition try_finally {S A} (m : M S A) (f : M S unit) : M S A :=
  fun s =>
    match m s with
    | (r, s') =>
        match f s' with
        | (Val _, s'') => (r, s'')
        | (Exn e, s'') => (Exn e, s'')
        end
    end.

Declare Scope js_scope.
Delimit Scope js_scope with js.
Notation "x <- m ;; k" := (bind m (fun x => k))
  (at level 100, m at next level, right associativity) : js_scope.
Notation "m ;; k" := (bind m (fun _ => k))
  (at level 100, right associativity) : js_scope.

Definition state_of {S A} (r : Res A * S) : S := snd r.
Definition result_of {S A} (r : Res A * S) : Res A := fst r.

(** ** The contact form ([js/main.js]) *)

Module ContactForm.
Import Js.
Local Open Scope js_scope.

(** *** Configuration ([CONFIG]) *)

Record Rule := {
  minLength : option nat;
  maxLength : option nat;
  pattern : option (string -> bool) }.

Record Security := {
  maxSubmissionsPerHour : nat;
  honeypotFieldName : string;
  rateLimitKey : string }.

(** [CONFIG.validation] is a JavaScript object indexed by field name. *)
Record Config := {
  validation : gmap string Rule;
  security : Security }.

Definition CONFIG : Config := {|
  validation :=
    <["name" := {| minLength := Some 2; maxLength := Some 50;
                   pattern := Some Re.namePattern |}]>
    (<["email" := {| minLength := None; maxLength := None;
                     pattern := Some Re.emailPattern |}]>
    (<["subject" := {| minLength := Some 5; maxLength := Some 100;
                       pattern := None |}]>
    (<["message" := {| minLength := Some 10; maxLength := Some 1000;
                       pattern := None |}]> ∅)));
  security := {| maxSubmissionsPerHour := 5;
                 honeypotFieldName := "website";
                 rateLimitKey := "contactFormSubmissions" |} |}.

(** *** Page state *)

(** An [<input>] or [<textarea>]: its [name] attribute and its [value]. *)
Record Input := { in_name : string; in_value : string }.

(** [elements], restricted to the entries that are inputs or text areas;
    the honeypot is [null] until [createHoneypotField] has run. *)
Record Elements := {
  nameField : Input;
  emailField : Input;
  subjectField : Input;
  messageField : Input;
  honeypot : option Input }.

(** [formState]. [validationErrors] is a JavaScript object used as a map
    from field name to message. *)
Record FormState := {
  isSubmitting : bool;
  validationErrors : gmap string string;
  isValid : bool }.

(** [localStorage]: when it is not available every access throws.  The
    value stored under the rate-limit key is the JSON text of an array of
    instants; it is kept here as the array itself. *)
Record Storage := {
  available : bool;
  items : gmap string (list Z) }.

(** What [emailjs.send] does when called: [window.emailjs] may be absent,
    the promise may reject, or it resolves to a response with a status. *)
Inductive EmailJs :=
| EmailJsMissing
| EmailJsRejects (e : string)
| EmailJsResponds (status : Z).

(** What [window.supabase.from('contact_messages').insert(...)] does:
    [window.supabase] may be undefined, building the call may throw (no
    request is made), the request may reject, or it resolves to an
    [{ data, error }] pair. *)
Inductive Supabase :=
| SupabaseUndefined
| SupabaseBroken (e : string)
| SupabaseRejects (e : string)
| SupabaseReplies (error : option string).

(** The surroundings of one submission: the three clock readings (in
    [checkRateLimit], [collectFormData] and [recordSubmission]), the
    browser's user agent, the hidden token and the two collaborators. *)
Record Env := {
  nowCheck : Z;
  nowStamp : Z;
  nowRecord : Z;
  userAgent : string;
  formToken : option string;
  emailjs : EmailJs;
  supabase : Supabase }.

Record FormData := {
  fd_name : string;
  fd_email : string;
  fd_subject : string;
  fd_message : string;
  fd_timestamp : Z;
  fd_userAgent : string;
  fd_formToken : option string }.

Record TemplateParams := {
  from_name : string;
  from_email : string;
  tp_subject : string;
  tp_message : string;
  reply_to : string;
  to_email : string }.

Record ContactRow := {
  row_name : string;
  row_email : string;
  row_subject : string;
  row_message : string;
  row_user_agent : string;
  row_created_at : Z }.

Inductive Kind := KSuccess | KError.

(** Calls that leave the module, in program order.  Console messages are
    recorded without their leading pictograph. *)
Inductive Event :=
| ConsoleWarn (msg : string)
| ConsoleError (msg : string)
| Notify (kind : Kind) (msg : string)                  (* showNotification *)
| FieldMark (name : string) (ok : bool) (msg : string) (* updateFieldValidation *)
| EmailSend (params : TemplateParams)                  (* emailjs.send *)
| DbInsert (row : ContactRow).                         (* contact_messages insert *)

Record Page := {
  elements : Elements;
  formState : FormState;
  localStorage : Storage;
  config : Config;
  env : Env;
  log : list Event }.

Definition with_elements (e : Elements) (p : Page) : Page :=
  {| elements := e; formState := formState p; localStorage := localStorage p;
     config := config p; env := env p; log := log p |}.
Definition with_formState (f : FormState) (p : Page) : Page :=
  {| elements := elements p; formState := f; localStorage := localStorage p;
     config := config p; env := env p; log := log p |}.
Definition with_localStorage (s : Storage) (p : Page) : Page :=
  {| elements := elements p; formState := formState p; localStorage := s;
     config := config p; env := env p; log := log p |}.
Definition with_env (e : Env) (p : Page) : Page :=
  {| elements := elements p; formState := formState p;
     localStorage := localStorage p; config := config p; env := e;
     log := log p |}.
Definition with_log (l : list Event) (p : Page) : Page :=
  {| elements := elements p; formState := formState p;
     localStorage := localStorage p; config := config p; env := env p;
     log := l |}.

Definition emit (e : Event) : M Page unit :=
  modify (fun p => with_log (log p ++ [e]) p).

Definition showError (message : string) : M Page unit := emit (Notify KError message).
Definition showSuccess (message : string) : M Page unit := emit (Notify KSuccess message).
Definition consoleWarn (message : string) : M Page unit := emit (ConsoleWarn message).
Definition consoleError (message : string) : M Page unit := emit (ConsoleError message).

(** *** Field validation *)

Definition capitalizeFirst (s : string) : string :=
  match s with
  | EmptyString => ""
  | String c rest => String (toUpperAscii c) rest
  end.

(** [validation.minLength && value.length < validation.minLength] *)
Definition tooShort (v : Rule) (value : string) : bool :=
  match minLength v with
  | Some m => (0 <? m)%nat && (len value <? m)%nat
  | None => false
  end.

(** [validation.maxLength && value.length > validation.maxLength] *)
Definition tooLong (v : Rule) (value : string) : bool :=
  match maxLength v with
  | Some m => (0 <? m)%nat && (m <? len value)%nat
  | None => false
  end.

(** [validation.pattern && !validation.pattern.test(value)] *)
Definition patternFails (v : Rule) (value : string) : bool :=
  match pattern v with
  | Some test => negb (test value)
  | None => false
  end.

(** The [if / else if] chain of [validateField]: validity and message. *)
Definition checkValue (fieldName : string) (v : Rule) (value : string)
  : bool * string :=
  if negb (truthy value) then
    (false, capitalizeFirst fieldName ++ " is required")
  else if tooShort v value then
    (false, capitalizeFirst fieldName ++ " must be at least "
            ++ ofNat (default 0%nat (minLength v)) ++ " characters")
  else if tooLong v value then
    (false, capitalizeFirst fieldName ++ " must be less than "
            ++ ofNat (default 0%nat (maxLength v)) ++ " characters")
  else if patternFails v value then
    (false,
     if String.eqb fieldName "email" then "Please enter a valid email address"
     else if String.eqb fieldName "name" then
       "Name can only contain letters, spaces, apostrophes, and hyphens"
     else capitalizeFirst fieldName ++ " format is invalid")
  else (true, "").

Definition updateFieldValidation (field : Input) (isValid : bool)
    (errorMessage : string) : M Page unit :=
  emit (FieldMark (in_name field) isValid errorMessage).

Definition updateFormValidity : M Page unit :=
  modify (fun p =>
    let fs := formState p in
    let hasErrors := (0 <? size (validationErrors fs))%nat in
    with_formState {| isSubmitting := isSubmitting fs;
                      validationErrors := validationErrors fs;
                      isValid := negb hasErrors |} p).

Definition setValidationError (fieldName : string) (valid : bool)
    (errorMessage : string) : M Page unit :=
  modify (fun p =>
    let fs := formState p in
    with_formState
      {| isSubmitting := isSubmitting fs;
         validationErrors :=
           if valid then delete fieldName (validationErrors fs)
           else <[fieldName := errorMessage]> (validationErrors fs);
         isValid := isValid fs |} p).

Definition validateField (field : Input) : M Page bool :=
  cfg <- gets config ;;
  let fieldName := in_name field in
  let value := trim (in_value field) in
  if negb (truthy fieldName)
     || String.eqb fieldName (honeypotFieldName (security cfg))
  then ret true
  else
    match validation cfg !! fieldName with
    | None => ret true
    | Some v =>
        let r := checkValue fieldName v value in
        updateFieldValidation field (fst r) (snd r) ;;
        setValidationError fieldName (fst r) (snd r) ;;
        updateFormValidity ;;
        ret (fst r)
    end.

(** *** Security checks *)

Definition getSubmissionHistory : M Page (list Z) :=
  cfg <- gets config ;;
  st <- gets localStorage ;;
  ret (if available st
       then default [] (items st !! rateLimitKey (security cfg))
       else []).

Definition saveSubmissionHistory (submissions : list Z) : M Page unit :=
  cfg <- gets config ;;
  st <- gets localStorage ;;
  if available st then
    modify (with_localStorage
              {| available := true;
                 items := <[rateLimitKey (security cfg) := submissions]> (items st) |})
  else consoleWarn "Could not save submission history".

Definition checkRateLimit : M Page bool :=
  now <- gets (fun p => nowCheck (env p)) ;;
  submissions <- getSubmissionHistory ;;
  let oneHourAgo := (now - 60 * 60 * 1000)%Z in
  let recentSubmissions := filter (fun time => (oneHourAgo < time)%Z) submissions in
  saveSubmissionHistory recentSubmissions ;;
  cfg <- gets config ;;
  ret (length recentSubmissions <? maxSubmissionsPerHour (security cfg))%nat.

Definition prohibitedPatterns : list (string -> bool) :=
  [Re.spamPattern; Re.urlPattern; Re.runPattern].

(** The content test on the text of the message field. *)
Definition messageContentOk (text : string) : bool :=
  let message := toLowerCase text in
  negb (existsb (fun test => test message) prohibitedPatterns).

Definition checkMessageContent : M Page bool :=
  els <- gets elements ;;
  ret (messageContentOk (in_value (messageField els))).

Definition honeypotFilled (els : Elements) : bool :=
  match honeypot els with
  | Some h => truthy (in_value h)
  | None => false
  end.

Definition performSecurityChecks : M Page bool :=
  els <- gets elements ;;
  if honeypotFilled els then
    (consoleWarn "Bot detected via honeypot" ;; ret false)
  else
    (underLimit <- checkRateLimit ;;
     if negb underLimit then
       (showError "Too many submissions. Please wait before trying again." ;;
        ret false)
     else
       (contentOk <- checkMessageContent ;;
        if negb contentOk then
          (showError "Message contains prohibited content." ;; ret false)
        else ret true)).

Definition recordSubmission : M Page unit :=
  submissions <- getSubmissionHistory ;;
  now <- gets (fun p => nowRecord (env p)) ;;
  saveSubmissionHistory (submissions ++ [now]).

(** *** Whole-form validation *)

(** The entries of [elements] whose tag is [INPUT] or [TEXTAREA], in the
    order of [Object.values(elements)]. *)
Definition inputsOf (els : Elements) : list Input :=
  [nameField els; emailField els; subjectField els; messageField els]
  ++ match honeypot els with Some h => [h] | None => [] end.

Fixpoint validateEach (fields : list Input) (valid : bool) : M Page bool :=
  match fields with
  | [] => ret valid
  | element :: rest =>
      fieldValid <- validateField element ;;
      validateEach rest (if fieldValid then valid else false)
  end.

Definition validateForm : M Page bool :=
  els <- gets elements ;;
  valid <- validateEach (inputsOf els) true ;;
  secure <- performSecurityChecks ;;
  ret (if secure then valid else false).

(** *** Submission *)

Definition setSubmittingState (submitting : bool) : M Page unit :=
  modify (fun p =>
    let fs := formState p in
    with_formState {| isSubmitting := submitting;
                      validationErrors := validationErrors fs;
                      isValid := isValid fs |} p).

Definition collectFormData : M Page FormData :=
  els <- gets elements ;;
  e <- gets env ;;
  ret {| fd_name := trim (in_value (nameField els));
         fd_email := trim (in_value (emailField els));
         fd_subject := trim (in_value (subjectField els));
         fd_message := trim (in_value (messageField els));
         fd_timestamp := nowStamp e;
         fd_userAgent := substring 0 100 (userAgent e);
         fd_formToken := formToken e |}.

Definition ofZ (z : Z) : string := NilEmpty.string_of_int (Z.to_int z).

Definition sendEmail (formData : FormData) : M Page unit :=
  e <- gets env ;;
  let templateParams :=
    {| from_name := fd_name formData;
       from_email := fd_email formData;
       tp_subject := fd_subject formData;
       tp_message := fd_message formData;
       reply_to := fd_email formData;
       to_email := "your.email@example.com" |} in
  match emailjs e with
  | EmailJsMissing => throw "EmailJS not available"
  | EmailJsRejects err => emit (EmailSend templateParams) ;; throw err
  | EmailJsResponds status =>
      emit (EmailSend templateParams) ;;
      if negb (status =? 200)%Z then throw ("EmailJS failed: " ++ ofZ status)
      else ret tt
  end.

Definition storeMessage (formData : FormData) : M Page unit :=
  e <- gets env ;;
  let row :=
    {| row_name := fd_name formData;
       row_email := fd_email formData;
       row_subject := fd_subject formData;
       row_message := fd_message formData;
       row_user_agent := fd_userAgent formData;
       row_created_at := fd_timestamp formData |} in
  match supabase e with
  | SupabaseUndefined => ret tt
  | SupabaseBroken err =>
      consoleWarn ("Database storage failed: " ++ err)
  | SupabaseRejects err =>
      emit (DbInsert row) ;;
      consoleWarn ("Database storage failed: " ++ err)
  | SupabaseReplies error =>
      emit (DbInsert row) ;;
      match error with
      | Some err => consoleWarn ("Failed to store message in database: " ++ err)
      | None => ret tt
      end
  end.

(** [elements.form.reset()] puts every control back to its initial value,
    taken to be the empty string; the validation state is then cleared. *)
Definition resetForm : M Page unit :=
  modify (fun p =>
    let els := elements p in
    let blank i := {| in_name := in_name i; in_value := "" |} in
    with_elements
      {| nameField := blank (nameField els);
         emailField := blank (emailField els);
         subjectField := blank (subjectField els);
         messageField := blank (messageField els);
         honeypot := option_map blank (honeypot els) |} p) ;;
  modify (fun p =>
    with_formState {| isSubmitting := isSubmitting (formState p);
                      validationErrors := ∅;
                      isValid := false |} p) ;;
  updateFormValidity.

Definition handleFormSubmit : M Page unit :=
  fs <- gets formState ;;
  if isSubmitting fs then ret tt
  else
    (valid <- validateForm ;;
     if negb valid then showError "Please correct the errors above"
     else
       (setSubmittingState true ;;
        try_finally
          (try_catch
             (formData <- collectFormData ;;
              sendEmail formData ;;
              storeMessage formData ;;
              recordSubmission ;;
              showSuccess "Message sent successfully! Thank you for reaching out." ;;
              resetForm)
             (fun error =>
                consoleError ("Form submission error: " ++ error) ;;
                showError "Failed to send message. Please try again later."))
          (setSubmittingState false))).

(** *** Running the model *)

(** The page after [m] and the events [m] added to the log. *)
Definition after {A} (m : M Page A) (p : Page) : Page := snd (m p).
Definition events {A} (m : M Page A) (p : Page) : list Event :=
  drop (length (log p)) (log (after m p)).

End ContactForm.

(** ** Pure readings of the contact form

    Functions of the page state that say, without running the monad, what
    the validation of a field yields and what the rate limiter sees; the
    lemmas of the second part prove that the program computes exactly
    these. *)

Module FormReadings.
Import Js ContactForm.

(** What [validateField] decides for [field]: [None] when the field is
    skipped (no name, the honeypot, or no rule for that name). *)
Definition fieldChecked (cfg : Config) (field : Input) : option (bool * string) :=
  if negb (truthy (in_name field))
     || String.eqb (in_name field) (honeypotFieldName (security cfg))
  then None
  else match validation cfg !! in_name field with
       | None => None
       | Some v => Some (checkValue (in_name field) v (trim (in_value field)))
       end.

Definition fieldValid (cfg : Config) (field : Input) : bool :=
  match fieldChecked cfg field with Some r => fst r | None => true end.

Definition fieldMarks (cfg : Config) (field : Input) : list Event :=
  match fieldChecked cfg field with
  | Some r => [FieldMark (in_name field) (fst r) (snd r)]
  | None => []
  end.

Definition allValid (cfg : Config) (els : Elements) : bool :=
  forallb (fieldValid cfg) (inputsOf els).

Definition allMarks (cfg : Config) (els : Elements) : list Event :=
  flat_map (fieldMarks cfg) (inputsOf els).

(** The submission history as [getSubmissionHistory] reads it. *)
Definition history (p : Page) : list Z :=
  if available (localStorage p)
  then default [] (items (localStorage p) !! rateLimitKey (security (config p)))
  else [].

(** The entries of a history that are less than one hour older than [now]. *)
Definition recent (now : Z) (h : list Z) : list Z :=
  filter (fun time => (now - 60 * 60 * 1000 < time)%Z) h.

Definition underLimit (p : Page) : bool :=
  (length (recent (nowCheck (env p)) (history p))
   <? maxSubmissionsPerHour (security (config p)))%nat.

Definition isFieldMark (e : Event) : bool :=
  match e with FieldMark _ _ _ => true | _ => false end.

Definition isNotify (e : Event) : bool :=
  match e with Notify _ _ => true | _ => false end.

(** An event that calls one of the two collaborators. *)
Definition isCollaboratorCall (e : Event) : bool :=
  match e with EmailSend _ | DbInsert _ => true | _ => false end.

(** An event produced by [performSecurityChecks]. *)
Definition isSecurityEvent (e : Event) : bool :=
  match e with
  | ConsoleWarn _ | Notify KError _ => true
  | _ => false
  end.

(** *** Sequences of submissions *)

(** One submission: what the visitor (or a bot) puts in the five
    controls, and the surroundings at the time the form is submitted. *)
Record Submission := {
  sub_name : string;
  sub_email : string;
  sub_subject : string;
  sub_message : string;
  sub_honeypot : string;
  sub_env : Env }.

Definition setValue (v : string) (i : Input) : Input :=
  {| in_name := in_name i; in_value := v |}.

Definition fillElements (s : Submission) (els : Elements) : Elements :=
  {| nameField := setValue (sub_name s) (nameField els);
     emailField := setValue (sub_email s) (emailField els);
     subjectField := setValue (sub_subject s) (subjectField els);
     messageField := setValue (sub_message s) (messageField els);
     honeypot := option_map (setValue (sub_honeypot s)) (honeypot els) |}.

Definition fill (s : Submission) (p : Page) : Page :=
  with_env (sub_env s) (with_elements (fillElements s (elements p)) p).

(** Fill the form and fire the [submit] event. *)
Definition submit (s : Submission) (p : Page) : Page :=
  after handleFormSubmit (fill s p).

Definition submitAll (subs : list Submission) (p : Page) : Page :=
  fold_left (fun q s => submit s q) subs p.

(** The events of each submission of a sequence, and the page after it. *)
Fixpoint submitTrace (subs : list Submission) (p : Page)
  : list (list Event * Page) :=
  match subs with
  | [] => []
  | s :: rest =>
      (events handleFormSubmit (fill s p), submit s p)
      :: submitTrace rest (submit s p)
  end.

Definition recordedAt (s : Submission) : Z := nowRecord (sub_env s).

(** A submission that passes every check other than the rate limit, and
    whose mail the mail service accepts with status 200. *)
Definition acceptable (p : Page) (s : Submission) : bool :=
  negb (honeypotFilled (fillElements s (elements p)))
  && allValid (config p) (fillElements s (elements p))
  && messageContentOk (sub_message s)
  && match emailjs (sub_env s) with
     | EmailJsResponds status => (status =? 200)%Z
     | _ => false
     end.

(** Both clock readings of the submission lie in the hour that starts at
    [start]. *)
Definition inWindow (start : Z) (s : Submission) : Prop :=
  (start <= nowCheck (sub_env s) < start + 60 * 60 * 1000)%Z /\
  (start <= nowRecord (sub_env s) < start + 60 * 60 * 1000)%Z.

Definition sentOk : Event :=
  Notify KSuccess "Message sent successfully! Thank you for reaching out.".
Definition tooMany : Event :=
  Notify KError "Too many submissions. Please wait before trying again.".
Definition prohibited : Event :=
  Notify KError "Message contains prohibited content.".
Definition pleaseCorrect : Event :=
  Notify KError "Please correct the errors above".
Definition sendFailed : Event :=
  Notify KError "Failed to send message. Please try again later.".
Definition botDetected : Event := ConsoleWarn "Bot detected via honeypot".
Definition cannotSave : Event := ConsoleWarn "Could not save submission history".

(** The events of [performSecurityChecks], read off the state. *)
Definition securityEvents (p : Page) : list Event :=
  if honeypotFilled (elements p) then [botDetected]
  else
    (if available (localStorage p) then [] else [cannotSave])
    ++ (if negb (underLimit p) then [tooMany]
        else if negb (messageContentOk (in_value (messageField (elements p))))
             then [prohibited] else []).

Definition securityOk (p : Page) : bool :=
  negb (honeypotFilled (elements p))
  && underLimit p
  && messageContentOk (in_value (messageField (elements p))).

(** The local storage after [performSecurityChecks]: the rate limiter,
    when it is reached and the storage works, writes back the recent part
    of the history. *)
Definition checkedStorage (p : Page) : Storage :=
  if honeypotFilled (elements p) then localStorage p
  else if available (localStorage p) then
    {| available := true;
       items := <[rateLimitKey (security (config p))
                  := recent (nowCheck (env p)) (history p)]>
                (items (localStorage p)) |}
  else localStorage p.

(** The local storage after [recordSubmission]. *)
Definition recordedStorage (p : Page) : Storage :=
  if available (localStorage p) then
    {| available := true;
       items := <[rateLimitKey (security (config p))
                  := (history p ++ [nowRecord (env p)])%list]>
                (items (localStorage p)) |}
  else localStorage p.

Definition formDataOf (p : Page) : FormData :=
  {| fd_name := trim (in_value (nameField (elements p)));
     fd_email := trim (in_value (emailField (elements p)));
     fd_subject := trim (in_value (subjectField (elements p)));
     fd_message := trim (in_value (messageField (elements p)));
     fd_timestamp := nowStamp (env p);
     fd_userAgent := substring 0 100 (userAgent (env p));
     fd_formToken := formToken (env p) |}.

Definition templateOf (fd : FormData) : TemplateParams :=
  {| from_name := fd_name fd; from_email := fd_email fd;
     tp_subject := fd_subject fd; tp_message := fd_message fd;
     reply_to := fd_email fd; to_email := "your.email@example.com" |}.

Definition rowOf (fd : FormData) : ContactRow :=
  {| row_name := fd_name fd; row_email := fd_email fd;
     row_subject := fd_subject fd; row_message := fd_message fd;
     row_user_agent := fd_userAgent fd; row_created_at := fd_timestamp fd |}.

(** The events of [storeMessage]. *)
Definition storeEvents (p : Page) : list Event :=
  match supabase (env p) with
  | SupabaseUndefined => []
  | SupabaseBroken err => [ConsoleWarn ("Database storage failed: " ++ err)]
  | SupabaseRejects err =>
      [DbInsert (rowOf (formDataOf p));
       ConsoleWarn ("Database storage failed: " ++ err)]
  | SupabaseReplies (Some err) =>
      [DbInsert (rowOf (formDataOf p));
       ConsoleWarn ("Failed to store message in database: " ++ err)]
  | SupabaseReplies None => [DbInsert (rowOf (formDataOf p))]
  end.

(** The events of [sendEmail] and, when it throws, the message thrown. *)
Definition mailEvents (p : Page) : list Event :=
  match emailjs (env p) with
  | EmailJsMissing => []
  | _ => [EmailSend (templateOf (formDataOf p))]
  end.

Definition mailFailure (p : Page) : option string :=
  match emailjs (env p) with
  | EmailJsMissing => Some "EmailJS not available"
  | EmailJsRejects err => Some err
  | EmailJsResponds status =>
      if (status =? 200)%Z then None else Some ("EmailJS failed: " ++ ofZ status)
  end.

Definition blankElements (els : Elements) : Elements :=
  {| nameField := setValue "" (nameField els);
     emailField := setValue "" (emailField els);
     subjectField := setValue "" (subjectField els);
     messageField := setValue "" (messageField els);
     honeypot := option_map (setValue "") (honeypot els) |}.

(** The page [p] in surroundings where the store behaves as [sb]. *)
Definition withStore (sb : Supabase) (p : Page) : Page :=
  with_env {| nowCheck := nowCheck (env p); nowStamp := nowStamp (env p);
              nowRecord := nowRecord (env p); userAgent := userAgent (env p);
              formToken := formToken (env p); emailjs := emailjs (env p);
              supabase := sb |} p.

Definition isSuccessNote (e : Event) : bool :=
  match e with Notify KSuccess _ => true | _ => false end.

Definition isErrorNote (e : Event) : bool :=
  match e with Notify KError _ => true | _ => false end.

Definition isDbInsert (e : Event) : bool :=
  match e with DbInsert _ => true | _ => false end.

Definition isEmailSend (e : Event) : bool :=
  match e with EmailSend _ => true | _ => false end.

(** *** Concrete pages *)

(** The form as [initializeContactForm] leaves it: four empty controls
    and the honeypot named after the configuration. *)
Definition emptyForm : Elements :=
  {| nameField := {| in_name := "name"; in_value := "" |};
     emailField := {| in_name := "email"; in_value := "" |};
     subjectField := {| in_name := "subject"; in_value := "" |};
     messageField := {| in_name := "message"; in_value := "" |};
     honeypot := Some {| in_name := "website"; in_value := "" |} |}.

(** Surroundings in which the mail service answers [status] and the store
    accepts the row; the three clock readings are [t], [t+1], [t+2]. *)
Definition envAt (t : Z) (status : Z) : Env :=
  {| nowCheck := t; nowStamp := (t + 1)%Z; nowRecord := (t + 2)%Z;
     userAgent := "Mozilla/5.0"; formToken := Some "form_1_abc";
     emailjs := EmailJsResponds status; supabase := SupabaseReplies None |}.

Definition freshPage : Page :=
  {| elements := emptyForm;
     formState := {| isSubmitting := false; validationErrors := ∅; isValid := false |};
     localStorage := {| available := true; items := ∅ |};
     config := CONFIG;
     env := envAt 0 200;
     log := [] |}.

(** A message whose name has a single character. *)
Definition fromJ (t : Z) : Submission :=
  {| sub_name := "J"; sub_email := "jo@example.com";
     sub_subject := "Hello there"; sub_message := "I would like to talk.";
     sub_honeypot := ""; sub_env := envAt t 200 |}.

(** A well-formed message from "Jo" at instant [t]. *)
Definition fromJo (t : Z) : Submission :=
  {| sub_name := "Jo"; sub_email := "jo@example.com";
     sub_subject := "Hello there"; sub_message := "I would like to talk.";
     sub_honeypot := ""; sub_env := envAt t 200 |}.

(** The same message posted by a bot that fills every control. *)
Definition fromBot (t : Z) : Submission :=
  {| sub_name := "Jo"; sub_email := "jo@example.com";
     sub_subject := "Hello there"; sub_message := "I would like to talk.";
     sub_honeypot := "http://spam.example"; sub_env := envAt t 200 |}.

(** Five messages from "Jo", ten seconds apart. *)
Definition fiveFromJo : list Submission :=
  [fromJo 0; fromJo 10000; fromJo 20000; fromJo 30000; fromJo 40000].

(** *** Notions used to state the properties *)

Local Open Scope list_scope.

(** The page [p] with new validation errors, a new validity flag and
    [evs] appended to the log: the only parts that validation touches. *)
Definition revalidated (errs : gmap string string) (v : bool)
    (evs : list Event) (p : Page) : Page :=
  with_log (log p ++ evs)
    (with_formState {| isSubmitting := isSubmitting (formState p);
                       validationErrors := errs; isValid := v |} p).

Definition storeEventsFor (fd : FormData) (sb : Supabase) : list Event :=
  match sb with
  | SupabaseUndefined => []
  | SupabaseBroken err => [ConsoleWarn ("Database storage failed: " +:+ err)]
  | SupabaseRejects err =>
      [DbInsert (rowOf fd); ConsoleWarn ("Database storage failed: " +:+ err)]
  | SupabaseReplies (Some err) =>
      [DbInsert (rowOf fd);
       ConsoleWarn ("Failed to store message in database: " +:+ err)]
  | SupabaseReplies None => [DbInsert (rowOf fd)]
  end.

(** The page after a submission that went through. *)
Definition sentPage (p : Page) : Page :=
  {| elements := blankElements (elements p);
     formState := {| isSubmitting := false; validationErrors := ∅; isValid := true |};
     localStorage := recordedStorage (with_localStorage (checkedStorage p) p);
     config := config p;
     env := env p;
     log := log p ++ allMarks (config p) (elements p) ++ securityEvents p
            ++ mailEvents p ++ storeEvents p
            ++ (if available (localStorage p) then [] else [cannotSave])
            ++ [sentOk] |}.

(** A submission is dropped silently when handling it shows no
    notification at all. *)
Definition silently (evs : list Event) : Prop :=
  Forall (fun e => isNotify e = false) evs.

(** Every event of kind [A] comes before every event of kind [B]. *)
Definition precedes (A B : Event -> bool) (evs : list Event) : Prop :=
  forall i j a b,
    evs !! i = Some a -> evs !! j = Some b ->
    A a = true -> B b = true -> (i < j)%nat.

(** [q] shows the same form as [p]: same configuration, same controls up
    to their values. *)
Definition sameForm (p q : Page) : Prop :=
  config q = config p /\
  forall s, fillElements s (elements q) = fillElements s (elements p).

(** Seen from any instant of the hour starting at [start], the recent
    part of the history [h] is [kept]. *)
Definition windowed (start : Z) (h kept : list Z) : Prop :=
  forall now, (start <= now < start + 60 * 60 * 1000)%Z -> recent now h = kept.

End FormReadings.

(** ** What the content check looks for, in words

    Declarative readings of the three prohibited patterns, over the code
    units of the (lower-cased) message; the second part proves that the
    matchers of [Re] decide them. *)

Module ContentSpec.
Import Js.
Local Open Scope list_scope.

(** The text contains [n] consecutive copies of one character. *)
Definition hasRun (n : nat) (l : list ascii) : Prop :=
  exists pre c post, l = pre ++ replicate n c ++ post.

(** The same, for a character that is not a line terminator. *)
Definition hasRunOnLine (n : nat) (l : list ascii) : Prop :=
  exists pre c post, l = pre ++ replicate n c ++ post /\ isDot c = true.

(** The text contains [http://] or [https://] followed by a character
    that is not white space. *)
Definition hasUrl (l : list ascii) : Prop :=
  exists pre c post,
    (l = pre ++ chars "http://" ++ c :: post
     \/ l = pre ++ chars "https://" ++ c :: post)
    /\ isSpace c = false.

(** The text contains one of the spam keywords as a whole word: with a
    word boundary on either side. *)
Definition hasKeyword (l : list ascii) : Prop :=
  exists kw pre post,
    kw ∈ Re.keywords
    /\ l = pre ++ chars kw ++ post
    /\ Re.boundary (last pre) (head (chars kw)) = true
    /\ Re.boundary (last (chars kw)) (head post) = true.

(** The content check as the specification words it: reject on a spam
    keyword, a URL, or a run of ten or more identical characters. *)
Definition rejectsAsSpecified (text : string) : Prop :=
  let l := chars (toLowerCase text) in
  hasKeyword l \/ hasUrl l \/ hasRun 10 l.

(** *** Auxiliary notions of the proofs *)

Definition allAscii : list ascii := map ascii_of_nat (seq 0 256).

(** The last character of [l], or [prev] when [l] is empty. *)
Definition lastOr (prev : option ascii) (l : list ascii) : option ascii :=
  match last l with Some c => Some c | None => prev end.

End ContentSpec.

(** ** The Supabase client module (project CRUD, admin login, sessions)

    Each exported operation is run as one atomic step: what other event
    handlers may do while the operation waits for the network is not
    modelled.  The hosted store holds tables of rows; every request to it, to
    the auth provider or to the address-lookup service is logged and may
    fail, as decided by an oracle that the state carries ([faults], indexed
    by the number of requests made so far). *)

Module SupabaseClient.
Import Js.
Local Open Scope js_scope.

(** *** Configuration ([SUPABASE_CONFIG]) *)

Record Security := { maxFailedAttempts : nat }.
Record Admin := { require2FA : bool }.
Record Config := { security : Security; admin : Admin }.

Definition SUPABASE_CONFIG : Config :=
  {| security := {| maxFailedAttempts := 3 |};
     admin := {| require2FA := true |} |}.

(** *** Rows of the hosted store *)

Record Project := {
  p_id : string;
  p_name : string;
  p_description : string;
  p_url : string;
  p_image_url : option string;
  p_technologies : list string;
  p_category : string;
  p_is_featured : bool;
  p_is_active : bool;
  p_created_at : Z;
  p_updated_at : Z }.

Record AdminUser := { au_user_id : string; au_is_active : bool }.

Record BlockedIp := {
  b_ip_address : string;
  b_reason : string;
  b_blocked_at : Z;
  b_is_active : bool }.

Record LoginAttempt := {
  la_ip_address : string;
  la_user_agent : string;
  la_success : bool;
  la_created_at : Z }.

Record Db := {
  projects : list Project;
  admin_users : list AdminUser;
  blocked_ips : list BlockedIp;
  login_attempts : list LoginAttempt }.

(** *** The auth provider and the admin session *)

Record User := { user_id : string; user_email : string }.

Record Account := { acc_email : string; acc_password : string; acc_user : User }.

(** [adminSession], the client-side mirror of the admin session. *)
Record AdminSession := {
  s_id : string;
  s_user : User;
  s_createdAt : Z;
  is2FAVerified : bool }.

Record Credentials := { email : option string; password : option string }.

Record LoginResult := {
  lr_user : User;
  lr_session : string;
  lr_requires2FA : bool }.

(** *** Arguments of the CRUD operations

    [projectData] is a JavaScript object; a property that is absent (or
    [undefined], or [null]) is [None]. *)
Record ProjectData := {
  d_name : option string;
  d_description : option string;
  d_url : option string;
  d_image_url : option string;
  d_technologies : option (list string);
  d_category : option string;
  d_is_featured : option bool }.

(** The object handed to [insert] or [update]. *)
Record ProjectFields := {
  f_name : string;
  f_description : string;
  f_url : string;
  f_image_url : option string;
  f_technologies : list string;
  f_category : string;
  f_is_featured : bool }.

Record Filters := { limit : option nat; category : option string }.

(** *** Events *)

Inductive Event :=
| ConsoleLog (msg : string)
| ConsoleError (msg : string)
| FetchIp                                              (* fetch(api.ipify.org) *)
| SelectProjects
| InsertProject (fields : ProjectFields) (created_at : Z)
| UpdateProject (id : string) (fields : ProjectFields) (updated_at : Z)
| DeactivateProject (id : string)        (* update({ is_active: false }).eq('id', id) *)
| SelectBlockedIp (ip : string)
| InsertBlockedIp (ip : string)
| SelectLoginAttempts (ip : string) (since : Z)
| InsertLoginAttempt (ip : string)
| DeleteLoginAttempts (ip : string)
| SelectAdminUser (userId : string)
| AuthSignIn (email : string)
| AuthSignOut.

(** The events that are requests to a collaborator. *)
Definition isRequest (e : Event) : bool :=
  match e with
  | ConsoleLog _ | ConsoleError _ => false
  | _ => true
  end.

(** The events that are requests to the hosted store. *)
Definition isStoreCall (e : Event) : bool :=
  match e with
  | ConsoleLog _ | ConsoleError _ | FetchIp | AuthSignIn _ | AuthSignOut => false
  | _ => true
  end.

(** *** State *)

Record Client := {
  config : Config;
  db : Db;                          (* the hosted store *)
  accounts : list Account;          (* the hosted auth provider *)
  authUser : option User;           (* the auth session kept by the library *)
  adminSession : option AdminSession;
  now : Z;                          (* [Date.now()] *)
  ip : string;                      (* what the address lookup answers *)
  userAgent : string;               (* [navigator.userAgent] *)
  entropy : string;                 (* [Math.random().toString(36).substr(2, 9)] *)
  faults : nat -> bool;             (* which requests fail *)
  calls : nat;                      (* requests made so far *)
  log : list Event }.

Definition with_db (x : Db) (c : Client) : Client :=
  {| config := config c; db := x; accounts := accounts c; authUser := authUser c;
     adminSession := adminSession c; now := now c; ip := ip c;
     userAgent := userAgent c; entropy := entropy c; faults := faults c;
     calls := calls c; log := log c |}.
Definition with_authUser (x : option User) (c : Client) : Client :=
  {| config := config c; db := db c; accounts := accounts c; authUser := x;
     adminSession := adminSession c; now := now c; ip := ip c;
     userAgent := userAgent c; entropy := entropy c; faults := faults c;
     calls := calls c; log := log c |}.
Definition with_adminSession (x : option AdminSession) (c : Client) : Client :=
  {| config := config c; db := db c; accounts := accounts c; authUser := authUser c;
     adminSession := x; now := now c; ip := ip c;
     userAgent := userAgent c; entropy := entropy c; faults := faults c;
     calls := calls c; log := log c |}.
Definition with_calls (x : nat) (c : Client) : Client :=
  {| config := config c; db := db c; accounts := accounts c; authUser := authUser c;
     adminSession := adminSession c; now := now c; ip := ip c;
     userAgent := userAgent c; entropy := entropy c; faults := faults c;
     calls := x; log := log c |}.
Definition with_log (x : list Event) (c : Client) : Client :=
  {| config := config c; db := db c; accounts := accounts c; authUser := authUser c;
     adminSession := adminSession c; now := now c; ip := ip c;
     userAgent := userAgent c; entropy := entropy c; faults := faults c;
     calls := calls c; log := x |}.
Definition with_now (x : Z) (c : Client) : Client :=
  {| config := config c; db := db c; accounts := accounts c; authUser := authUser c;
     adminSession := adminSession c; now := x; ip := ip c;
     userAgent := userAgent c; entropy := entropy c; faults := faults c;
     calls := calls c; log := log c |}.

Definition with_projects (x : list Project) (d : Db) : Db :=
  {| projects := x; admin_users := admin_users d; blocked_ips := blocked_ips d;
     login_attempts := login_attempts d |}.
Definition with_blocked_ips (x : list BlockedIp) (d : Db) : Db :=
  {| projects := projects d; admin_users := admin_users d; blocked_ips := x;
     login_attempts := login_attempts d |}.
Definition with_login_attempts (x : list LoginAttempt) (d : Db) : Db :=
  {| projects := projects d; admin_users := admin_users d;
     blocked_ips := blocked_ips d; login_attempts := x |}.

Definition emit (e : Event) : M Client unit :=
  modify (fun c => with_log (log c ++ [e]) c).

Definition consoleLog (msg : string) : M Client unit := emit (ConsoleLog msg).
Definition consoleError (msg : string) : M Client unit := emit (ConsoleError msg).

(** One request to a collaborator: it is logged, it consumes one answer of
    the oracle, and the result tells whether it went through. *)
Definition request (e : Event) : M Client bool :=
  c <- gets (fun c => c) ;;
  modify (fun c => with_calls (S (calls c)) (with_log (log c ++ [e]) c)) ;;
  ret (negb (faults c (calls c))).

(** [.single()]: the row when exactly one row matches, [null] otherwise. *)
Definition single {A} (rows : list A) : option A :=
  match rows with
  | [r] => Some r
  | _ => None
  end.

(** [data !== null] *)
Definition notNull {A} (data : option A) : bool :=
  match data with Some _ => true | None => false end.

(** JavaScript truthiness of an optional string property. *)
Definition present (o : option string) : bool :=
  match o with Some s => truthy s | None => false end.

(** *** Validation and sanitizing *)

(** [sanitizeString]: the empty string for anything that is not a string,
    else the string trimmed and without angle brackets. *)
Definition sanitizeString (str : option string) : string :=
  match str with
  | None => ""
  | Some s => stripAngle (trim s)
  end.

Definition lengthOf (o : option string) : nat :=
  match o with Some s => len s | None => 0%nat end.

(** [!v || v.length < lo || v.length > hi] *)
Definition outside (o : option string) (lo hi : nat) : bool :=
  negb (present o) || (lengthOf o <? lo)%nat || (hi <? lengthOf o)%nat.

Section Platform.

(** Whether the browser's [new URL(url)] returns rather than throws.  The
    URL parser is not part of the program; it is a parameter here (see
    [UrlSyntax] below for the part of its behaviour that the properties
    need). *)
Variable newURL : string -> bool.

Definition isValidUrl (url : option string) : bool :=
  match url with
  | Some u => newURL u
  | None => false       (* [new URL(undefined)] throws *)
  end.

Definition validateUrl (url : option string) : M Client string :=
  if negb (isValidUrl url) then throw "Invalid URL format"
  else ret (default "" url).

Definition validateProjectData (data : ProjectData) : M Client unit :=
  if outside (d_name data) 3 100 then
    throw "Project name must be between 3 and 100 characters"
  else if outside (d_description data) 10 500 then
    throw "Project description must be between 10 and 500 characters"
  else if negb (present (d_url data)) || negb (isValidUrl (d_url data)) then
    throw "Valid project URL is required"
  else ret tt.

(** *** Projects *)

(** The object literal that [createProject] and [updateProject] build; its
    properties are evaluated in order, and [validateUrl] may throw. *)
Definition projectFields (data : ProjectData) : M Client ProjectFields :=
  let name := sanitizeString (d_name data) in
  let description := sanitizeString (d_description data) in
  url <- validateUrl (d_url data) ;;
  image_url <- (if present (d_image_url data)
                then (u <- validateUrl (d_image_url data) ;; ret (Some u))
                else ret None) ;;
  ret {| f_name := name;
         f_description := description;
         f_url := url;
         f_image_url := image_url;
         f_technologies := default [] (d_technologies data);
         f_category := sanitizeString
                         (Some (if present (d_category data)
                                then default "" (d_category data) else "web"));
         f_is_featured := default false (d_is_featured data) |}.

Definition storeError : string := "the store refused the request".

Definition newRow (id : string) (f : ProjectFields) (t : Z) : Project :=
  {| p_id := id; p_name := f_name f; p_description := f_description f;
     p_url := f_url f; p_image_url := f_image_url f;
     p_technologies := f_technologies f; p_category := f_category f;
     p_is_featured := f_is_featured f; p_is_active := true;
     p_created_at := t; p_updated_at := t |}.

Definition patchRow (f : ProjectFields) (t : Z) (r : Project) : Project :=
  {| p_id := p_id r; p_name := f_name f; p_description := f_description f;
     p_url := f_url f; p_image_url := f_image_url f;
     p_technologies := f_technologies f; p_category := f_category f;
     p_is_featured := f_is_featured f; p_is_active := p_is_active r;
     p_created_at := p_created_at r; p_updated_at := t |}.

(** [update({ is_active: false })] on one row; the trigger
    [update_projects_updated_at] of the schema stamps the row. *)
Definition deactivate (t : Z) (r : Project) : Project :=
  {| p_id := p_id r; p_name := p_name r; p_description := p_description r;
     p_url := p_url r; p_image_url := p_image_url r;
     p_technologies := p_technologies r; p_category := p_category r;
     p_is_featured := p_is_featured r; p_is_active := false;
     p_created_at := p_created_at r; p_updated_at := t |}.

(** Apply [f] to the rows selected by [.eq('id', id)]. *)
Definition updateWhereId (id : string) (f : Project -> Project)
    (rows : list Project) : list Project :=
  map (fun r => if String.eqb (p_id r) id then f r else r) rows.

Definition setProjects (rows : list Project) : M Client unit :=
  modify (fun c => with_db (with_projects rows (db c)) c).

Definition createProject (projectData : ProjectData) : M Client Project :=
  try_catch
    (validateProjectData projectData ;;
     fields <- projectFields projectData ;;
     c <- gets (fun c => c) ;;
     ok <- request (InsertProject fields (now c)) ;;
     if negb ok then throw storeError
     else
       (let row := newRow ("row-" ++ ofNat (calls c)) fields (now c) in
        setProjects (projects (db c) ++ [row]) ;;
        consoleLog "Project created successfully" ;;
        ret row))
    (fun error =>
       consoleError ("Error creating project: " ++ error) ;; throw error).

Definition updateProject (id : string) (projectData : ProjectData)
  : M Client (option Project) :=
  try_catch
    (validateProjectData projectData ;;
     fields <- projectFields projectData ;;
     c <- gets (fun c => c) ;;
     ok <- request (UpdateProject id fields (now c)) ;;
     if negb ok then throw storeError
     else
       (let rows := updateWhereId id (patchRow fields (now c)) (projects (db c)) in
        setProjects rows ;;
        consoleLog "Project updated successfully" ;;
        ret (head (filter (fun r => p_id r = id) rows))))
    (fun error =>
       consoleError ("Error updating project: " ++ error) ;; throw error).

End Platform.

Definition deleteProject (id : string) : M Client bool :=
  try_catch
    (c <- gets (fun c => c) ;;
     ok <- request (DeactivateProject id) ;;
     if negb ok then throw storeError
     else
       (setProjects (updateWhereId id (deactivate (now c)) (projects (db c))) ;;
        consoleLog "Project deleted successfully" ;;
        ret true))
    (fun error =>
       consoleError ("Error deleting project: " ++ error) ;; throw error).

(** [.order('created_at', { ascending: false })], as a stable insertion
    sort. *)
Fixpoint insertDesc (r : Project) (rows : list Project) : list Project :=
  match rows with
  | [] => [r]
  | r' :: rest =>
      if (p_created_at r' <? p_created_at r)%Z then r :: rows
      else r' :: insertDesc r rest
  end.

Definition orderDesc (rows : list Project) : list Project :=
  foldr insertDesc [] rows.

(** The rows that the query of [getProjects] selects. *)
Definition selected (filters : Filters) (r : Project) : bool :=
  p_is_active r
  && match category filters with
     | Some cat => if truthy cat then String.eqb (p_category r) cat else true
     | None => true
     end.

Definition limited (filters : Filters) (rows : list Project) : list Project :=
  match limit filters with
  | Some (S n) => take (S n) rows
  | _ => rows
  end.

Definition getProjects (filters : Filters) : M Client (list Project) :=
  try_catch
    (c <- gets (fun c => c) ;;
     ok <- request SelectProjects ;;
     if negb ok then throw storeError
     else ret (limited filters
                 (orderDesc (List.filter (selected filters) (projects (db c))))))
    (fun error =>
       consoleError ("Error fetching projects: " ++ error) ;; ret []).

Definition noFilters : Filters := {| limit := None; category := None |}.

(** *** Security helpers *)

Definition oneHour : Z := 60 * 60 * 1000.

Definition getUserIP : M Client string :=
  ok <- request FetchIp ;;
  c <- gets (fun c => c) ;;
  ret (if ok then ip c else "unknown").

Definition isIPBlocked : M Client bool :=
  try_catch
    (userIP <- getUserIP ;;
     ok <- request (SelectBlockedIp userIP) ;;
     c <- gets (fun c => c) ;;
     let rows := filter (fun r => b_ip_address r = userIP /\ b_is_active r = true)
                   (blocked_ips (db c)) in
     let data := if ok then single rows else None in
     ret (notNull data))
    (fun _ => ret false).

Definition sendIPBlockNotification (ip : string) : M Client unit :=
  consoleLog ("IP blocked notification would be sent for: " ++ ip).

Definition blockIP : M Client unit :=
  try_catch
    (userIP <- getUserIP ;;
     c <- gets (fun c => c) ;;
     ok <- request (InsertBlockedIp userIP) ;;
     if negb ok then throw storeError
     else
       (modify (fun c' =>
          with_db (with_blocked_ips
                     (blocked_ips (db c') ++
                      [{| b_ip_address := userIP;
                          b_reason := "Excessive failed login attempts";
                          b_blocked_at := now c;
                          b_is_active := true |}]) (db c')) c') ;;
        sendIPBlockNotification userIP ;;
        consoleLog ("IP address blocked: " ++ userIP)))
    (fun error => consoleError ("Error blocking IP: " ++ error)).

Definition getFailedLoginAttempts : M Client nat :=
  try_catch
    (userIP <- getUserIP ;;
     c <- gets (fun c => c) ;;
     let oneHourAgo := (now c - oneHour)%Z in
     ok <- request (SelectLoginAttempts userIP oneHourAgo) ;;
     let rows := filter (fun r => la_ip_address r = userIP /\ la_success r = false
                                  /\ (oneHourAgo <= la_created_at r)%Z)
                   (login_attempts (db c)) in
     ret (if ok then length rows else 0%nat))
    (fun _ => ret 0%nat).

Definition recordFailedLogin : M Client unit :=
  try_catch
    (userIP <- getUserIP ;;
     c <- gets (fun c => c) ;;
     ok <- request (InsertLoginAttempt userIP) ;;
     if ok then
       modify (fun c' =>
         with_db (with_login_attempts
                    (login_attempts (db c') ++
                     [{| la_ip_address := userIP;
                         la_user_agent := userAgent c;
                         la_success := false;
                         la_created_at := now c |}]) (db c')) c')
     else ret tt)
    (fun error => consoleError ("Error recording failed login: " ++ error)).

Definition clearFailedLoginAttempts : M Client unit :=
  try_catch
    (userIP <- getUserIP ;;
     ok <- request (DeleteLoginAttempts userIP) ;;
     if ok then
       modify (fun c' =>
         with_db (with_login_attempts
                    (filter (fun r => ~ (la_ip_address r = userIP /\ la_success r = false))
                       (login_attempts (db c'))) (db c')) c')
     else ret tt)
    (fun error => consoleError ("Error clearing failed login attempts: " ++ error)).

(** *** The auth provider *)

Definition clearSensitiveData : M Client unit :=
  modify (with_adminSession None).

(** The listener installed by [setupAuthStateListener]. *)
Definition authStateChanged (event : string) : M Client unit :=
  consoleLog ("Auth state changed: " ++ event) ;;
  if String.eqb event "SIGNED_OUT" then
    (modify (with_adminSession None) ;; clearSensitiveData)
  else ret tt.

Inductive AuthReply :=
| AuthData (user : User) (session : string)
| AuthError (message : string).

Definition findAccount (e p : string) (l : list Account) : option Account :=
  head (filter (fun a => acc_email a = e /\ acc_password a = p) l).

(** [supabaseClient.auth.signInWithPassword]. *)
Definition signInWithPassword (e p : string) : M Client AuthReply :=
  ok <- request (AuthSignIn e) ;;
  c <- gets (fun c => c) ;;
  if negb ok then ret (AuthError "Failed to fetch")
  else
    match findAccount e p (accounts c) with
    | Some a =>
        modify (with_authUser (Some (acc_user a))) ;;
        authStateChanged "SIGNED_IN" ;;
        ret (AuthData (acc_user a) ("token-" ++ user_id (acc_user a)))
    | None => ret (AuthError "Invalid login credentials")
    end.

(** [supabaseClient.auth.signOut]: when the request goes through the
    library drops its session and notifies the listeners. *)
Definition signOut : M Client unit :=
  ok <- request AuthSignOut ;;
  if ok then (modify (with_authUser None) ;; authStateChanged "SIGNED_OUT")
  else ret tt.

(** *** Admin sessions *)

Definition verifyAdminPrivileges (userId : string) : M Client bool :=
  try_catch
    (ok <- request (SelectAdminUser userId) ;;
     c <- gets (fun c => c) ;;
     let rows := filter (fun r => au_user_id r = userId /\ au_is_active r = true)
                   (admin_users (db c)) in
     let data := if ok then single rows else None in
     ret (notNull data))
    (fun _ => ret false).

Definition generateSessionId : M Client string :=
  c <- gets (fun c => c) ;;
  ret ("session_" ++ ContactForm.ofZ (now c) ++ "_" ++ entropy c).

Definition createAdminSession (user : User) : M Client AdminSession :=
  id <- generateSessionId ;;
  c <- gets (fun c => c) ;;
  ret {| s_id := id; s_user := user; s_createdAt := now c; is2FAVerified := false |}.

Definition send2FACode (email : string) : M Client unit :=
  consoleLog ("2FA code would be sent to: " ++ email).

Definition validate2FACode (email code : string) : M Client bool :=
  ret (String.eqb code "123456").

Definition updateAdminSession (sessionId : string) : M Client unit :=
  consoleLog ("Session updated: " ++ sessionId).

Definition invalidateAdminSession (sessionId : string) : M Client unit :=
  consoleLog ("Session invalidated: " ++ sessionId).

Definition validateAdminSession : M Client bool :=
  s <- gets adminSession ;;
  ret (notNull s).

Definition adminLogout : M Client bool :=
  try_catch
    (s <- gets adminSession ;;
     match s with
     | Some session =>
         invalidateAdminSession (s_id session) ;;
         modify (with_adminSession None)
     | None => ret tt
     end ;;
     signOut ;;
     consoleLog "Admin logout successful" ;;
     ret true)
    (fun error => consoleError ("Admin logout failed: " ++ error) ;; throw error).

Definition adminLogin (credentials : Credentials) : M Client LoginResult :=
  try_catch
    (blocked <- isIPBlocked ;;
     if blocked then throw "Access denied: IP address is blocked"
     else
       (failedAttempts <- getFailedLoginAttempts ;;
        cfg <- gets config ;;
        if (maxFailedAttempts (security cfg) <=? failedAttempts)%nat then
          (blockIP ;;
           throw "Too many failed attempts. IP address has been blocked.")
        else if negb (present (email credentials))
                || negb (present (password credentials)) then
          (recordFailedLogin ;; throw "Email and password are required")
        else
          (reply <- signInWithPassword (default "" (email credentials))
                      (default "" (password credentials)) ;;
           match reply with
           | AuthError error => recordFailedLogin ;; throw error
           | AuthData user session =>
               isAdmin <- verifyAdminPrivileges (user_id user) ;;
               if negb isAdmin then
                 (signOut ;;
                  recordFailedLogin ;;
                  throw "Access denied: Admin privileges required")
               else
                 (clearFailedLoginAttempts ;;
                  created <- createAdminSession user ;;
                  modify (with_adminSession (Some created)) ;;
                  (if require2FA (admin cfg) then send2FACode (user_email user)
                   else ret tt) ;;
                  consoleLog "Admin login successful" ;;
                  ret {| lr_user := user; lr_session := session;
                         lr_requires2FA := require2FA (admin cfg) |})
           end)))
    (fun error => consoleError ("Admin login failed: " ++ error) ;; throw error).

Definition verify2FACode (code : string) : M Client bool :=
  try_catch
    (s <- gets adminSession ;;
     match s with
     | None => throw "No active admin session"
     | Some session =>
         isValid <- validate2FACode (user_email (s_user session)) code ;;
         if negb isValid then throw "Invalid 2FA code"
         else
           (modify (with_adminSession
                      (Some {| s_id := s_id session; s_user := s_user session;
                               s_createdAt := s_createdAt session;
                               is2FAVerified := true |})) ;;
            updateAdminSession (s_id session) ;;
            consoleLog "2FA verification successful" ;;
            ret true)
     end)
    (fun error => consoleError ("2FA verification failed: " ++ error) ;; throw error).

Definition isAdminLoggedIn (c : Client) : bool :=
  match adminSession c with
  | Some session => is2FAVerified session
  | None => false
  end.

(** The body of the timer set up by [setupAdminSessionMonitoring]
    ([window.location.reload] is not modelled). *)
Definition sessionCheck : M Client unit :=
  s <- gets adminSession ;;
  match s with
  | Some _ =>
      isValid <- validateAdminSession ;;
      if negb isValid then (adminLogout ;; ret tt) else ret tt
  | None => ret tt
  end.

End SupabaseClient.

(** ** The syntax of absolute URLs

    The part of the URL Standard's parser that the properties need: without
    a base URL, parsing fails unless the input, once stripped, starts with a
    scheme (an ASCII letter, then letters, digits, [+], [-] or [.], then a
    colon). *)

Module UrlSyntax.
Import Js.
Local Open Scope list_scope.

Definition isC0OrSpace (c : ascii) : bool := (code c <=? 32)%nat.

Definition isTabOrNewline (c : ascii) : bool :=
  (code c =? 9)%nat || (code c =? 10)%nat || (code c =? 13)%nat.

Fixpoint dropC0 (l : list ascii) : list ascii :=
  match l with
  | c :: l' => if isC0OrSpace c then dropC0 l' else l
  | [] => []
  end.

(** Leading and trailing C0 controls and spaces are removed, then every tab
    and newline. *)
Definition preprocess (l : list ascii) : list ascii :=
  List.filter (fun c => negb (isTabOrNewline c)) (rev (dropC0 (rev (dropC0 l)))).

Definition schemeChar (c : ascii) : bool :=
  isAlnum c || (code c =? 43)%nat || (code c =? 45)%nat || (code c =? 46)%nat.

Fixpoint schemeEnds (l : list ascii) : bool :=
  match l with
  | c :: l' =>
      if (code c =? 58)%nat then true
      else if schemeChar c then schemeEnds l' else false
  | [] => false
  end.

Definition hasScheme (s : string) : bool :=
  match preprocess (chars s) with
  | c :: l => isAlpha c && schemeEnds l
  | [] => false
  end.


End UrlSyntax.

(** ** Pure readings of the client *)

Module ClientReadings.
Import Js SupabaseClient.
Local Open Scope list_scope.

Definition after {A} (m : M Client A) (c : Client) : Client := snd (m c).

(** The events that [m] adds to the log of [c]. *)
Definition events {A} (m : M Client A) (c : Client) : list Event :=
  drop (length (log c)) (log (after m c)).

(** *** Projects *)

(** Why [createProject] and [updateProject] refuse [data] before they call
    the store, if they do. *)
Definition rejection (newURL : string -> bool) (data : ProjectData)
  : option string :=
  if outside (d_name data) 3 100 then
    Some "Project name must be between 3 and 100 characters"
  else if outside (d_description data) 10 500 then
    Some "Project description must be between 10 and 500 characters"
  else if negb (present (d_url data)) || negb (isValidUrl newURL (d_url data)) then
    Some "Valid project URL is required"
  else if present (d_image_url data) && negb (isValidUrl newURL (d_image_url data)) then
    Some "Invalid URL format"
  else None.

(** The fields sent to the store for [data]. *)
Definition sanitizedFields (data : ProjectData) : ProjectFields :=
  {| f_name := sanitizeString (d_name data);
     f_description := sanitizeString (d_description data);
     f_url := default "" (d_url data);
     f_image_url := if present (d_image_url data) then d_image_url data else None;
     f_technologies := default [] (d_technologies data);
     f_category := sanitizeString
                     (Some (if present (d_category data)
                            then default "" (d_category data) else "web"));
     f_is_featured := default false (d_is_featured data) |}.



(** The active projects, as [getProjects()] lists them. *)
Definition activeProjects (c : Client) : list Project :=
  orderDesc (List.filter p_is_active (projects (db c))).

(** The active rows of [admin_users] for the user [userId]. *)
Definition adminRows (userId : string) (c : Client) : list AdminUser :=
  filter (fun r => au_user_id r = userId /\ au_is_active r = true)
    (admin_users (db c)).

(** The store answers every request. *)
Definition reachable (c : Client) : Prop := forall n, faults c n = false.

(** *** Steps of the session gate *)

Inductive Op :=
| OpLogin (credentials : Credentials)
| OpVerify (code : string)
| OpLogout
| OpSessionCheck
| OpAuthEvent (event : string)
| OpGetProjects (filters : Filters)
| OpCreateProject (data : ProjectData)
| OpUpdateProject (id : string) (data : ProjectData)
| OpDeleteProject (id : string)
| OpClock (t : Z).

Section Steps.
Variable newURL : string -> bool.

Definition step (op : Op) (c : Client) : Client :=
  match op with
  | OpLogin credentials => after (adminLogin credentials) c
  | OpVerify code => after (verify2FACode code) c
  | OpLogout => after adminLogout c
  | OpSessionCheck => after sessionCheck c
  | OpAuthEvent event => after (authStateChanged event) c
  | OpGetProjects filters => after (getProjects filters) c
  | OpCreateProject data => after (createProject newURL data) c
  | OpUpdateProject id data => after (updateProject newURL id data) c
  | OpDeleteProject id => after (deleteProject id) c
  | OpClock t => with_now t c
  end.

Definition run (ops : list Op) (c : Client) : Client :=
  fold_left (fun c op => step op c) ops c.

(** The step is a call of [verify2FACode] that returns. *)
Definition verifies (op : Op) (c : Client) : bool :=
  match op with
  | OpVerify code =>
      match result_of (verify2FACode code c) with
      | Val _ => true
      | Exn _ => false
      end
  | _ => false
  end.

(** No step of the run is a call of [verify2FACode] that returns. *)
Fixpoint unverified (ops : list Op) (c : Client) : bool :=
  match ops with
  | [] => true
  | op :: rest => negb (verifies op c) && unverified rest (step op c)
  end.

End Steps.

(** *** Notions used to state the properties *)

(** [m] preserves [I]: whatever [m] returns or throws, [I] still holds. *)
Definition preserves {A} (I : Client -> Prop) (m : M Client A) : Prop :=
  forall c, I c -> I (snd (m c)).

(** An invariant that reads neither the log nor the request counter nor
    the tables that the login helpers write. *)
Record Quiet (I : Client -> Prop) : Prop := {
  quiet_log : forall c l, I c -> I (with_log l c);
  quiet_calls : forall c n, I c -> I (with_calls n c);
  quiet_blocked : forall c x, I c -> I (with_db (with_blocked_ips x (db c)) c);
  quiet_attempts : forall c x, I c -> I (with_db (with_login_attempts x (db c)) c) }.

(** The client after [signOut]. *)
Definition signedOut (c : Client) : Client :=
  let c' := with_calls (S (calls c)) (with_log (log c ++ [AuthSignOut]) c) in
  if faults c (calls c) then c'
  else with_log (log c' ++ [ConsoleLog "Auth state changed: SIGNED_OUT"])
         (with_adminSession None (with_authUser None c')).

Definition loggedOut (c : Client) : Prop := isAdminLoggedIn c = false.

(** *** Concrete clients *)

Definition alice : User := {| user_id := "u-alice"; user_email := "alice@example.com" |}.
Definition bob : User := {| user_id := "u-bob"; user_email := "bob@example.com" |}.

Definition demoProject : Project :=
  {| p_id := "p1"; p_name := "Portfolio"; p_description := "A personal portfolio site";
     p_url := "https://example.com"; p_image_url := None;
     p_technologies := ["js"]; p_category := "web"; p_is_featured := false;
     p_is_active := true; p_created_at := 1000; p_updated_at := 1000 |}.

(** A client of a reachable store in which Alice is an active admin and
    Bob has an account but no admin row. *)
Definition demoClient : Client :=
  {| config := SUPABASE_CONFIG;
     db := {| projects := [demoProject];
              admin_users := [{| au_user_id := "u-alice"; au_is_active := true |}];
              blocked_ips := [];
              login_attempts := [] |};
     accounts := [{| acc_email := "alice@example.com"; acc_password := "correct horse";
                     acc_user := alice |};
                  {| acc_email := "bob@example.com"; acc_password := "battery staple";
                     acc_user := bob |}];
     authUser := None;
     adminSession := None;
     now := 5000;
     ip := "203.0.113.7";
     userAgent := "Mozilla/5.0";
     entropy := "k3j9x0a1b";
     faults := fun _ => false;
     calls := 0;
     log := [] |}.

Definition bobLogin : Credentials :=
  {| email := Some "bob@example.com"; password := Some "battery staple" |}.
Definition aliceLogin : Credentials :=
  {| email := Some "alice@example.com"; password := Some "correct horse" |}.



End ClientReadings.

(** ** The contact form: input handlers and set-up ([js/main.js]) *)

Module FormSetup.
Import Js ContactForm.
Local Open Scope js_scope.

(** The four visible controls of the form; an event names its target. *)
Inductive Control :=
| NameControl
| EmailControl
| SubjectControl
| MessageControl.

Definition control (t : Control) (els : Elements) : Input :=
  match t with
  | NameControl => nameField els
  | EmailControl => emailField els
  | SubjectControl => subjectField els
  | MessageControl => messageField els
  end.

(** [field.value = value] *)
Definition assign (t : Control) (value : string) (els : Elements) : Elements :=
  let put i := {| in_name := in_name i; in_value := value |} in
  match t with
  | NameControl =>
      {| nameField := put (nameField els); emailField := emailField els;
         subjectField := subjectField els; messageField := messageField els;
         honeypot := honeypot els |}
  | EmailControl =>
      {| nameField := nameField els; emailField := put (emailField els);
         subjectField := subjectField els; messageField := messageField els;
         honeypot := honeypot els |}
  | SubjectControl =>
      {| nameField := nameField els; emailField := emailField els;
         subjectField := put (subjectField els); messageField := messageField els;
         honeypot := honeypot els |}
  | MessageControl =>
      {| nameField := nameField els; emailField := emailField els;
         subjectField := subjectField els; messageField := put (messageField els);
         honeypot := honeypot els |}
  end.

(** The controls on which [setupInputSanitization] installs
    [sanitizeInput] (for [input] events, and through [handlePaste] for
    [paste] events). *)
Definition sanitizedControls : list Control :=
  [NameControl; SubjectControl; MessageControl].

(** [CONFIG.validation[fieldName]?.maxLength] *)
Definition maxLengthOf (cfg : Config) (fieldName : string) : option nat :=
  match validation cfg !! fieldName with
  | Some v => maxLength v
  | None => None
  end.

(** [if (maxLength && value.length > maxLength) value = value.substring(0, maxLength)] *)
Definition clip (maxLength : option nat) (value : string) : string :=
  match maxLength with
  | Some m => if (0 <? m)%nat && (m <? len value)%nat
              then substring 0 m value else value
  | None => value
  end.

Definition sanitizeInput (t : Control) : M Page unit :=
  els <- gets elements ;;
  cfg <- gets config ;;
  let field := control t els in
  let value := stripAngle (in_value field) in
  let fieldName := in_name field in
  let maxLength := maxLengthOf cfg fieldName in
  modify (with_elements (assign t (clip maxLength value) els)).

(** An [input] event on a control that carries both listeners, followed
    by the validation of that control (on [blur], or when the debounce
    timer of the [input] listener fires). *)
Definition inputThenValidate (t : Control) : M Page bool :=
  sanitizeInput t ;;
  els <- gets elements ;;
  validateField (control t els).

(** [initializeRateLimiting]; [now] is what [Date.now()] reads when the
    page is loaded. *)
Definition initializeRateLimiting (now : Z) : M Page unit :=
  stored <- getSubmissionHistory ;;
  let oneHourAgo := (now - 60 * 60 * 1000)%Z in
  let submissions := filter (fun time => (oneHourAgo < time)%Z) stored in
  saveSubmissionHistory submissions.

(** The message of [validateField] for a value that is too long. *)
Definition tooLongMessage (fieldName : string) (v : Rule) : string :=
  capitalizeFirst fieldName ++ " must be less than "
  ++ ofNat (default 0%nat (maxLength v)) ++ " characters".

(** The message of [validateField] for a missing value. *)
Definition requiredMessage (fieldName : string) : string :=
  capitalizeFirst fieldName ++ " is required".

(** The validation errors after the validation of one field gave [r]:
    [delete formState.validationErrors[fieldName]] or
    [formState.validationErrors[fieldName] = errorMessage]. *)
Definition noted (name : string) (r : bool * string) (errs : gmap string string)
  : gmap string string :=
  if fst r then delete name errs else <[name := snd r]> errs.

(** [formState.validationErrors] and [formState.isValid] once
    [validateField] has run on [fields], in order. *)
Definition validatedState (cfg : Config) (fields : list Input)
    (st : gmap string string * bool) : gmap string string * bool :=
  fold_left
    (fun st f =>
       match FormReadings.fieldChecked cfg f with
       | Some r =>
           let errs := noted (in_name f) r (fst st) in
           (errs, negb (0 <? size errs)%nat)
       | None => st
       end) fields st.

(** The validation errors once the four visible fields gave [r1] to [r4]. *)
Definition fourNoted (r1 r2 r3 r4 : bool * string) (errs : gmap string string)
  : gmap string string :=
  noted "message" r4 (noted "subject" r3 (noted "email" r2 (noted "name" r1 errs))).

(** The form that [index.html] and [createHoneypotField] give: the four
    controls carry the names of the configured rules, the honeypot that of
    the configuration. *)
Definition standardForm (els : Elements) : Prop :=
  in_name (nameField els) = "name"
  /\ in_name (emailField els) = "email"
  /\ in_name (subjectField els) = "subject"
  /\ in_name (messageField els) = "message"
  /\ match honeypot els with
     | Some h => in_name h = "website"
     | None => True
     end.


(** A well-formed message whose address has no full stop after the [@]. *)
Definition fromLocalhost (t : Z) : FormReadings.Submission :=
  {| FormReadings.sub_name := "Jo"; FormReadings.sub_email := "jo@localhost";
     FormReadings.sub_subject := "Hello there";
     FormReadings.sub_message := "I would like to talk.";
     FormReadings.sub_honeypot := ""; FormReadings.sub_env := FormReadings.envAt t 200 |}.

(** A submission goes through: the form is idle, every field is valid,
    the security checks pass and the mail service answers 200. *)
Definition goesThrough (p : Page) : bool :=
  negb (isSubmitting (formState p))
  && FormReadings.allValid (config p) (elements p)
  && FormReadings.securityOk p
  && match FormReadings.mailFailure p with None => true | Some _ => false end.

End FormSetup.

(** ** The contact form over any stored text

    [ContactForm] reads the local storage as holding, under the rate-limit
    key, what the program wrote there.  The text found there can also be
    valid JSON for something that is not an array ([null], [5], [{}]),
    put there by the user or by another script of the same origin:
    [getSubmissionHistory] then returns that value, and the first array
    method called on it throws a [TypeError].  Here that state is part of
    the model, and the functions that read the history, with their
    callers up to the submit handler, are written out over it; the rest
    of the form is taken from [ContactForm].  (An array found under the
    key is still taken to hold instants, as the program writes them.) *)

Module StoredText.
Import Js ContactForm.
Local Open Scope js_scope.
Local Open Scope list_scope.

(** What [JSON.parse] gives for the text under the rate-limit key. *)
Inductive Parsed :=
| Instants (l : list Z)
| NotArray.

(** The page, and whether the text under the rate-limit key parses to
    something other than an array; while it does, the entry of [items]
    under that key is not looked at.  (Text that does not parse at all
    reads as an absent entry: [getSubmissionHistory] catches the error.) *)
Record Tab := {
  foreign : bool;
  page : Page }.

(** Code of [ContactForm] that does not read the history. *)
Definition lift {A} (m : M Page A) : M Tab A :=
  fun t => (fst (m (page t)), {| foreign := foreign t; page := snd (m (page t)) |}).

(** The [TypeError] of a call of [filter] or [push] on a value that is
    not an array; its message, which depends on the value and on the
    engine, is not modelled. *)
Definition typeError : string := "TypeError: not an array".

Definition getSubmissionHistory : M Tab Parsed :=
  cfg <- lift (gets config) ;;
  st <- lift (gets localStorage) ;;
  other <- gets foreign ;;
  ret (if available st
       then (if other then NotArray
             else Instants (default [] (items st !! rateLimitKey (security cfg))))
       else Instants []).

(** The receiver of [submissions.filter(...)] and [submissions.push(...)]. *)
Definition arrayOf (submissions : Parsed) : M Tab (list Z) :=
  match submissions with
  | Instants l => ret l
  | NotArray => throw typeError
  end.

Definition saveSubmissionHistory (submissions : list Z) : M Tab unit :=
  cfg <- lift (gets config) ;;
  st <- lift (gets localStorage) ;;
  if available st then
    modify (fun t =>
      {| foreign := false;
         page := with_localStorage
                   {| available := true;
                      items := <[rateLimitKey (security cfg) := submissions]> (items st) |}
                   (page t) |})
  else lift (consoleWarn "Could not save submission history").

Definition checkRateLimit : M Tab bool :=
  now <- lift (gets (fun p => nowCheck (env p))) ;;
  submissions <- getSubmissionHistory ;;
  let oneHourAgo := (now - 60 * 60 * 1000)%Z in
  array <- arrayOf submissions ;;
  let recentSubmissions := filter (fun time => (oneHourAgo < time)%Z) array in
  saveSubmissionHistory recentSubmissions ;;
  cfg <- lift (gets config) ;;
  ret (length recentSubmissions <? maxSubmissionsPerHour (security cfg))%nat.

Definition performSecurityChecks : M Tab bool :=
  els <- lift (gets elements) ;;
  if honeypotFilled els then
    (lift (consoleWarn "Bot detected via honeypot") ;; ret false)
  else
    (underLimit <- checkRateLimit ;;
     if negb underLimit then
       (lift (showError "Too many submissions. Please wait before trying again.") ;;
        ret false)
     else
       (contentOk <- lift checkMessageContent ;;
        if negb contentOk then
          (lift (showError "Message contains prohibited content.") ;; ret false)
        else ret true)).

Definition recordSubmission : M Tab unit :=
  submissions <- getSubmissionHistory ;;
  now <- lift (gets (fun p => nowRecord (env p))) ;;
  array <- arrayOf submissions ;;
  saveSubmissionHistory (array ++ [now]).

Definition validateForm : M Tab bool :=
  els <- lift (gets elements) ;;
  valid <- lift (validateEach (inputsOf els) true) ;;
  secure <- performSecurityChecks ;;
  ret (if secure then valid else false).

Definition handleFormSubmit : M Tab unit :=
  fs <- lift (gets formState) ;;
  if isSubmitting fs then ret tt
  else
    (valid <- validateForm ;;
     if negb valid then lift (showError "Please correct the errors above")
     else
       (lift (setSubmittingState true) ;;
        try_finally
          (try_catch
             (formData <- lift collectFormData ;;
              lift (sendEmail formData) ;;
              lift (storeMessage formData) ;;
              recordSubmission ;;
              lift (showSuccess "Message sent successfully! Thank you for reaching out.") ;;
              lift resetForm)
             (fun error =>
                lift (consoleError ("Form submission error: " ++ error)) ;;
                lift (showError "Failed to send message. Please try again later.")))
          (lift (setSubmittingState false)))).

(** [initializeRateLimiting]; [now] is what [Date.now()] reads when the
    page is loaded. *)
Definition initializeRateLimiting (now : Z) : M Tab unit :=
  stored <- getSubmissionHistory ;;
  let oneHourAgo := (now - 60 * 60 * 1000)%Z in
  array <- arrayOf stored ;;
  let submissions := filter (fun time => (oneHourAgo < time)%Z) array in
  saveSubmissionHistory submissions.

(** *** Readings *)

Definition after {A} (m : M Tab A) (t : Tab) : Tab := snd (m t).

Definition events {A} (m : M Tab A) (t : Tab) : list Event :=
  drop (length (log (page t))) (log (page (after m t))).

(** The history cannot be read as an array: the storage works and holds
    foreign text. *)
Definition unreadable (t : Tab) : bool :=
  foreign t && available (localStorage (page t)).




(** The page [p] with the text [null] stored under the rate-limit key. *)
Definition withForeignText (p : Page) : Tab := {| foreign := true; page := p |}.

(** The page [p] with the storage as [ContactForm] reads it. *)
Definition plain (p : Page) : Tab := {| foreign := false; page := p |}.

(** Fill the form and fire the [submit] event, one submission after the
    other. *)
Definition submit (s : FormReadings.Submission) (t : Tab) : Tab :=
  after handleFormSubmit {| foreign := foreign t; page := FormReadings.fill s (page t) |}.

Definition submitAll (subs : list FormReadings.Submission) (t : Tab) : Tab :=
  fold_left (fun q s => submit s q) subs t.

End StoredText.

(** ** The constraints of the table [contact_messages] (schema)

    The column types and [CHECK] constraints that the name and the
    e-mail address of a row have to meet to be inserted.  The table counts
    characters ([char_length], [VARCHAR(n)]) where the program counts
    UTF-16 code units ([.length]); the two agree on the values looked at
    here, which the patterns of the form keep within the Basic
    Multilingual Plane (letters, white space, apostrophe and hyphen for the
    name, ASCII for the address).  The subject and the message are free
    text, for which the two counts differ, and are left out.
    ([VARCHAR(n)] refuses a longer value unless the excess is made of
    spaces only; the values looked at here are trimmed, so the bound on the
    length is the whole condition.) *)

Module Schema.
Import Js.

(** Some full stop of [d] is neither its first nor its last character. *)
Definition dotInside (d : list ascii) : bool :=
  match d with
  | [] => false
  | _ :: d' => existsb (Ascii.eqb ".") (removelast d')
  end.

(** [email ~ '^[^@]+@[^@]+\.[^@]+$'] *)
Definition emailCheck (s : string) : bool :=
  match Re.splitOn "@" (chars s) with
  | [a; d] => (0 <? length a)%nat && dotInside d
  | _ => false
  end.

(** [name VARCHAR(50) NOT NULL CHECK (char_length(name) >= 2)] *)
Definition nameOk (s : string) : bool := (2 <=? len s)%nat && (len s <=? 50)%nat.

(** [email VARCHAR(100) NOT NULL CHECK (email ~ ...)] *)
Definition emailOk (s : string) : bool := emailCheck s && (len s <=? 100)%nat.

(** The part of an address after its first [@]. *)
Definition domainOf (s : string) : list ascii :=
  match Re.splitOn "@" (chars s) with
  | _ :: d :: _ => d
  | _ => []
  end.

End Schema.

(** ** Further readings of the client *)

Module SessionReadings.
Import Js SupabaseClient ClientReadings.
Local Open Scope list_scope.

(** What [getUserIP] answers when it is called in state [c]. *)
Definition lookedUp (c : Client) : string :=
  if faults c (calls c) then "unknown" else ip c.

(** The active rows of [blocked_ips] for the address [addr]. *)
Definition blockRows (addr : string) (c : Client) : list BlockedIp :=
  filter (fun r => b_ip_address r = addr /\ b_is_active r = true)
    (blocked_ips (db c)).

(** The failed attempts on record for [addr], not older than [since]. *)
Definition failedRows (addr : string) (since : Z) (c : Client) : list LoginAttempt :=
  filter (fun r => la_ip_address r = addr /\ la_success r = false
                   /\ (since <= la_created_at r)%Z)
    (login_attempts (db c)).

(** The client after [n] more requests and the events [evs]. *)
Definition logged (evs : list Event) (n : nat) (c : Client) : Client :=
  with_calls (n + calls c) (with_log (log c ++ evs) c).

Definition isSignIn (e : Event) : bool :=
  match e with AuthSignIn _ => true | _ => false end.

(** The requests that change a table of the store. *)
Definition isStoreWrite (e : Event) : bool :=
  match e with
  | InsertProject _ _ | UpdateProject _ _ _ | DeactivateProject _
  | InsertBlockedIp _ | InsertLoginAttempt _ | DeleteLoginAttempts _ => true
  | _ => false
  end.

(** The row that [blockIP] inserts. *)
Definition blockRow (addr : string) (t : Z) : BlockedIp :=
  {| b_ip_address := addr; b_reason := "Excessive failed login attempts";
     b_blocked_at := t; b_is_active := true |}.

(** The row that [recordFailedLogin] inserts. *)
Definition failedRow (addr agent : string) (t : Z) : LoginAttempt :=
  {| la_ip_address := addr; la_user_agent := agent; la_success := false;
     la_created_at := t |}.

(** No angle bracket in [s]. *)
Definition noAngle (s : string) : Prop :=
  Forall (fun c => isAngle c = false) (chars s).

(** The fields that a request to the table [projects] carries. *)
Definition carried (e : Event) : option ProjectFields :=
  match e with
  | InsertProject fields _ | UpdateProject _ fields _ => Some fields
  | _ => None
  end.

(** A project whose name comes with markup and padding. *)
Definition taggedProject : ProjectData :=
  {| d_name := Some "  <b>Shop</b> "; d_description := Some "An online shop <demo>";
     d_url := Some "https://shop.example.com"; d_image_url := None;
     d_technologies := None; d_category := None; d_is_featured := None |}.

(** Newest first. *)
Definition newerFirst (a b : Project) : Prop := (p_created_at b <= p_created_at a)%Z.

(** Credentials that do not open an admin session in [c]: the e-mail or
    the password is missing, or no account has them, or the membership
    query for the account does not yield exactly one active row. *)
Definition refusedCredentials (c : Client) (cr : Credentials) : Prop :=
  present (email cr) = false \/ present (password cr) = false
  \/ match findAccount (default "" (email cr)) (default "" (password cr)) (accounts c) with
     | None => True
     | Some a => single (adminRows (user_id (acc_user a)) c) = None
     end.

(** [c'] has the store, the accounts and the surroundings of [c]. *)
Definition sameStore (c c' : Client) : Prop :=
  faults c' = faults c /\ config c' = config c /\ accounts c' = accounts c
  /\ ip c' = ip c /\ userAgent c' = userAgent c /\ now c' = now c
  /\ db c' = db c.

(** Between [c] and [c'] one failed attempt of the address of [c] has been
    put on record, and nothing else has changed in the store, in the
    accounts or in the surroundings. *)
Definition recordsFailure (c c' : Client) : Prop :=
  faults c' = faults c /\ config c' = config c /\ accounts c' = accounts c
  /\ ip c' = ip c /\ userAgent c' = userAgent c /\ now c' = now c
  /\ projects (db c') = projects (db c)
  /\ admin_users (db c') = admin_users (db c)
  /\ blocked_ips (db c') = blocked_ips (db c)
  /\ login_attempts (db c')
     = login_attempts (db c) ++ [failedRow (ip c) (userAgent c) (now c)].

(** Since [c0], the only change to the store and the accounts is that
    the failed attempts [rows], all of the address of [c0] and none older
    than [start], have been put on record. *)
Definition lockProgress (c0 : Client) (start : Z) (rows : list LoginAttempt)
    (c : Client) : Prop :=
  reachable c /\ config c = config c0 /\ accounts c = accounts c0
  /\ ip c = ip c0
  /\ admin_users (db c) = admin_users (db c0)
  /\ blocked_ips (db c) = blocked_ips (db c0)
  /\ login_attempts (db c) = login_attempts (db c0) ++ rows
  /\ Forall (fun r => la_ip_address r = ip c0 /\ la_success r = false
                      /\ (start <= la_created_at r)%Z) rows.

(** No failed attempt of the address of [c] is on record. *)
Definition cleanRecord (c : Client) : Prop :=
  forall r, r ∈ login_attempts (db c) -> la_ip_address r = ip c -> la_success r = true.

(** Since the log had [n] entries, [e] has been logged. *)
Definition loggedSince (n : nat) (e : Event) (c : Client) : Prop :=
  e ∈ drop n (log c).

(** Alice's address with a wrong password. *)
Definition wrongLogin : Credentials :=
  {| email := Some "alice@example.com"; password := Some "guess" |}.

Definition threeWrong : list (Z * Credentials) :=
  [(5000%Z, wrongLogin); (6000%Z, wrongLogin); (7000%Z, wrongLogin)].

(** A store that does not answer the queries on [blocked_ips] and
    [login_attempts] of the next login (the second and the fourth
    request), as when its row-level security denies them. *)
Definition deniedQueries (c : Client) : Prop :=
  faults c (S (calls c)) = true /\ faults c (S (S (S (calls c)))) = true.

(** A login attempt at instant [t]. *)
Definition loginAt (t : Z) (cr : Credentials) (c : Client) : Client :=
  after (adminLogin cr) (with_now t c).

Definition loginsAt (attempts : list (Z * Credentials)) (c : Client) : Client :=
  fold_left (fun c a => loginAt (fst a) (snd a) c) attempts c.

(** One call of [verify2FACode] for each of [codes], in order. *)
Definition tryCodes (codes : list string) (c : Client) : Client :=
  fold_left (fun c code => after (verify2FACode code) c) codes c.

(** [m] throws nothing but what [P] allows. *)
Definition throwsOnly {A} (P : string -> Prop) (m : M Client A) : Prop :=
  forall c e c', m c = (Exn e, c') -> P e.

(** The two messages with which [adminLogin] turns a locked address away. *)
Definition isRefusal (e : string) : bool :=
  String.eqb e "Access denied: IP address is blocked"
  || String.eqb e "Too many failed attempts. IP address has been blocked.".

(** Alice's client once her address has been blocked, in front of a store
    that denies the two queries of the lockout. *)
Definition blockedClient : Client :=
  {| config := SUPABASE_CONFIG;
     db := {| projects := [demoProject];
              admin_users := [{| au_user_id := "u-alice"; au_is_active := true |}];
              blocked_ips := [blockRow "203.0.113.7" 1000];
              login_attempts := [failedRow "203.0.113.7" "Mozilla/5.0" 900] |};
     accounts := accounts demoClient;
     authUser := None;
     adminSession := None;
     now := 5000;
     ip := "203.0.113.7";
     userAgent := "Mozilla/5.0";
     entropy := "k3j9x0a1b";
     faults := fun n => (n =? 1)%nat || (n =? 3)%nat;
     calls := 0;
     log := [] |}.

End SessionReadings.

(** ** The client before it is created

    [supabaseClient] is [null] from the load of the script until
    [createSupabaseClient] has assigned it; [SupabaseClient] above describes
    the module from then on.  Here the handle is part of the state, and the
    two operations that use it without a precondition worth the name,
    [getProjects] and [adminLogout], are written out with it: reading a
    member of [null] throws a [TypeError]. *)

Module ClientHandle.
Import Js SupabaseClient.
Local Open Scope js_scope.
Local Open Scope list_scope.

Record Loaded := {
  hasClient : bool;                 (* supabaseClient !== null *)
  inner : Client }.

(** Code that does not touch the handle. *)
Definition lift {A} (m : M Client A) : M Loaded A :=
  fun s => (fst (m (inner s)),
            {| hasClient := hasClient s; inner := snd (m (inner s)) |}).

(** The [TypeError] for a member of [null]; the rest of its message
    depends on the engine and is not modelled. *)
Definition nullAccess : string := "TypeError: Cannot read properties of null".

(** A chain of calls that starts at [supabaseClient]. *)
Definition viaClient {A} (m : M Client A) : M Loaded A :=
  built <- gets hasClient ;;
  if built then lift m else throw nullAccess.

Definition getProjects (filters : Filters) : M Loaded (list Project) :=
  try_catch
    (viaClient
       (c <- gets (fun c => c) ;;
        ok <- request SelectProjects ;;
        if negb ok then throw storeError
        else ret (limited filters
                    (orderDesc (List.filter (selected filters) (projects (db c)))))))
    (fun error =>
       lift (consoleError ("Error fetching projects: " ++ error)) ;; ret []).

Definition adminLogout : M Loaded bool :=
  try_catch
    (s <- lift (gets adminSession) ;;
     match s with
     | Some session =>
         lift (invalidateAdminSession (s_id session)) ;;
         lift (modify (with_adminSession None))
     | None => ret tt
     end ;;
     viaClient signOut ;;
     lift (consoleLog "Admin logout successful") ;;
     ret true)
    (fun error =>
       lift (consoleError ("Admin logout failed: " ++ error)) ;; throw error).

(** The events that [m] adds to the log. *)
Definition events {A} (m : M Loaded A) (s : Loaded) : list Event :=
  drop (length (log (inner s))) (log (inner (snd (m s)))).

(** The module around the client [c], created or not. *)
Definition around (built : bool) (c : Client) : Loaded :=
  {| hasClient := built; inner := c |}.

End ClientHandle.

(** * Sanity checks of the embedding on concrete inputs *)

Example trim_ex : Js.trim "  Jo  " = "Jo".
Proof. reflexivity. Qed.
Example emailPattern_ex1 : Re.emailPattern "jo.doe@example.com" = true.
Proof. reflexivity. Qed.
Example emailPattern_ex2 : Re.emailPattern "jo@@example.com" = false.
Proof. reflexivity. Qed.
Example emailPattern_ex3 : Re.emailPattern "jo@example..com" = false.
Proof. reflexivity. Qed.
Example emailPattern_ex4 : Re.emailPattern "jo@-example.com" = false.
Proof. reflexivity. Qed.
Example emailPattern_ex5 : Re.emailPattern "@example.com" = false.
Proof. reflexivity. Qed.
Example spam_ex1 : Re.spamPattern "you are a winner!" = true.
Proof. reflexivity. Qed.
Example spam_ex2 : Re.spamPattern "winners all" = false.
Proof. reflexivity. Qed.
Example spam_ex3 : Re.spamPattern "please click here" = true.
Proof. reflexivity. Qed.
Example url_ex1 : Re.urlPattern "see http://x" = true.
Proof. reflexivity. Qed.
Example url_ex2 : Re.urlPattern "see https:// x" = false.
Proof. reflexivity. Qed.
Example url_ex3 : Re.urlPattern "see https://s" = true.
Proof. reflexivity. Qed.
Example run_ex1 : Re.runPattern "aaaaaaaaaa" = false.
Proof. reflexivity. Qed.
Example run_ex2 : Re.runPattern "aaaaaaaaaaa" = true.
Proof. reflexivity. Qed.
Example checkValue_ex1 :
  ContactForm.checkValue "subject"
    {| ContactForm.minLength := Some 5%nat; ContactForm.maxLength := Some 100%nat;
       ContactForm.pattern := None |} "Hi"
  = (false, "Subject must be at least 5 characters").
Proof. reflexivity. Qed.
Example checkValue_ex2 :
  ContactForm.checkValue "email"
    {| ContactForm.minLength := None; ContactForm.maxLength := None;
       ContactForm.pattern := Some Re.emailPattern |} "jo(at)example.com"
  = (false, "Please enter a valid email address").
Proof. reflexivity. Qed.
Example checkValue_ex3 :
  ContactForm.checkValue "name"
    {| ContactForm.minLength := Some 2%nat; ContactForm.maxLength := Some 50%nat;
       ContactForm.pattern := Some Re.namePattern |} ""
  = (false, "Name is required").
Proof. reflexivity. Qed.
Example content_ex1 : ContactForm.messageContentOk "You are a WINNER" = false.
Proof. reflexivity. Qed.
Example content_ex2 : ContactForm.messageContentOk "See HTTPS://example.com" = false.
Proof. reflexivity. Qed.
Example content_ex3 : ContactForm.messageContentOk "I would like to talk." = true.
Proof. reflexivity. Qed.
Example hasScheme_ex1 : UrlSyntax.hasScheme "https://example.com" = true.
Proof. reflexivity. Qed.
Example hasScheme_ex2 : UrlSyntax.hasScheme "not-a-url" = false.
Proof. reflexivity. Qed.
Example hasScheme_ex3 : UrlSyntax.hasScheme "  mailto:jo@example.com" = true.
Proof. reflexivity. Qed.
Example sanitizeString_ex :
  SupabaseClient.sanitizeString (Some "  <b>Portfolio</b> ") = "bPortfolio/b".
Proof. reflexivity. Qed.
Example orderDesc_ex :
  map SupabaseClient.p_created_at
    (SupabaseClient.orderDesc
       [ClientReadings.demoProject;
        SupabaseClient.deactivate 3000 ClientReadings.demoProject])
  = [1000%Z; 1000%Z].
Proof. reflexivity. Qed.
Example foreign_text_ex1 :
  StoredText.checkRateLimit (StoredText.withForeignText FormReadings.freshPage)
  = (Exn StoredText.typeError, StoredText.withForeignText FormReadings.freshPage).
Proof. reflexivity. Qed.
Example foreign_text_ex2 :
  result_of (StoredText.checkRateLimit (StoredText.plain FormReadings.freshPage))
  = Val true.
Proof. reflexivity. Qed.
Example foreign_text_ex3 :
  result_of
    (StoredText.handleFormSubmit
       (StoredText.withForeignText
          (FormReadings.fill (FormReadings.fromBot 0) FormReadings.freshPage)))
  = Val tt.
Proof. vm_compute. reflexivity. Qed.
Example no_client_ex1 :
  result_of
    (ClientHandle.getProjects SupabaseClient.noFilters
       (ClientHandle.around false ClientReadings.demoClient))
  = Val [].
Proof. reflexivity. Qed.
Example no_client_ex2 :
  result_of
    (ClientHandle.getProjects SupabaseClient.noFilters
       (ClientHandle.around true ClientReadings.demoClient))
  = Val [ClientReadings.demoProject].
Proof. reflexivity. Qed.
Example no_client_ex3 :
  result_of (ClientHandle.adminLogout (ClientHandle.around false ClientReadings.demoClient))
  = Exn ClientHandle.nullAccess.
Proof. reflexivity. Qed.
Example no_client_ex4 :
  result_of (ClientHandle.adminLogout (ClientHandle.around true ClientReadings.demoClient))
  = Val true.
Proof. reflexivity. Qed.

(** * Properties of the contact form *)

Module FormProofs.
Import Js ContactForm FormReadings.
Local Open Scope js_scope.
Local Open Scope list_scope.

(** ** Projections of an updated page *)

Lemma elements_with_elements x p : elements (with_elements x p) = x.
Proof. reflexivity. Qed.
Lemma formState_with_elements x p : formState (with_elements x p) = formState p.
Proof. reflexivity. Qed.
Lemma localStorage_with_elements x p : localStorage (with_elements x p) = localStorage p.
Proof. reflexivity. Qed.
Lemma config_with_elements x p : config (with_elements x p) = config p.
Proof. reflexivity. Qed.
Lemma env_with_elements x p : env (with_elements x p) = env p.
Proof. reflexivity. Qed.
Lemma log_with_elements x p : log (with_elements x p) = log p.
Proof. reflexivity. Qed.
Lemma elements_with_formState x p : elements (with_formState x p) = elements p.
Proof. reflexivity. Qed.
Lemma formState_with_formState x p : formState (with_formState x p) = x.
Proof. reflexivity. Qed.
Lemma localStorage_with_formState x p : localStorage (with_formState x p) = localStorage p.
Proof. reflexivity. Qed.
Lemma config_with_formState x p : config (with_formState x p) = config p.
Proof. reflexivity. Qed.
Lemma env_with_formState x p : env (with_formState x p) = env p.
Proof. reflexivity. Qed.
Lemma log_with_formState x p : log (with_formState x p) = log p.
Proof. reflexivity. Qed.
Lemma elements_with_localStorage x p : elements (with_localStorage x p) = elements p.
Proof. reflexivity. Qed.
Lemma formState_with_localStorage x p : formState (with_localStorage x p) = formState p.
Proof. reflexivity. Qed.
Lemma localStorage_with_localStorage x p : localStorage (with_localStorage x p) = x.
Proof. reflexivity. Qed.
Lemma config_with_localStorage x p : config (with_localStorage x p) = config p.
Proof. reflexivity. Qed.
Lemma env_with_localStorage x p : env (with_localStorage x p) = env p.
Proof. reflexivity. Qed.
Lemma log_with_localStorage x p : log (with_localStorage x p) = log p.
Proof. reflexivity. Qed.
Lemma elements_with_env x p : elements (with_env x p) = elements p.
Proof. reflexivity. Qed.
Lemma formState_with_env x p : formState (with_env x p) = formState p.
Proof. reflexivity. Qed.
Lemma localStorage_with_env x p : localStorage (with_env x p) = localStorage p.
Proof. reflexivity. Qed.
Lemma config_with_env x p : config (with_env x p) = config p.
Proof. reflexivity. Qed.
Lemma env_with_env x p : env (with_env x p) = x.
Proof. reflexivity. Qed.
Lemma log_with_env x p : log (with_env x p) = log p.
Proof. reflexivity. Qed.
Lemma elements_with_log x p : elements (with_log x p) = elements p.
Proof. reflexivity. Qed.
Lemma formState_with_log x p : formState (with_log x p) = formState p.
Proof. reflexivity. Qed.
Lemma localStorage_with_log x p : localStorage (with_log x p) = localStorage p.
Proof. reflexivity. Qed.
Lemma config_with_log x p : config (with_log x p) = config p.
Proof. reflexivity. Qed.
Lemma env_with_log x p : env (with_log x p) = env p.
Proof. reflexivity. Qed.
Lemma log_with_log x p : log (with_log x p) = x.
Proof. reflexivity. Qed.

Create Rewrite HintDb page.
#[local] Hint Rewrite elements_with_elements formState_with_elements localStorage_with_elements config_with_elements
  env_with_elements log_with_elements elements_with_formState formState_with_formState
  localStorage_with_formState config_with_formState env_with_formState log_with_formState
  elements_with_localStorage formState_with_localStorage localStorage_with_localStorage config_with_localStorage
  env_with_localStorage log_with_localStorage elements_with_env formState_with_env
  localStorage_with_env config_with_env env_with_env log_with_env
  elements_with_log formState_with_log localStorage_with_log config_with_log
  env_with_log log_with_log : page.

Lemma page_ext p q :
  elements p = elements q -> formState p = formState q ->
  localStorage p = localStorage q -> config p = config q ->
  env p = env q -> log p = log q -> p = q.
Proof. destruct p, q; simpl; congruence. Qed.

(** ** Running the validation *)

Lemma revalidated_twice errs v evs errs' v' evs' p :
  revalidated errs' v' evs' (revalidated errs v evs p)
  = revalidated errs' v' (evs ++ evs') p.
Proof.
  unfold revalidated, with_log, with_formState; simpl.
  by rewrite app_assoc.
Qed.

Lemma revalidated_self p :
  revalidated (validationErrors (formState p)) (isValid (formState p)) [] p = p.
Proof.
  destruct p as [els [sub errs v] st cfg e l].
  unfold revalidated, with_log, with_formState; simpl.
  by rewrite app_nil_r.
Qed.

Lemma validateField_run field p :
  exists errs v,
    validateField field p
    = (Val (fieldValid (config p) field),
       revalidated errs v (fieldMarks (config p) field) p).
Proof.
  unfold validateField, fieldValid, fieldMarks, fieldChecked, bind, gets, ret.
  destruct (negb (truthy (in_name field)) || _).
  - eexists _, _. by rewrite revalidated_self.
  - destruct (validation (config p) !! in_name field) as [r|].
    + eexists _, _. reflexivity.
    + eexists _, _. by rewrite revalidated_self.
Qed.

Lemma validateEach_run fields : forall valid p,
  exists errs v,
    validateEach fields valid p
    = (Val (valid && forallb (fieldValid (config p)) fields),
       revalidated errs v (flat_map (fieldMarks (config p)) fields) p).
Proof.
  induction fields as [|f fields IH]; intros valid p; simpl.
  - exists (validationErrors (formState p)), (isValid (formState p)).
    unfold ret. by rewrite revalidated_self, andb_true_r.
  - destruct (validateField_run f p) as (errs & v & Hf).
    unfold bind at 1. rewrite Hf.
    destruct (IH (if fieldValid (config p) f then valid else false)
                 (revalidated errs v (fieldMarks (config p) f) p))
      as (errs' & v' & ->).
    exists errs', v'. rewrite revalidated_twice. f_equal.
    f_equal. simpl. destruct (fieldValid (config p) f), valid; reflexivity.
Qed.

Lemma getSubmissionHistory_run p :
  getSubmissionHistory p = (Val (history p), p).
Proof. reflexivity. Qed.

Lemma saveSubmissionHistory_run h p :
  saveSubmissionHistory h p
  = if available (localStorage p)
    then (Val tt, with_localStorage
                    {| available := true;
                       items := <[rateLimitKey (security (config p)) := h]>
                                (items (localStorage p)) |} p)
    else (Val tt, with_log (log p ++ [cannotSave]) p).
Proof.
  unfold saveSubmissionHistory, bind, gets; simpl.
  destruct (available (localStorage p)); reflexivity.
Qed.

Lemma performSecurityChecks_run p :
  performSecurityChecks p
  = (Val (securityOk p),
     with_log (log p ++ securityEvents p)
       (with_localStorage (checkedStorage p) p)).
Proof.
  destruct p as [els fs [av its] cfg e l].
  unfold performSecurityChecks, securityOk, securityEvents, checkedStorage,
    underLimit, checkRateLimit, checkMessageContent, getSubmissionHistory,
    saveSubmissionHistory, recent, history, bind, gets; simpl.
  destruct (honeypotFilled els); [reflexivity|].
  destruct av; simpl;
    destruct (_ <? _)%nat; simpl;
    try destruct (messageContentOk _); simpl;
    unfold ret, with_log, with_localStorage; simpl;
    rewrite <- ?app_assoc, ?app_nil_r; reflexivity.
Qed.

(** Validation leaves alone everything the security checks read. *)
Lemma securityOk_revalidated errs v evs p :
  securityOk (revalidated errs v evs p) = securityOk p.
Proof. reflexivity. Qed.

Lemma securityEvents_revalidated errs v evs p :
  securityEvents (revalidated errs v evs p) = securityEvents p.
Proof. reflexivity. Qed.

Lemma checkedStorage_revalidated errs v evs p :
  checkedStorage (revalidated errs v evs p) = checkedStorage p.
Proof. reflexivity. Qed.

Lemma revalidated_checked errs v evs evs' st p :
  with_log (log (revalidated errs v evs p) ++ evs')
    (with_localStorage st (revalidated errs v evs p))
  = revalidated errs v (evs ++ evs') (with_localStorage st p).
Proof.
  unfold revalidated, with_log, with_localStorage, with_formState; simpl.
  by rewrite app_assoc.
Qed.

Lemma validateForm_run p :
  exists errs v,
    validateForm p
    = (Val (allValid (config p) (elements p) && securityOk p),
       revalidated errs v (allMarks (config p) (elements p) ++ securityEvents p)
         (with_localStorage (checkedStorage p) p)).
Proof.
  unfold validateForm, bind at 1, gets at 1.
  destruct (validateEach_run (inputsOf (elements p)) true p) as (errs & v & Hv).
  unfold bind at 1. rewrite Hv.
  unfold bind. rewrite performSecurityChecks_run.
  rewrite securityOk_revalidated, securityEvents_revalidated,
    checkedStorage_revalidated, revalidated_checked.
  exists errs, v. unfold ret, allValid, allMarks.
  destruct (securityOk p), (forallb _ _); reflexivity.
Qed.

(** ** Running a submission *)

Lemma handleFormSubmit_busy p :
  isSubmitting (formState p) = true ->
  handleFormSubmit p = (Val tt, p).
Proof.
  intros H. unfold handleFormSubmit, bind, gets. by rewrite H.
Qed.

Lemma handleFormSubmit_rejected p :
  isSubmitting (formState p) = false ->
  allValid (config p) (elements p) && securityOk p = false ->
  exists errs v,
    handleFormSubmit p
    = (Val tt,
       revalidated errs v
         (allMarks (config p) (elements p) ++ securityEvents p ++ [pleaseCorrect])
         (with_localStorage (checkedStorage p) p)).
Proof.
  intros Hs Hv.
  destruct (validateForm_run p) as (errs & v & Hvf).
  exists errs, v.
  unfold handleFormSubmit, bind at 1, gets at 1. rewrite Hs.
  unfold bind at 1. rewrite Hvf, Hv. cbn [negb].
  unfold showError, emit, modify.
  unfold revalidated, with_log, with_formState, with_localStorage; simpl.
  by rewrite <- !app_assoc.
Qed.

Lemma handleFormSubmit_mail_failed p msg :
  isSubmitting (formState p) = false ->
  allValid (config p) (elements p) && securityOk p = true ->
  mailFailure p = Some msg ->
  exists errs v,
    handleFormSubmit p
    = (Val tt,
       revalidated errs v
         (allMarks (config p) (elements p) ++ securityEvents p ++ mailEvents p
          ++ [ConsoleError ("Form submission error: " +:+ msg); sendFailed])
         (with_localStorage (checkedStorage p) p)).
Proof.
  intros Hs Hv Hm.
  destruct (validateForm_run p) as (errs & v & Hvf).
  exists errs, v.
  unfold handleFormSubmit, bind at 1, gets at 1. rewrite Hs.
  unfold bind at 1. rewrite Hvf, Hv. cbn [negb].
  destruct p as [els [sub errs0 v0] st cfg e l]. simpl in Hs. subst sub.
  unfold mailFailure in Hm. unfold mailEvents. simpl in Hm |- *.
  unfold try_finally, try_catch, setSubmittingState, collectFormData,
    sendEmail, consoleError, showError, emit.
  unfold bind, gets, ret, modify, throw; simpl.
  destruct (emailjs e) as [|err|status]; simpl.
  - inversion Hm; subst msg. unfold revalidated, with_log, with_formState; simpl.
    rewrite <- ?app_assoc; reflexivity.
  - inversion Hm; subst msg. unfold revalidated, with_log, with_formState; simpl.
    rewrite <- ?app_assoc; reflexivity.
  - destruct (status =? 200)%Z; [discriminate|]. simpl.
    inversion Hm; subst msg. unfold revalidated, with_log, with_formState; simpl.
    rewrite <- ?app_assoc; reflexivity.
Qed.

(** Reduce the projections of an updated page, and nothing else. *)
Ltac page_simpl :=
  unfold with_elements, with_formState, with_localStorage, with_env, with_log;
  cbn [elements formState localStorage config env log isSubmitting
       validationErrors isValid available items fst snd].

Lemma sendEmail_ok fd q :
  emailjs (env q) = EmailJsResponds 200 ->
  sendEmail fd q = (Val tt, with_log (log q ++ [EmailSend (templateOf fd)]) q).
Proof.
  intros H. unfold sendEmail, bind at 1, gets at 1. rewrite H.
  reflexivity.
Qed.

Lemma with_log_same q : with_log (log q) q = q.
Proof. by destruct q. Qed.

Lemma storeMessage_run fd q :
  storeMessage fd q
  = (Val tt, with_log (log q ++ storeEventsFor fd (supabase (env q))) q).
Proof.
  unfold storeMessage, bind at 1, gets at 1.
  destruct (supabase (env q)) as [|err|err|[err|]]; simpl storeEventsFor.
  - by rewrite app_nil_r, with_log_same.
  - reflexivity.
  - unfold bind, emit, consoleWarn, emit, modify. page_simpl.
    by rewrite <- app_assoc.
  - unfold bind, emit, consoleWarn, emit, modify. page_simpl.
    by rewrite <- app_assoc.
  - reflexivity.
Qed.

Lemma recordSubmission_run q :
  recordSubmission q
  = (Val tt,
     with_log (log q ++ if available (localStorage q) then [] else [cannotSave])
       (with_localStorage (recordedStorage q) q)).
Proof.
  unfold recordSubmission, bind at 1. rewrite getSubmissionHistory_run.
  unfold bind at 1, gets at 1. rewrite saveSubmissionHistory_run.
  unfold recordedStorage.
  destruct q as [els fs [av its] cfg e l]. page_simpl.
  destruct av; page_simpl; by rewrite ?app_nil_r.
Qed.

Lemma available_checkedStorage p :
  available (checkedStorage p) = available (localStorage p).
Proof.
  unfold checkedStorage.
  destruct (honeypotFilled _); [reflexivity|].
  by destruct (available (localStorage p)) eqn:E.
Qed.

Lemma recordedStorage_ext q q' :
  localStorage q = localStorage q' -> config q = config q' -> env q = env q' ->
  recordedStorage q = recordedStorage q'.
Proof.
  intros H1 H2 H3. unfold recordedStorage, history. by rewrite H1, H2, H3.
Qed.

Lemma resetForm_run q :
  resetForm q
  = (Val tt,
     with_formState {| isSubmitting := isSubmitting (formState q);
                       validationErrors := ∅; isValid := true |}
       (with_elements (blankElements (elements q)) q)).
Proof.
  unfold resetForm, updateFormValidity, bind, modify. page_simpl.
  rewrite map_size_empty. reflexivity.
Qed.

Lemma bind_run {S A B} (m : M S A) (k : A -> M S B) s a s' :
  m s = (Val a, s') -> bind m k s = k a s'.
Proof. intros H. unfold bind. by rewrite H. Qed.

Lemma handleFormSubmit_sent p :
  isSubmitting (formState p) = false ->
  allValid (config p) (elements p) && securityOk p = true ->
  mailFailure p = None ->
  handleFormSubmit p = (Val tt, sentPage p).
Proof.
  intros Hs Hv Hm.
  destruct (validateForm_run p) as (errs & v & Hvf).
  assert (Hmail : emailjs (env p) = EmailJsResponds 200).
  { unfold mailFailure in Hm. destruct (emailjs (env p)); try discriminate.
    destruct (status =? 200)%Z eqn:E; [|discriminate].
    apply Z.eqb_eq in E. by subst. }
  unfold handleFormSubmit.
  erewrite bind_run by reflexivity. rewrite Hs.
  erewrite bind_run by exact Hvf. rewrite Hv. cbn [negb].
  clear Hvf Hv.
  erewrite bind_run by reflexivity.
  unfold try_finally, try_catch.
  erewrite bind_run by reflexivity.
  erewrite bind_run by (apply sendEmail_ok; exact Hmail).
  erewrite bind_run by apply storeMessage_run.
  erewrite bind_run by apply recordSubmission_run.
  erewrite bind_run by reflexivity.
  rewrite resetForm_run.
  unfold setSubmittingState, modify, revalidated.
  f_equal. apply page_ext; autorewrite with page; unfold sentPage;
    cbn [elements formState localStorage config env log isSubmitting
         validationErrors isValid];
    [reflexivity | reflexivity | | reflexivity | reflexivity | ].
  { apply recordedStorage_ext; autorewrite with page; reflexivity. }
  unfold mailEvents, storeEvents, formDataOf. rewrite Hmail.
  rewrite available_checkedStorage.
  rewrite <- !app_assoc. do 4 f_equal.
  all: try (destruct (supabase (env p)) as [|err|err|[err|]]; reflexivity).
Qed.

(** ** Reading the log *)

Lemma events_of {A} (m : M Page A) p r p' evs :
  m p = (r, p') -> log p' = log p ++ evs -> events m p = evs.
Proof.
  intros Hm Hl. unfold events, after. rewrite Hm; simpl.
  rewrite Hl. apply drop_app_length.
Qed.

Lemma fieldMarks_are_marks cfg f :
  Forall (fun e => isFieldMark e = true) (fieldMarks cfg f).
Proof.
  unfold fieldMarks. destruct (fieldChecked cfg f); repeat constructor.
Qed.

Lemma allMarks_are_marks cfg els :
  Forall (fun e => isFieldMark e = true) (allMarks cfg els).
Proof.
  unfold allMarks. induction (inputsOf els) as [|f fs IH]; simpl.
  - constructor.
  - apply Forall_app. split; [apply fieldMarks_are_marks | exact IH].
Qed.

Lemma marks_are_no_calls evs :
  Forall (fun e => isFieldMark e = true) evs ->
  Forall (fun e => isCollaboratorCall e = false) evs.
Proof.
  intros H. eapply Forall_impl; [exact H|].
  intros [] E; try discriminate; reflexivity.
Qed.

Lemma securityOk_honeypot p :
  honeypotFilled (elements p) = true -> securityOk p = false.
Proof. intros H. unfold securityOk. by rewrite H. Qed.

(** Replace the events of a run on a concrete page by their value. *)
Ltac compute_events :=
  match goal with
  | |- context [events ?m ?p] =>
      let v := eval vm_compute in (events m p) in
      replace (events m p) with v by (vm_compute; reflexivity)
  end.

(** ** The honeypot *)

(** The rejection is silent about its cause, not invisible: a submission
    with a filled honeypot does not go without any notification, the
    submit handler shows the generic "Please correct the errors above". *)
Lemma honeypot_rejection_is_notified :
  honeypotFilled (elements (fill (fromBot 0) freshPage)) = true /\
  ~ silently (events handleFormSubmit (fill (fromBot 0) freshPage)).
Proof.
  split; [reflexivity|].
  intros H. unfold silently in H.
  apply (Forall_lookup_1 _ _ 5%nat pleaseCorrect) in H; [discriminate|].
  vm_compute. reflexivity.
Qed.

(** C1: for every page whose honeypot field holds a non-empty string,
    the submit handler rejects the submission: it calls neither the mail
    service nor the store and leaves the local storage (the rate-limit
    history) untouched.  The submission is dropped silently in the sense
    the specification gives to rejections: nothing tells the sender that
    the honeypot was the cause; the handler marks the visible fields,
    warns on the console only and shows the generic notification
    "Please correct the errors above" (and does nothing at all when a
    submission is already in flight). *)
Theorem honeypot_blocks_collaborators p :
  honeypotFilled (elements p) = true ->
  Forall (fun e => isCollaboratorCall e = false) (events handleFormSubmit p)
  /\ localStorage (after handleFormSubmit p) = localStorage p
  /\ elements (after handleFormSubmit p) = elements p
  /\ events handleFormSubmit p
     = if isSubmitting (formState p) then []
       else allMarks (config p) (elements p) ++ [botDetected; pleaseCorrect].
Proof.
  intros Hh.
  destruct (isSubmitting (formState p)) eqn:Hs.
  - pose proof (handleFormSubmit_busy p Hs) as Hr.
    rewrite (events_of _ _ _ _ [] Hr) by (by rewrite app_nil_r).
    unfold after. rewrite Hr. repeat split; constructor.
  - destruct (handleFormSubmit_rejected p Hs) as (errs & v & Hr).
    { rewrite (securityOk_honeypot p Hh). apply andb_false_r. }
    assert (Hsec : securityEvents p = [botDetected])
      by (unfold securityEvents; by rewrite Hh).
    assert (Hst : checkedStorage p = localStorage p)
      by (unfold checkedStorage; by rewrite Hh).
    rewrite Hsec, Hst in Hr.
    rewrite (events_of _ _ _ _ _ Hr eq_refl).
    unfold after. rewrite Hr. repeat split.
    apply Forall_app. split.
    + apply marks_are_no_calls, allMarks_are_marks.
    + repeat constructor.
Qed.

Lemma honeypot_blocks_collaborators_witness :
  honeypotFilled (elements (fill (fromBot 0) freshPage)) = true /\
  events handleFormSubmit (fill (fromBot 0) freshPage)
  = [FieldMark "name" true ""; FieldMark "email" true "";
     FieldMark "subject" true ""; FieldMark "message" true "";
     botDetected; pleaseCorrect].
Proof.
  split; [reflexivity|].
  destruct (honeypot_blocks_collaborators (fill (fromBot 0) freshPage) eq_refl)
    as (_ & _ & _ & ->).
  vm_compute. reflexivity.
Defined.

(** ** Order of the checks *)

Lemma precedes_app A B (xs ys : list Event) :
  Forall (fun e => B e = false) xs ->
  Forall (fun e => A e = false) ys ->
  precedes A B (xs ++ ys).
Proof.
  intros Hx Hy i j a b Hi Hj Ha Hb.
  rewrite Forall_forall in Hx. rewrite Forall_forall in Hy.
  destruct (decide (j < length xs)%nat) as [Hlt|Hge].
  - rewrite lookup_app_l in Hj by done.
    apply list_elem_of_lookup_2, Hx in Hj. congruence.
  - destruct (decide (i < length xs)%nat) as [Hlt'|Hge']; [lia|].
    rewrite lookup_app_r in Hi by lia.
    apply list_elem_of_lookup_2, Hy in Hi. congruence.
Qed.

(** C5, as stated, fails: with a filled honeypot the four field
    validations have already left their marks when the honeypot check
    (the first check of the order claimed) reports the bot. *)
Lemma field_validation_is_not_last :
  ~ precedes isSecurityEvent isFieldMark
      (events validateForm (fill (fromBot 0) freshPage)).
Proof.
  intros H.
  specialize (H 4%nat 0%nat botDetected (FieldMark "name" true "")
                eq_refl eq_refl eq_refl eq_refl).
  lia.
Qed.

(** C5, amended: for every page, [validateForm] first validates the
    fields (name, e-mail, subject, message, in this order, whatever the
    security checks will say) and only then runs the security checks, in
    the order honeypot, rate limit, content: a filled honeypot ends the
    checks with a console warning and without touching the stored history;
    otherwise the rate limiter writes the recent part of the history back
    and, over the limit, ends the checks with its notification; otherwise
    the content check decides.  The form is valid when all fields are
    valid and all three security checks pass. *)
Theorem validateForm_fields_then_security p :
  result_of (validateForm p)
  = Val (allValid (config p) (elements p)
         && (negb (honeypotFilled (elements p)) && underLimit p
             && messageContentOk (in_value (messageField (elements p)))))
  /\ events validateForm p
     = flat_map (fieldMarks (config p))
         ([nameField (elements p); emailField (elements p);
           subjectField (elements p); messageField (elements p)]
          ++ match honeypot (elements p) with Some h => [h] | None => [] end)
       ++ (if honeypotFilled (elements p) then [botDetected]
           else (if available (localStorage p) then [] else [cannotSave])
                ++ (if negb (underLimit p) then [tooMany]
                    else if negb (messageContentOk
                                    (in_value (messageField (elements p))))
                         then [prohibited] else []))
  /\ localStorage (after validateForm p)
     = (if honeypotFilled (elements p) then localStorage p
        else if available (localStorage p) then
          {| available := true;
             items := <[rateLimitKey (security (config p))
                        := recent (nowCheck (env p)) (history p)]>
                      (items (localStorage p)) |}
        else localStorage p)
  /\ precedes isFieldMark isSecurityEvent (events validateForm p).
Proof.
  destruct (validateForm_run p) as (errs & v & Hr).
  pose proof (events_of _ _ _ _ _ Hr eq_refl) as He.
  unfold result_of, after. rewrite He, Hr. simpl.
  repeat split.
  apply precedes_app.
  - eapply Forall_impl; [apply allMarks_are_marks|].
    intros [] H; try discriminate; reflexivity.
  - unfold securityEvents.
    repeat (match goal with |- context [if ?b then _ else _] => destruct b end);
      repeat constructor.
Qed.

(** ** Mail is essential, storage is best effort *)

Lemma marks_are_no (P : Event -> bool) evs :
  (forall n ok m, P (FieldMark n ok m) = false) ->
  Forall (fun e => isFieldMark e = true) evs ->
  Forall (fun e => P e = false) evs.
Proof.
  intros HP H. eapply Forall_impl; [exact H|].
  intros [] E; try discriminate. apply HP.
Qed.

Lemma securityEvents_ok p :
  securityOk p = true ->
  securityEvents p = if available (localStorage p) then [] else [cannotSave].
Proof.
  unfold securityOk, securityEvents. intros H.
  apply andb_prop in H as [H Hc]. apply andb_prop in H as [Hh Hu].
  apply negb_true_iff in Hh. rewrite Hh, Hu, Hc. simpl. apply app_nil_r.
Qed.

(** C8: for every accepted submission (not already in flight, all fields
    valid, all security checks passed) to which the mail service answers
    with a status, whatever the store then does: a status other than 200
    makes the submission fail (error notification, no success
    notification, the store is never called, nothing is recorded, the
    fields keep their values); with status 200 the submission succeeds
    (mail sent, success notification, no error notification, submission
    recorded, form reset) and the resulting form, form state and local
    storage do not depend on what the store did. *)
Theorem mail_failure_is_fatal_store_failure_is_not p sb status :
  isSubmitting (formState p) = false ->
  allValid (config p) (elements p) && securityOk p = true ->
  emailjs (env p) = EmailJsResponds status ->
  let q := withStore sb p in
  let evs := events handleFormSubmit q in
  if (status =? 200)%Z then
    EmailSend (templateOf (formDataOf p)) ∈ evs
    /\ sentOk ∈ evs
    /\ Forall (fun e => isErrorNote e = false) evs
    /\ elements (after handleFormSubmit q) = blankElements (elements p)
    /\ formState (after handleFormSubmit q)
       = {| isSubmitting := false; validationErrors := ∅; isValid := true |}
    /\ localStorage (after handleFormSubmit q)
       = recordedStorage (with_localStorage (checkedStorage p) p)
  else
    sendFailed ∈ evs
    /\ Forall (fun e => isSuccessNote e = false) evs
    /\ Forall (fun e => isDbInsert e = false) evs
    /\ elements (after handleFormSubmit q) = elements p
    /\ localStorage (after handleFormSubmit q) = checkedStorage p.
Proof.
  intros Hs Hv Hm q evs.
  assert (Hsq : isSubmitting (formState q) = false) by exact Hs.
  assert (Hvq : allValid (config q) (elements q) && securityOk q = true) by exact Hv.
  assert (Hsec : securityEvents q
                 = if available (localStorage p) then [] else [cannotSave]).
  { apply (securityEvents_ok q). apply andb_prop in Hvq. tauto. }
  assert (Hme : mailEvents q = [EmailSend (templateOf (formDataOf p))]).
  { unfold mailEvents. change (emailjs (env q)) with (emailjs (env p)).
    by rewrite Hm. }
  assert (Hmarks : forall P, (forall n ok m, P (FieldMark n ok m) = false) ->
            Forall (fun e => P e = false) (allMarks (config q) (elements q))).
  { intros P HP. apply marks_are_no; [exact HP | apply allMarks_are_marks]. }
  assert (Hsave : forall P, P cannotSave = false ->
            Forall (fun e => P e = false)
              (if available (localStorage p) then [] else [cannotSave])).
  { intros P HP. destruct (available _); repeat constructor. exact HP. }
  destruct (status =? 200)%Z eqn:Hst.
  - assert (Hmq : mailFailure q = None).
    { unfold mailFailure. change (emailjs (env q)) with (emailjs (env p)).
      by rewrite Hm, Hst. }
    pose proof (handleFormSubmit_sent q Hsq Hvq Hmq) as Hr.
    pose proof (events_of _ _ _ _ _ Hr eq_refl) as He.
    subst evs. unfold after. rewrite He, Hr. cbn [snd].
    rewrite Hsec, Hme.
    change (available (localStorage q)) with (available (localStorage p)).
    split; [|split; [|split; [|split; [|split]]]]; try reflexivity.
    + rewrite !elem_of_app. right. right. left. constructor.
    + rewrite !elem_of_app. do 5 right. constructor.
    + repeat (first [by apply Hmarks | by apply Hsave | apply Forall_app; split]);
        try (unfold storeEvents; destruct (supabase (env q)) as [| | |[|]]);
        repeat constructor.
  - assert (Hmq : mailFailure q = Some ("EmailJS failed: " +:+ ofZ status)).
    { unfold mailFailure. change (emailjs (env q)) with (emailjs (env p)).
      by rewrite Hm, Hst. }
    destruct (handleFormSubmit_mail_failed q _ Hsq Hvq Hmq) as (errs & v & Hr).
    pose proof (events_of _ _ _ _ _ Hr eq_refl) as He.
    subst evs. unfold after. rewrite He, Hr. cbn [snd].
    rewrite Hsec, Hme.
    split; [|split; [|split; [|split]]]; try reflexivity.
    + rewrite !elem_of_app. do 3 right. right. constructor.
    + repeat (first [by apply Hmarks | by apply Hsave | apply Forall_app; split]);
        repeat constructor.
    + repeat (first [by apply Hmarks | by apply Hsave | apply Forall_app; split]);
        repeat constructor.
Qed.

Lemma mail_failure_is_fatal_store_failure_is_not_witness :
  let p := fill (fromJo 0) freshPage in
  let q := withStore (SupabaseRejects "Failed to fetch") p in
  isSubmitting (formState p) = false
  /\ allValid (config p) (elements p) && securityOk p = true
  /\ emailjs (env p) = EmailJsResponds 200
  /\ sentOk ∈ events handleFormSubmit q
  /\ localStorage (after handleFormSubmit q)
     = recordedStorage (with_localStorage (checkedStorage p) p).
Proof.
  intros p q.
  pose proof (mail_failure_is_fatal_store_failure_is_not p
                (SupabaseRejects "Failed to fetch") 200 eq_refl eq_refl eq_refl)
    as H.
  cbv zeta in H. change (200 =? 200)%Z with true in H. cbv iota in H.
  destruct H as (_ & Hok & _ & _ & _ & Hst).
  split; [reflexivity|]. split; [reflexivity|]. split; [reflexivity|].
  split; [exact Hok | exact Hst].
Defined.

(** ** The minimum length of the name *)

Lemma securityEvents_no_calls p :
  Forall (fun e => isCollaboratorCall e = false) (securityEvents p).
Proof.
  unfold securityEvents.
  repeat (match goal with |- context [if ?b then _ else _] => destruct b end);
    repeat constructor.
Qed.

(** C9, as stated, fails: the name "Jo" has two characters, which is the
    minimum; it is marked valid, no error is attached to it, and the
    message is sent. *)
Lemma jo_is_long_enough :
  let evs := events handleFormSubmit (fill (fromJo 0) freshPage) in
  (FieldMark "name" true "" ∈ evs)
  /\ (FieldMark "name" false "Name must be at least 2 characters" ∉ evs)
  /\ Exists (fun e => isEmailSend e = true) evs.
Proof.
  intros evs. subst evs. compute_events.
  rewrite !list_elem_of_In. split; [|split].
  - simpl. tauto.
  - simpl. intros H. repeat (destruct H as [H|H]; [discriminate|]). exact H.
  - do 4 apply Exists_cons_tl. apply Exists_cons_hd. reflexivity.
Qed.

(** C9, amended: under the default configuration, a submission whose
    name, once trimmed, has exactly one character (one under the minimum
    of two, such as "J") is rejected with the field error "Name must be at
    least 2 characters", and neither the mail service nor the store is
    called. *)
Theorem one_character_name_is_rejected p :
  config p = CONFIG ->
  isSubmitting (formState p) = false ->
  in_name (nameField (elements p)) = "name" ->
  len (trim (in_value (nameField (elements p)))) = 1%nat ->
  FieldMark "name" false "Name must be at least 2 characters"
    ∈ events handleFormSubmit p
  /\ pleaseCorrect ∈ events handleFormSubmit p
  /\ Forall (fun e => isCollaboratorCall e = false) (events handleFormSubmit p).
Proof.
  intros Hc Hs Hn Hl.
  assert (Hchk : fieldChecked (config p) (nameField (elements p))
                 = Some (false, "Name must be at least 2 characters")).
  { unfold fieldChecked. rewrite Hc, Hn.
    change (validation CONFIG !! "name")
      with (Some {| minLength := Some 2%nat; maxLength := Some 50%nat;
                    pattern := Some Re.namePattern |}).
    simpl. unfold checkValue, tooShort. simpl.
    destruct (trim _) as [|c [|c' rest]]; simpl in Hl; try discriminate.
    reflexivity. }
  assert (Hv : allValid (config p) (elements p) && securityOk p = false).
  { unfold allValid, inputsOf. simpl. unfold fieldValid at 1. by rewrite Hchk. }
  destruct (handleFormSubmit_rejected p Hs Hv) as (errs & v & Hr).
  rewrite (events_of _ _ _ _ _ Hr eq_refl).
  assert (Hin : FieldMark "name" false "Name must be at least 2 characters"
                ∈ allMarks (config p) (elements p)).
  { unfold allMarks, inputsOf. cbn [flat_map app].
    unfold fieldMarks at 1. rewrite Hchk, Hn. cbn [fst snd app]. left. }
  split; [|split].
  - apply elem_of_app. by left.
  - rewrite !elem_of_app. right. right. constructor.
  - apply Forall_app; split;
      [apply marks_are_no_calls, allMarks_are_marks|].
    apply Forall_app; split; [apply securityEvents_no_calls|].
    repeat constructor.
Qed.

Lemma one_character_name_is_rejected_witness :
  let p := fill (fromJ 0) freshPage in
  config p = CONFIG
  /\ isSubmitting (formState p) = false
  /\ in_name (nameField (elements p)) = "name"
  /\ len (trim (in_value (nameField (elements p)))) = 1%nat
  /\ FieldMark "name" false "Name must be at least 2 characters"
       ∈ events handleFormSubmit p.
Proof.
  intros p. repeat split.
  apply (one_character_name_is_rejected p eq_refl eq_refl eq_refl eq_refl).
Defined.

(** ** The rate limit *)

Lemma fillElements_blank s els :
  fillElements s (blankElements els) = fillElements s els.
Proof. destruct els as [? ? ? ? [h|]]; reflexivity. Qed.

Lemma fillElements_fill s s' els :
  fillElements s (fillElements s' els) = fillElements s els.
Proof. destruct els as [? ? ? ? [h|]]; reflexivity. Qed.

Lemma acceptable_sameForm p q s :
  sameForm p q -> acceptable q s = acceptable p s.
Proof. intros [Hc Hf]. unfold acceptable. by rewrite Hc, Hf. Qed.

Lemma recent_app now h h' : recent now (h ++ h') = recent now h ++ recent now h'.
Proof. unfold recent. apply filter_app. Qed.

Lemma recent_recent now h : recent now (recent now h) = recent now h.
Proof.
  unfold recent. induction h as [|t h IH]; [reflexivity|].
  rewrite filter_cons. case_decide as Ht.
  - rewrite filter_cons. rewrite decide_True by done. by rewrite IH.
  - exact IH.
Qed.

Lemma recent_stale start now h :
  (start <= now)%Z ->
  Forall (fun t => (t + 60 * 60 * 1000 <= start)%Z) h ->
  recent now h = [].
Proof.
  intros Hn. unfold recent. induction 1 as [|t h Ht _ IH]; [reflexivity|].
  rewrite filter_cons. rewrite decide_False by lia. exact IH.
Qed.

Lemma recent_fresh start now t :
  (now < start + 60 * 60 * 1000)%Z -> (start <= t)%Z ->
  recent now [t] = [t].
Proof.
  intros Hn Ht. unfold recent. rewrite filter_cons.
  rewrite decide_True by lia. reflexivity.
Qed.

Lemma history_sentPage q :
  available (localStorage q) = true ->
  honeypotFilled (elements q) = false ->
  history (sentPage q)
  = recent (nowCheck (env q)) (history q) ++ [nowRecord (env q)].
Proof.
  intros Ha Hh. unfold history, sentPage, recordedStorage, checkedStorage,
    history; simpl.
  rewrite Hh, Ha; simpl. rewrite !lookup_insert_eq. reflexivity.
Qed.

Lemma available_sentPage q :
  available (localStorage q) = true ->
  available (localStorage (sentPage q)) = true.
Proof.
  intros Ha. unfold sentPage, recordedStorage, checkedStorage; simpl.
  rewrite Ha. destruct (honeypotFilled _); simpl; by rewrite ?Ha.
Qed.

(** An acceptable submission below the limit goes through. *)
Lemma submit_accepted s p :
  isSubmitting (formState p) = false ->
  acceptable p s = true ->
  underLimit (fill s p) = true ->
  handleFormSubmit (fill s p) = (Val tt, sentPage (fill s p)).
Proof.
  intros Hs Ha Hu. unfold acceptable in Ha.
  apply andb_prop in Ha as [Ha Hm]. apply andb_prop in Ha as [Ha Hc].
  apply andb_prop in Ha as [Hh Hv].
  apply handleFormSubmit_sent; [exact Hs| |].
  - unfold securityOk. simpl.
    change (allValid (config p) (fillElements s (elements p)) && (negb (honeypotFilled (fillElements s (elements p))) && underLimit (fill s p) && messageContentOk (sub_message s)) = true).
    by rewrite Hv, Hh, Hu, Hc.
  - unfold mailFailure. simpl. destruct (emailjs (sub_env s)); try discriminate.
    by rewrite Hm.
Qed.

Lemma submit_limited s p :
  isSubmitting (formState p) = false ->
  available (localStorage p) = true ->
  acceptable p s = true ->
  underLimit (fill s p) = false ->
  exists errs v,
    handleFormSubmit (fill s p)
    = (Val tt,
       revalidated errs v
         (allMarks (config p) (fillElements s (elements p))
          ++ [tooMany; pleaseCorrect])
         (with_localStorage (checkedStorage (fill s p)) (fill s p))).
Proof.
  intros Hs Hav Ha Hu. unfold acceptable in Ha.
  apply andb_prop in Ha as [Ha _]. apply andb_prop in Ha as [Ha _].
  apply andb_prop in Ha as [Hh _]. apply negb_true_iff in Hh.
  destruct (handleFormSubmit_rejected (fill s p) Hs) as (errs & v & Hr).
  { unfold securityOk. rewrite Hu. simpl. by rewrite !andb_false_r. }
  exists errs, v. rewrite Hr. do 3 f_equal.
  unfold securityEvents. simpl.
  change (honeypotFilled (elements (fill s p)))
    with (honeypotFilled (fillElements s (elements p))).
  change (available (localStorage (fill s p))) with (available (localStorage p)).
  by rewrite Hh, Hav, Hu.
Qed.

Lemma run_in_window start p0 : forall subs p kept,
  sameForm p0 p ->
  isSubmitting (formState p) = false ->
  available (localStorage p) = true ->
  windowed start (history p) kept ->
  Forall (inWindow start) subs ->
  Forall (fun s => acceptable p0 s = true) subs ->
  (length kept + length subs <= maxSubmissionsPerHour (security (config p0)))%nat ->
  sameForm p0 (submitAll subs p)
  /\ isSubmitting (formState (submitAll subs p)) = false
  /\ available (localStorage (submitAll subs p)) = true
  /\ windowed start (history (submitAll subs p)) (kept ++ map recordedAt subs)
  /\ Forall (fun r => sentOk ∈ r.1 /\ Exists (fun e => isEmailSend e = true) r.1)
       (submitTrace subs p).
Proof.
  induction subs as [|s subs IH]; intros p kept Hsf Hs Hav Hw Hin Hacc Hlen.
  - simpl. rewrite app_nil_r. repeat split; try assumption; try apply Hsf.
    constructor.
  - apply Forall_cons in Hin as [[Hc Hr] Hin].
    apply Forall_cons in Hacc as [Ha Hacc].
    simpl in Hlen.
    assert (Ha' : acceptable p s = true)
      by (rewrite (acceptable_sameForm p0 p s Hsf); exact Ha).
    assert (Hu : underLimit (fill s p) = true).
    { unfold underLimit. simpl.
      change (history (fill s p)) with (history p).
      rewrite (Hw _ Hc). destruct Hsf as [-> _].
      apply Nat.ltb_lt. lia. }
    pose proof (submit_accepted s p Hs Ha' Hu) as Hrun.
    assert (Hh : honeypotFilled (elements (fill s p)) = false).
    { unfold acceptable in Ha'. apply andb_prop in Ha' as [Ha' _].
      apply andb_prop in Ha' as [Ha' _]. apply andb_prop in Ha' as [Ha' _].
      by apply negb_true_iff in Ha'. }
    assert (Hsub : submit s p = sentPage (fill s p))
      by (unfold submit, after; by rewrite Hrun).
    assert (Hhist : history (submit s p) = kept ++ [recordedAt s]).
    { rewrite Hsub, history_sentPage by assumption.
      change (history (fill s p)) with (history p). simpl.
      by rewrite (Hw _ Hc). }
    destruct (IH (submit s p) (kept ++ [recordedAt s])) as (H1 & H2 & H3 & H4 & H5);
      try assumption.
    + rewrite Hsub. destruct Hsf as [Hcfg Hfill]. split; [exact Hcfg|].
      intros s'. simpl. rewrite fillElements_blank, fillElements_fill. apply Hfill.
    + by rewrite Hsub.
    + rewrite Hsub. by apply available_sentPage.
    + intros now Hnow. rewrite Hhist, recent_app.
      rewrite <- (Hw now Hnow) at 1. rewrite recent_recent, (Hw now Hnow).
      f_equal. apply (recent_fresh start); [lia | unfold recordedAt; lia].
    + rewrite length_app. simpl. lia.
    + cbn [submitAll fold_left submitTrace map].
      change (fold_left (fun q s0 => submit s0 q) subs (submit s p))
        with (submitAll subs (submit s p)).
      rewrite <- app_assoc in H4.
      split; [exact H1|]. split; [exact H2|]. split; [exact H3|].
      split; [exact H4|].
      constructor; [|exact H5]. cbn [fst].
      rewrite (events_of _ _ _ _ _ Hrun eq_refl).
      unfold mailEvents. simpl.
      unfold acceptable in Ha'. apply andb_prop in Ha' as [_ Hm].
      destruct (emailjs (sub_env s)); try discriminate.
      split.
      * rewrite !elem_of_app. do 5 right. constructor.
      * rewrite !Exists_app. right. right. left. constructor. reflexivity.
Qed.

Lemma history_checked errs v evs q :
  available (localStorage q) = true ->
  honeypotFilled (elements q) = false ->
  history (revalidated errs v evs (with_localStorage (checkedStorage q) q))
  = recent (nowCheck (env q)) (history q).
Proof.
  intros Ha Hh. unfold history at 1, revalidated. autorewrite with page.
  unfold checkedStorage. rewrite Hh, Ha. cbn [available items].
  by rewrite lookup_insert_eq.
Qed.

Lemma acceptable_honeypot p s :
  acceptable p s = true -> honeypotFilled (elements (fill s p)) = false.
Proof.
  unfold acceptable. intros Ha.
  apply andb_prop in Ha as [Ha _]. apply andb_prop in Ha as [Ha _].
  apply andb_prop in Ha as [Ha _]. by apply negb_true_iff in Ha.
Qed.

(** C2, amended: take any page whose form is idle, whose local storage works and
    whose stored history only holds instants at least one hour older than
    [start]; take any sequence [subs] of at most [maxSubmissionsPerHour]
    submissions followed by one more, [next], all of them made within the
    hour that starts at [start], each passing the other checks and each
    mailed with status 200.  Then every submission of [subs] is accepted
    (mail sent, success notification); at the next check the old entries
    have been discarded and the recent history is exactly the instants
    recorded for [subs]; and [next] is accepted, its instant appended to
    the history, when [subs] is shorter than the ceiling, and rejected by
    the rate limit, with no collaborator called and nothing appended, when
    [subs] has reached the ceiling. *)
Theorem rate_limit_window p subs next start :
  isSubmitting (formState p) = false ->
  available (localStorage p) = true ->
  Forall (fun t => (t + 60 * 60 * 1000 <= start)%Z) (history p) ->
  Forall (inWindow start) (subs ++ [next]) ->
  Forall (fun s => acceptable p s = true) (subs ++ [next]) ->
  (length subs <= maxSubmissionsPerHour (security (config p)))%nat ->
  let q := submitAll subs p in
  let evs := events handleFormSubmit (fill next q) in
  Forall (fun r => sentOk ∈ r.1 /\ Exists (fun e => isEmailSend e = true) r.1)
    (submitTrace subs p)
  /\ recent (nowCheck (sub_env next)) (history q) = map recordedAt subs
  /\ if (length subs <? maxSubmissionsPerHour (security (config p)))%nat
     then sentOk ∈ evs
          /\ history (submit next q) = map recordedAt (subs ++ [next])
     else tooMany ∈ evs
          /\ Forall (fun e => isCollaboratorCall e = false) evs
          /\ history (submit next q) = map recordedAt subs.
Proof.
  intros Hs Hav Hold Hin Hacc Hlen q evs.
  apply Forall_app in Hin as [Hin Hnext]. apply Forall_cons in Hnext as [[Hc Hr] _].
  apply Forall_app in Hacc as [Hacc Hanext]. apply Forall_cons in Hanext as [Ha _].
  assert (Hsf : sameForm p p) by (split; reflexivity).
  assert (Hw : windowed start (history p) []).
  { intros now Hnow. apply (recent_stale start); [lia | exact Hold]. }
  destruct (run_in_window start p subs p [] Hsf Hs Hav Hw Hin Hacc)
    as (Hsf' & Hs' & Hav' & Hw' & Htrace); [simpl; lia|].
  fold q in Hsf', Hs', Hav', Hw'. rewrite app_nil_l in Hw'.
  assert (Ha' : acceptable q next = true)
    by (rewrite (acceptable_sameForm p q next Hsf'); exact Ha).
  pose proof (acceptable_honeypot q next Ha') as Hh.
  split; [exact Htrace|]. split; [exact (Hw' _ Hc)|].
  assert (Hu : underLimit (fill next q)
               = (length subs <? maxSubmissionsPerHour (security (config p)))%nat).
  { unfold underLimit. change (history (fill next q)) with (history q).
    change (nowCheck (env (fill next q))) with (nowCheck (sub_env next)).
    change (config (fill next q)) with (config q).
    rewrite (Hw' _ Hc), length_map. by destruct Hsf' as [-> _]. }
  destruct (length subs <? _)%nat eqn:Hlt.
  - pose proof (submit_accepted next q Hs' Ha' Hu) as Hrun.
    subst evs. rewrite (events_of _ _ _ _ _ Hrun eq_refl).
    split.
    + rewrite !elem_of_app. do 5 right. constructor.
    + unfold submit, after. rewrite Hrun. cbn [snd].
      rewrite history_sentPage by assumption.
      change (history (fill next q)) with (history q).
      change (nowCheck (env (fill next q))) with (nowCheck (sub_env next)).
      rewrite (Hw' _ Hc), map_app. reflexivity.
  - destruct (submit_limited next q Hs' Hav' Ha' Hu) as (errs & v & Hrun).
    subst evs. rewrite (events_of _ _ _ _ _ Hrun eq_refl).
    split; [|split].
    + rewrite !elem_of_app. right. left.
    + apply Forall_app; split;
        [apply marks_are_no_calls, allMarks_are_marks | repeat constructor].
    + unfold submit, after. rewrite Hrun. cbn [snd].
      rewrite history_checked by assumption.
      change (history (fill next q)) with (history q).
      exact (Hw' _ Hc).
Qed.

Lemma rate_limit_window_witness :
  let p := freshPage in
  let next := fromJo 50000 in
  isSubmitting (formState p) = false
  /\ available (localStorage p) = true
  /\ Forall (fun t => (t + 60 * 60 * 1000 <= 0)%Z) (history p)
  /\ Forall (inWindow 0) (fiveFromJo ++ [next])
  /\ Forall (fun s => acceptable p s = true) (fiveFromJo ++ [next])
  /\ (length fiveFromJo <= maxSubmissionsPerHour (security (config p)))%nat
  /\ tooMany ∈ events handleFormSubmit (fill next (submitAll fiveFromJo p))
  /\ history (submit next (submitAll fiveFromJo p))
     = [2; 10002; 20002; 30002; 40002]%Z.
Proof.
  intros p next.
  assert (H1 : isSubmitting (formState p) = false) by reflexivity.
  assert (H2 : available (localStorage p) = true) by reflexivity.
  assert (H3 : Forall (fun t => (t + 60 * 60 * 1000 <= 0)%Z) (history p))
    by (vm_compute; constructor).
  assert (H4 : Forall (inWindow 0) (fiveFromJo ++ [next]))
    by (repeat constructor; simpl; lia).
  assert (H5 : Forall (fun s => acceptable p s = true) (fiveFromJo ++ [next]))
    by (repeat constructor; vm_compute; reflexivity).
  assert (H6 : (length fiveFromJo <= maxSubmissionsPerHour (security (config p)))%nat)
    by (simpl; lia).
  pose proof (rate_limit_window p fiveFromJo next 0 H1 H2 H3 H4 H5 H6) as H.
  cbv zeta in H.
  change (length fiveFromJo <? maxSubmissionsPerHour (security (config p)))%nat
    with false in H.
  destruct H as (_ & _ & Hmany & _ & Hhist).
  do 6 (split; [assumption|]). split; [exact Hmany | exact Hhist].
Defined.

(** C2, as stated, fails when the local storage does not work: every
    read of the history then gives the empty list and nothing is recorded,
    so that under the default ceiling of five a sixth submission within
    the same minute is accepted like the five before it. *)
Lemma sixth_submission_passes_without_storage :
  let p := with_localStorage {| available := false; items := ∅ |} freshPage in
  let next := fromJo 50000 in
  let evs := events handleFormSubmit (fill next (submitAll fiveFromJo p)) in
  maxSubmissionsPerHour (security (config p)) = 5%nat
  /\ Forall (inWindow 0) (fiveFromJo ++ [next])
  /\ Forall (fun s => acceptable p s = true) (fiveFromJo ++ [next])
  /\ Forall (fun r => existsb isSuccessNote r.1 = true) (submitTrace fiveFromJo p)
  /\ existsb isEmailSend evs = true
  /\ last evs = Some sentOk
  /\ existsb isErrorNote evs = false
  /\ history (submit next (submitAll fiveFromJo p)) = [].
Proof.
  intros p next evs.
  split; [reflexivity|].
  split; [repeat constructor; simpl; lia|].
  split; [repeat constructor; vm_compute; reflexivity|].
  split; [repeat constructor; vm_compute; reflexivity|].
  repeat split; vm_compute; reflexivity.
Qed.

End FormProofs.

(** * Properties of the content check *)

Module ContentProofs.
Import Js Re ContactForm ContentSpec.
Local Open Scope list_scope.

(** ** Checking a property of all 256 code units by computation *)

Lemma allAscii_complete c : In c allAscii.
Proof.
  unfold allAscii. rewrite <- (ascii_nat_embedding c).
  apply in_map, in_seq. pose proof (nat_ascii_bounded c). lia.
Qed.

Lemma forall_ascii (P : ascii -> bool) :
  forallb P allAscii = true -> forall c, P c = true.
Proof.
  intros H c. rewrite forallb_forall in H. apply H, allAscii_complete.
Qed.

Lemma toLowerChar_not_upper c : isUpper (toLowerChar c) = false.
Proof.
  pose proof (forall_ascii (fun c => negb (isUpper (toLowerChar c)))
                ltac:(vm_compute; reflexivity) c) as H.
  by apply negb_true_iff in H.
Qed.

(** On characters that are not capitals, the case-insensitive comparison
    is equality. *)
Lemma eqCI_exact p c :
  isUpper p = false -> isUpper c = false -> eqCI p c = true -> p = c.
Proof.
  intros Hp Hc H.
  pose proof (forall_ascii
    (fun p => forallb (fun c => implb (negb (isUpper p) && negb (isUpper c)
                                        && eqCI p c) (Ascii.eqb p c)) allAscii)
    ltac:(vm_compute; reflexivity) p) as Hall.
  rewrite forallb_forall in Hall. specialize (Hall c (allAscii_complete c)).
  rewrite Hp, Hc, H in Hall. simpl in Hall. by apply Ascii.eqb_eq.
Qed.

(** ** Runs of one character *)

Lemma copies_spec c n s :
  copies c n s = true <-> exists post, s = replicate n c ++ post.
Proof.
  revert s. induction n as [|n IH]; intros s; simpl.
  - split; [intros _; by exists s | done].
  - destruct s as [|d s].
    + split; [done | intros [post H]; discriminate].
    + rewrite andb_true_iff, Ascii.eqb_eq, IH. split.
      * intros [-> [post ->]]. by exists post.
      * intros [post H]. injection H as -> ->. split; [done | by exists post].
Qed.

Lemma runFrom_spec l : runFrom l = true <-> hasRunOnLine 11 l.
Proof.
  unfold hasRunOnLine. induction l as [|c l IH]; cbn [runFrom].
  - split; [done|]. intros (pre & c & post & H & _).
    destruct pre; discriminate.
  - rewrite orb_true_iff, andb_true_iff, copies_spec, IH. split.
    + intros [[Hdot [post ->]] | (pre & d & post & -> & Hdot)].
      * by exists [], c, post.
      * by exists (c :: pre), d, post.
    + intros (pre & d & post & H & Hdot). destruct pre as [|e pre].
      * simpl in H. injection H as -> ->. left. split; [done | by exists post].
      * simpl in H. injection H as -> ->. right. by exists pre, d, post.
Qed.

(** ** URLs *)

Lemma stripPrefix_spec p s r : stripPrefix p s = Some r <-> s = p ++ r.
Proof.
  revert s. induction p as [|a p IH]; intros s; simpl.
  - split; [by intros [= ->] | by intros ->].
  - destruct s as [|c s]; [split; discriminate|].
    destruct (Ascii.eqb a c) eqn:E.
    + apply Ascii.eqb_eq in E as ->. rewrite IH. split; [by intros -> | by intros [= ->]].
    + apply Ascii.eqb_neq in E. split; [discriminate | intros [= -> _]; done].
Qed.

Lemma slashesThenNonSpace_spec s :
  slashesThenNonSpace s = true
  <-> exists c post, s = chars "://" ++ c :: post /\ isSpace c = false.
Proof.
  unfold slashesThenNonSpace. split.
  - destruct (stripPrefix (chars "://") s) as [[|c post]|] eqn:E; try discriminate.
    intros H. apply stripPrefix_spec in E. apply negb_true_iff in H.
    by exists c, post.
  - intros (c & post & -> & H).
    assert (E : stripPrefix (chars "://") (chars "://" ++ c :: post) = Some (c :: post))
      by by apply stripPrefix_spec.
    rewrite E. by rewrite H.
Qed.

Lemma urlAt_spec s :
  urlAt s = true
  <-> exists c post,
        (s = chars "http://" ++ c :: post \/ s = chars "https://" ++ c :: post)
        /\ isSpace c = false.
Proof.
  unfold urlAt. split.
  - destruct (stripPrefix (chars "http") s) as [[|c r]|] eqn:E; try discriminate.
    apply stripPrefix_spec in E. subst s.
    rewrite orb_true_iff, andb_true_iff, Ascii.eqb_eq, !slashesThenNonSpace_spec.
    intros [[-> (d & post & -> & Hd)] | (d & post & Hr & Hd)].
    + exists d, post. split; [by right | done].
    + exists d, post. rewrite Hr. split; [by left | done].
  - intros (c & post & [-> | ->] & Hc).
    + assert (E : stripPrefix (chars "http") (chars "http://" ++ c :: post)
                  = Some (chars "://" ++ c :: post)) by by apply stripPrefix_spec.
      rewrite E. cbn [chars list_ascii_of_string app].
      apply orb_true_iff. right. apply slashesThenNonSpace_spec. by exists c, post.
    + assert (E : stripPrefix (chars "http") (chars "https://" ++ c :: post)
                  = Some ("s"%char :: chars "://" ++ c :: post)) by by apply stripPrefix_spec.
      rewrite E. apply orb_true_iff. left. apply andb_true_iff. split; [done|].
      apply slashesThenNonSpace_spec. by exists c, post.
Qed.

Lemma urlFrom_spec l : urlFrom l = true <-> hasUrl l.
Proof.
  unfold hasUrl. induction l as [|a l IH].
  - simpl. split; [done|]. intros (pre & c & post & [H|H] & _);
      destruct pre; discriminate.
  - cbn [urlFrom]. rewrite orb_true_iff, urlAt_spec, IH. split.
    + intros [(c & post & H & Hc) | (pre & c & post & H & Hc)].
      * exists [], c, post. by split.
      * exists (a :: pre), c, post. split; [|done].
        destruct H as [-> | ->]; [by left | by right].
    + intros (pre & c & post & H & Hc). destruct pre as [|b pre].
      * left. by exists c, post.
      * right. exists pre, c, post. split; [|done].
        destruct H as [H|H]; injection H as -> ->; [by left | by right].
Qed.

(** ** Keywords *)

Lemma lastOr_cons prev c l : lastOr prev (c :: l) = lastOr (Some c) l.
Proof.
  unfold lastOr. destruct l as [|d l]; [reflexivity|].
  rewrite last_cons_cons. destruct (last (d :: l)) eqn:E; [reflexivity|].
  by apply last_None in E.
Qed.

Lemma lastOr_None l : lastOr None l = last l.
Proof. unfold lastOr. by destruct (last l). Qed.

Lemma lastOr_nonempty prev l : l <> [] -> lastOr prev l = last l.
Proof.
  intros H. unfold lastOr. destruct (last l) eqn:E; [reflexivity|].
  by apply last_None in E.
Qed.

Lemma matchKw_spec kw : forall prev s lst rest,
  matchKw kw prev s = Some (lst, rest)
  <-> exists mid, s = mid ++ rest
                  /\ Forall2 (fun p c => eqCI p c = true) kw mid
                  /\ lst = lastOr prev mid.
Proof.
  induction kw as [|p kw IH]; intros prev s lst rest; simpl.
  - split.
    + intros [= -> ->]. exists []. repeat split. constructor.
    + intros (mid & -> & H & ->). by inversion H.
  - destruct s as [|c s].
    + split; [discriminate|]. intros (mid & H & H2 & _).
      inversion H2; subst. discriminate.
    + destruct (eqCI p c) eqn:E.
      * rewrite IH. split.
        -- intros (mid & -> & H & ->). exists (c :: mid).
           split; [done|]. split; [by constructor | by rewrite lastOr_cons].
        -- intros (mid & H & H2 & ->). inversion H2 as [|? d ? mid' ? ?]; subst.
           injection H as -> ->. exists mid'. by rewrite lastOr_cons.
      * split; [discriminate|]. intros (mid & H & H2 & _).
        inversion H2; subst. injection H as -> ->. congruence.
Qed.

Lemma sameLetters_exact kw mid :
  Forall (fun c => isUpper c = false) kw ->
  Forall (fun c => isUpper c = false) mid ->
  Forall2 (fun p c => eqCI p c = true) kw mid -> mid = kw.
Proof.
  intros Hk Hm H. induction H as [|p c kw mid E _ IH]; [reflexivity|].
  apply Forall_cons in Hk as [Hp Hk]. apply Forall_cons in Hm as [Hc Hm].
  rewrite (eqCI_exact p c Hp Hc E). f_equal. by apply IH.
Qed.

Lemma eqCI_refl p : eqCI p p = true.
Proof. unfold eqCI. apply Ascii.eqb_refl. Qed.

Lemma keywords_shape :
  Forall (fun kw => chars kw <> [] /\ Forall (fun c => isUpper c = false) (chars kw))
    keywords.
Proof. repeat constructor; discriminate. Qed.

Lemma spamAt_spec prev s :
  Forall (fun c => isUpper c = false) s ->
  spamAt prev s = true
  <-> exists kw post,
        kw ∈ keywords /\ s = chars kw ++ post
        /\ boundary prev (head (chars kw)) = true
        /\ boundary (last (chars kw)) (head post) = true.
Proof.
  intros Hlow. unfold spamAt. rewrite andb_true_iff, existsb_exists.
  pose proof keywords_shape as Hshape. rewrite Forall_forall in Hshape.
  split.
  - intros (Hb & kw & Hin & Hm). apply list_elem_of_In in Hin.
    destruct (Hshape kw Hin) as [Hne Hkw].
    destruct (matchKw (chars kw) prev s) as [[lst rest]|] eqn:E; [|discriminate].
    apply matchKw_spec in E as (mid & -> & H2 & ->).
    apply Forall_app in Hlow as [Hmid _].
    pose proof (sameLetters_exact _ _ Hkw Hmid H2) as ->.
    exists kw, rest. rewrite lastOr_nonempty in Hm by done.
    repeat split; try done.
    destruct (chars kw); [done | exact Hb].
  - intros (kw & post & Hin & -> & Hb & Ha).
    destruct (Hshape kw Hin) as [Hne Hkw].
    split; [destruct (chars kw); [done | exact Hb]|].
    exists kw. split; [by apply list_elem_of_In|].
    assert (E : matchKw (chars kw) prev (chars kw ++ post)
                = Some (lastOr prev (chars kw), post)).
    { apply matchKw_spec. exists (chars kw). repeat split.
      apply Forall2_same_length_lookup_2; [done|].
      intros i x y Hx Hy. rewrite Hx in Hy. injection Hy as ->. apply eqCI_refl. }
    rewrite E. by rewrite lastOr_nonempty.
Qed.

Lemma spamFrom_spec l : forall prev,
  spamFrom prev l = true
  <-> exists pre s, l = pre ++ s /\ spamAt (lastOr prev pre) s = true.
Proof.
  induction l as [|c l IH]; intros prev; cbn [spamFrom].
  - rewrite orb_false_r. split.
    + intros H. by exists [], [].
    + intros (pre & s & H & Hs). symmetry in H. apply app_eq_nil in H as [-> ->].
      exact Hs.
  - rewrite orb_true_iff, IH. split.
    + intros [H | (pre & s & -> & H)].
      * by exists [], (c :: l).
      * exists (c :: pre), s. by rewrite lastOr_cons.
    + intros (pre & s & H & Hs). destruct pre as [|d pre].
      * left. simpl in H. by subst s.
      * right. injection H as -> ->. exists pre, s. by rewrite lastOr_cons in Hs.
Qed.

Lemma spamPattern_spec l :
  Forall (fun c => isUpper c = false) l ->
  spamFrom None l = true <-> hasKeyword l.
Proof.
  intros Hlow. rewrite spamFrom_spec. unfold hasKeyword. split.
  - intros (pre & s & -> & H). apply Forall_app in Hlow as [_ Hs].
    apply (spamAt_spec _ _ Hs) in H as (kw & post & Hin & -> & Hb & Ha).
    rewrite lastOr_None in Hb. by exists kw, pre, post.
  - intros (kw & pre & post & Hin & -> & Hb & Ha).
    apply Forall_app in Hlow as [_ Hs].
    exists pre, (chars kw ++ post). split; [done|].
    apply (spamAt_spec _ _ Hs). exists kw, post. by rewrite lastOr_None.
Qed.

(** ** The content check *)

Lemma chars_toLowerCase text :
  chars (toLowerCase text) = map toLowerChar (chars text).
Proof. unfold toLowerCase, str, chars. apply list_ascii_of_string_of_list_ascii. Qed.

Lemma lowered_not_upper text :
  Forall (fun c => isUpper c = false) (chars (toLowerCase text)).
Proof.
  rewrite chars_toLowerCase. apply Forall_map, Forall_forall.
  intros c _. apply toLowerChar_not_upper.
Qed.

Lemma messageContentOk_spec text :
  messageContentOk text = false
  <-> hasKeyword (chars (toLowerCase text))
      \/ hasUrl (chars (toLowerCase text))
      \/ hasRunOnLine 11 (chars (toLowerCase text)).
Proof.
  unfold messageContentOk, prohibitedPatterns. cbn [existsb].
  rewrite negb_false_iff, orb_false_r, !orb_true_iff.
  unfold spamPattern, urlPattern, runPattern.
  rewrite (spamPattern_spec _ (lowered_not_upper text)), urlFrom_spec, runFrom_spec.
  reflexivity.
Qed.

(** C6, as stated, fails: a message made of ten identical characters
    contains a run of ten identical characters, and the content check
    lets it through. *)
Lemma ten_in_a_row_pass :
  rejectsAsSpecified "aaaaaaaaaa"
  /\ ContactForm.messageContentOk "aaaaaaaaaa" = true.
Proof.
  split; [|reflexivity].
  right. right. by exists [], "a"%char, [].
Qed.

(** C6, amended: the content check of a page rejects (returns [false])
    exactly when the text of the message field, once lower-cased, contains
    one of the spam keywords as a whole word, or [http://] or [https://]
    followed by a character that is not white space, or a run of eleven or
    more copies of one character other than a line terminator; a message
    with none of these passes.  It changes nothing on the page. *)
Theorem content_check_rejects_exactly p :
  let text := in_value (messageField (elements p)) in
  let l := chars (toLowerCase text) in
  (result_of (checkMessageContent p) = Val false
   <-> hasKeyword l \/ hasUrl l \/ hasRunOnLine 11 l)
  /\ (result_of (checkMessageContent p) = Val true
      <-> ~ (hasKeyword l \/ hasUrl l \/ hasRunOnLine 11 l))
  /\ state_of (checkMessageContent p) = p.
Proof.
  intros text l.
  assert (E : result_of (checkMessageContent p) = Val (messageContentOk text))
    by reflexivity.
  rewrite E. subst l. rewrite <- messageContentOk_spec.
  repeat split.
  - by intros [= ->].
  - by intros ->.
  - intros [= ->]. discriminate.
  - intros H. by destruct (messageContentOk text).
Qed.

End ContentProofs.

(** * Properties of the Supabase client *)

Module ClientProofs.
Import Js SupabaseClient UrlSyntax ClientReadings.
Local Open Scope js_scope.
Local Open Scope list_scope.

(** ** Projections of an updated client *)

Lemma client_config_with_db x c : config (with_db x c) = config c.
Proof. reflexivity. Qed.
Lemma client_db_with_db x c : db (with_db x c) = x.
Proof. reflexivity. Qed.
Lemma client_accounts_with_db x c : accounts (with_db x c) = accounts c.
Proof. reflexivity. Qed.
Lemma client_authUser_with_db x c : authUser (with_db x c) = authUser c.
Proof. reflexivity. Qed.
Lemma client_adminSession_with_db x c : adminSession (with_db x c) = adminSession c.
Proof. reflexivity. Qed.
Lemma client_now_with_db x c : now (with_db x c) = now c.
Proof. reflexivity. Qed.
Lemma client_ip_with_db x c : ip (with_db x c) = ip c.
Proof. reflexivity. Qed.
Lemma client_userAgent_with_db x c : userAgent (with_db x c) = userAgent c.
Proof. reflexivity. Qed.
Lemma client_entropy_with_db x c : entropy (with_db x c) = entropy c.
Proof. reflexivity. Qed.
Lemma client_faults_with_db x c : faults (with_db x c) = faults c.
Proof. reflexivity. Qed.
Lemma client_calls_with_db x c : calls (with_db x c) = calls c.
Proof. reflexivity. Qed.
Lemma client_log_with_db x c : log (with_db x c) = log c.
Proof. reflexivity. Qed.
Lemma client_config_with_authUser x c : config (with_authUser x c) = config c.
Proof. reflexivity. Qed.
Lemma client_db_with_authUser x c : db (with_authUser x c) = db c.
Proof. reflexivity. Qed.
Lemma client_accounts_with_authUser x c : accounts (with_authUser x c) = accounts c.
Proof. reflexivity. Qed.
Lemma client_authUser_with_authUser x c : authUser (with_authUser x c) = x.
Proof. reflexivity. Qed.
Lemma client_adminSession_with_authUser x c : adminSession (with_authUser x c) = adminSession c.
Proof. reflexivity. Qed.
Lemma client_now_with_authUser x c : now (with_authUser x c) = now c.
Proof. reflexivity. Qed.
Lemma client_ip_with_authUser x c : ip (with_authUser x c) = ip c.
Proof. reflexivity. Qed.
Lemma client_userAgent_with_authUser x c : userAgent (with_authUser x c) = userAgent c.
Proof. reflexivity. Qed.
Lemma client_entropy_with_authUser x c : entropy (with_authUser x c) = entropy c.
Proof. reflexivity. Qed.
Lemma client_faults_with_authUser x c : faults (with_authUser x c) = faults c.
Proof. reflexivity. Qed.
Lemma client_calls_with_authUser x c : calls (with_authUser x c) = calls c.
Proof. reflexivity. Qed.
Lemma client_log_with_authUser x c : log (with_authUser x c) = log c.
Proof. reflexivity. Qed.
Lemma client_config_with_adminSession x c : config (with_adminSession x c) = config c.
Proof. reflexivity. Qed.
Lemma client_db_with_adminSession x c : db (with_adminSession x c) = db c.
Proof. reflexivity. Qed.
Lemma client_accounts_with_adminSession x c : accounts (with_adminSession x c) = accounts c.
Proof. reflexivity. Qed.
Lemma client_authUser_with_adminSession x c : authUser (with_adminSession x c) = authUser c.
Proof. reflexivity. Qed.
Lemma client_adminSession_with_adminSession x c : adminSession (with_adminSession x c) = x.
Proof. reflexivity. Qed.
Lemma client_now_with_adminSession x c : now (with_adminSession x c) = now c.
Proof. reflexivity. Qed.
Lemma client_ip_with_adminSession x c : ip (with_adminSession x c) = ip c.
Proof. reflexivity. Qed.
Lemma client_userAgent_with_adminSession x c : userAgent (with_adminSession x c) = userAgent c.
Proof. reflexivity. Qed.
Lemma client_entropy_with_adminSession x c : entropy (with_adminSession x c) = entropy c.
Proof. reflexivity. Qed.
Lemma client_faults_with_adminSession x c : faults (with_adminSession x c) = faults c.
Proof. reflexivity. Qed.
Lemma client_calls_with_adminSession x c : calls (with_adminSession x c) = calls c.
Proof. reflexivity. Qed.
Lemma client_log_with_adminSession x c : log (with_adminSession x c) = log c.
Proof. reflexivity. Qed.
Lemma client_config_with_calls x c : config (with_calls x c) = config c.
Proof. reflexivity. Qed.
Lemma client_db_with_calls x c : db (with_calls x c) = db c.
Proof. reflexivity. Qed.
Lemma client_accounts_with_calls x c : accounts (with_calls x c) = accounts c.
Proof. reflexivity. Qed.
Lemma client_authUser_with_calls x c : authUser (with_calls x c) = authUser c.
Proof. reflexivity. Qed.
Lemma client_adminSession_with_calls x c : adminSession (with_calls x c) = adminSession c.
Proof. reflexivity. Qed.
Lemma client_now_with_calls x c : now (with_calls x c) = now c.
Proof. reflexivity. Qed.
Lemma client_ip_with_calls x c : ip (with_calls x c) = ip c.
Proof. reflexivity. Qed.
Lemma client_userAgent_with_calls x c : userAgent (with_calls x c) = userAgent c.
Proof. reflexivity. Qed.
Lemma client_entropy_with_calls x c : entropy (with_calls x c) = entropy c.
Proof. reflexivity. Qed.
Lemma client_faults_with_calls x c : faults (with_calls x c) = faults c.
Proof. reflexivity. Qed.
Lemma client_calls_with_calls x c : calls (with_calls x c) = x.
Proof. reflexivity. Qed.
Lemma client_log_with_calls x c : log (with_calls x c) = log c.
Proof. reflexivity. Qed.
Lemma client_config_with_log x c : config (with_log x c) = config c.
Proof. reflexivity. Qed.
Lemma client_db_with_log x c : db (with_log x c) = db c.
Proof. reflexivity. Qed.
Lemma client_accounts_with_log x c : accounts (with_log x c) = accounts c.
Proof. reflexivity. Qed.
Lemma client_authUser_with_log x c : authUser (with_log x c) = authUser c.
Proof. reflexivity. Qed.
Lemma client_adminSession_with_log x c : adminSession (with_log x c) = adminSession c.
Proof. reflexivity. Qed.
Lemma client_now_with_log x c : now (with_log x c) = now c.
Proof. reflexivity. Qed.
Lemma client_ip_with_log x c : ip (with_log x c) = ip c.
Proof. reflexivity. Qed.
Lemma client_userAgent_with_log x c : userAgent (with_log x c) = userAgent c.
Proof. reflexivity. Qed.
Lemma client_entropy_with_log x c : entropy (with_log x c) = entropy c.
Proof. reflexivity. Qed.
Lemma client_faults_with_log x c : faults (with_log x c) = faults c.
Proof. reflexivity. Qed.
Lemma client_calls_with_log x c : calls (with_log x c) = calls c.
Proof. reflexivity. Qed.
Lemma client_log_with_log x c : log (with_log x c) = x.
Proof. reflexivity. Qed.
Lemma client_config_with_now x c : config (with_now x c) = config c.
Proof. reflexivity. Qed.
Lemma client_db_with_now x c : db (with_now x c) = db c.
Proof. reflexivity. Qed.
Lemma client_accounts_with_now x c : accounts (with_now x c) = accounts c.
Proof. reflexivity. Qed.
Lemma client_authUser_with_now x c : authUser (with_now x c) = authUser c.
Proof. reflexivity. Qed.
Lemma client_adminSession_with_now x c : adminSession (with_now x c) = adminSession c.
Proof. reflexivity. Qed.
Lemma client_now_with_now x c : now (with_now x c) = x.
Proof. reflexivity. Qed.
Lemma client_ip_with_now x c : ip (with_now x c) = ip c.
Proof. reflexivity. Qed.
Lemma client_userAgent_with_now x c : userAgent (with_now x c) = userAgent c.
Proof. reflexivity. Qed.
Lemma client_entropy_with_now x c : entropy (with_now x c) = entropy c.
Proof. reflexivity. Qed.
Lemma client_faults_with_now x c : faults (with_now x c) = faults c.
Proof. reflexivity. Qed.
Lemma client_calls_with_now x c : calls (with_now x c) = calls c.
Proof. reflexivity. Qed.
Lemma client_log_with_now x c : log (with_now x c) = log c.
Proof. reflexivity. Qed.
Lemma projects_with_projects x d : projects (with_projects x d) = x.
Proof. reflexivity. Qed.
Lemma admin_users_with_projects x d : admin_users (with_projects x d) = admin_users d.
Proof. reflexivity. Qed.
Lemma blocked_ips_with_projects x d : blocked_ips (with_projects x d) = blocked_ips d.
Proof. reflexivity. Qed.
Lemma login_attempts_with_projects x d : login_attempts (with_projects x d) = login_attempts d.
Proof. reflexivity. Qed.
Lemma projects_with_blocked_ips x d : projects (with_blocked_ips x d) = projects d.
Proof. reflexivity. Qed.
Lemma admin_users_with_blocked_ips x d : admin_users (with_blocked_ips x d) = admin_users d.
Proof. reflexivity. Qed.
Lemma blocked_ips_with_blocked_ips x d : blocked_ips (with_blocked_ips x d) = x.
Proof. reflexivity. Qed.
Lemma login_attempts_with_blocked_ips x d : login_attempts (with_blocked_ips x d) = login_attempts d.
Proof. reflexivity. Qed.
Lemma projects_with_login_attempts x d : projects (with_login_attempts x d) = projects d.
Proof. reflexivity. Qed.
Lemma admin_users_with_login_attempts x d : admin_users (with_login_attempts x d) = admin_users d.
Proof. reflexivity. Qed.
Lemma blocked_ips_with_login_attempts x d : blocked_ips (with_login_attempts x d) = blocked_ips d.
Proof. reflexivity. Qed.
Lemma login_attempts_with_login_attempts x d : login_attempts (with_login_attempts x d) = x.
Proof. reflexivity. Qed.

Create Rewrite HintDb client.
#[local] Hint Rewrite
  client_config_with_db client_db_with_db client_accounts_with_db client_authUser_with_db
  client_adminSession_with_db client_now_with_db client_ip_with_db client_userAgent_with_db
  client_entropy_with_db client_faults_with_db client_calls_with_db client_log_with_db
  client_config_with_authUser client_db_with_authUser client_accounts_with_authUser client_authUser_with_authUser
  client_adminSession_with_authUser client_now_with_authUser client_ip_with_authUser client_userAgent_with_authUser
  client_entropy_with_authUser client_faults_with_authUser client_calls_with_authUser client_log_with_authUser
  client_config_with_adminSession client_db_with_adminSession client_accounts_with_adminSession client_authUser_with_adminSession
  client_adminSession_with_adminSession client_now_with_adminSession client_ip_with_adminSession client_userAgent_with_adminSession
  client_entropy_with_adminSession client_faults_with_adminSession client_calls_with_adminSession client_log_with_adminSession
  client_config_with_calls client_db_with_calls client_accounts_with_calls client_authUser_with_calls
  client_adminSession_with_calls client_now_with_calls client_ip_with_calls client_userAgent_with_calls
  client_entropy_with_calls client_faults_with_calls client_calls_with_calls client_log_with_calls
  client_config_with_log client_db_with_log client_accounts_with_log client_authUser_with_log
  client_adminSession_with_log client_now_with_log client_ip_with_log client_userAgent_with_log
  client_entropy_with_log client_faults_with_log client_calls_with_log client_log_with_log
  client_config_with_now client_db_with_now client_accounts_with_now client_authUser_with_now
  client_adminSession_with_now client_now_with_now client_ip_with_now client_userAgent_with_now
  client_entropy_with_now client_faults_with_now client_calls_with_now client_log_with_now
  projects_with_projects admin_users_with_projects blocked_ips_with_projects login_attempts_with_projects
  projects_with_blocked_ips admin_users_with_blocked_ips blocked_ips_with_blocked_ips login_attempts_with_blocked_ips
  projects_with_login_attempts admin_users_with_login_attempts blocked_ips_with_login_attempts login_attempts_with_login_attempts : client.

Lemma client_ext c c' :
  config c = config c' -> db c = db c' -> accounts c = accounts c' ->
  authUser c = authUser c' -> adminSession c = adminSession c' ->
  now c = now c' -> ip c = ip c' -> userAgent c = userAgent c' ->
  entropy c = entropy c' -> faults c = faults c' -> calls c = calls c' ->
  log c = log c' -> c = c'.
Proof. destruct c, c'; simpl; congruence. Qed.

(** ** Sequencing *)

Lemma bind_val {A B} (m : M Client A) (k : A -> M Client B) c a c' :
  m c = (Val a, c') -> bind m k c = k a c'.
Proof. intros H. unfold bind. by rewrite H. Qed.

Lemma bind_exn {A B} (m : M Client A) (k : A -> M Client B) c e c' :
  m c = (Exn e, c') -> bind m k c = (Exn e, c').
Proof. intros H. unfold bind. by rewrite H. Qed.

Lemma catch_val {A} (m : M Client A) h c a c' :
  m c = (Val a, c') -> try_catch m h c = (Val a, c').
Proof. intros H. unfold try_catch. by rewrite H. Qed.

Lemma catch_exn {A} (m : M Client A) h c e c' :
  m c = (Exn e, c') -> try_catch m h c = h e c'.
Proof. intros H. unfold try_catch. by rewrite H. Qed.

Lemma client_events_of {A} (m : M Client A) c r c' evs :
  m c = (r, c') -> log c' = log c ++ evs -> events m c = evs.
Proof.
  intros Hm Hl. unfold events, after. rewrite Hm. cbn [snd].
  rewrite Hl. apply drop_app_length.
Qed.

(** ** Validation comes before the store *)

Section Projects.
Variable newURL : string -> bool.

Lemma validateProjectData_run data c :
  validateProjectData newURL data c
  = (if outside (d_name data) 3 100 then
       Exn "Project name must be between 3 and 100 characters"
     else if outside (d_description data) 10 500 then
       Exn "Project description must be between 10 and 500 characters"
     else if negb (present (d_url data)) || negb (isValidUrl newURL (d_url data)) then
       Exn "Valid project URL is required"
     else Val tt, c).
Proof.
  unfold validateProjectData.
  repeat (match goal with |- context [if ?b then _ else _] => destruct b end);
    reflexivity.
Qed.

Lemma projectFields_run data c :
  isValidUrl newURL (d_url data) = true ->
  projectFields newURL data c
  = (if present (d_image_url data) && negb (isValidUrl newURL (d_image_url data))
     then Exn "Invalid URL format" else Val (sanitizedFields data), c).
Proof.
  intros Hu. unfold projectFields, validateUrl, sanitizedFields, bind. rewrite Hu.
  cbn [negb]. unfold ret at 1.
  destruct (present (d_image_url data)) eqn:Hp; cbn [andb].
  - destruct (isValidUrl newURL (d_image_url data)) eqn:Hi; cbn [negb].
    + unfold ret. destruct (d_image_url data); [reflexivity | discriminate].
    + reflexivity.
  - reflexivity.
Qed.

(** The part of [createProject] and [updateProject] that runs before the
    store is called: either a refusal or the fields to send. *)
Lemma prepared data c {A} (k : ProjectFields -> M Client A) :
  bind (validateProjectData newURL data) (fun _ =>
    bind (projectFields newURL data) k) c
  = match rejection newURL data with
    | Some msg => (Exn msg, c)
    | None => k (sanitizedFields data) c
    end.
Proof.
  unfold bind at 1. rewrite validateProjectData_run. unfold rejection.
  destruct (outside (d_name data) 3 100); [reflexivity|].
  destruct (outside (d_description data) 10 500); [reflexivity|].
  destruct (present (d_url data)); cbn [negb orb]; [|reflexivity].
  destruct (isValidUrl newURL (d_url data)) eqn:Hu; cbn [negb]; [|reflexivity].
  unfold bind. rewrite (projectFields_run data c Hu).
  destruct (present (d_image_url data) && _); reflexivity.
Qed.

Lemma request_run e c :
  request e c
  = (Val (negb (faults c (calls c))),
     with_calls (S (calls c)) (with_log (log c ++ [e]) c)).
Proof. reflexivity. Qed.

Lemma createProject_refused data c msg :
  rejection newURL data = Some msg ->
  createProject newURL data c
  = (Exn msg, with_log (log c ++ [ConsoleError ("Error creating project: " +:+ msg)]) c).
Proof.
  intros H. unfold createProject.
  erewrite catch_exn; [reflexivity|]. rewrite prepared. by rewrite H.
Qed.

Lemma updateProject_refused id data c msg :
  rejection newURL data = Some msg ->
  updateProject newURL id data c
  = (Exn msg, with_log (log c ++ [ConsoleError ("Error updating project: " +:+ msg)]) c).
Proof.
  intros H. unfold updateProject.
  erewrite catch_exn; [reflexivity|]. rewrite prepared. by rewrite H.
Qed.



End Projects.





(** ** Soft delete *)

Lemma deleteProject_run id c :
  faults c (calls c) = false ->
  deleteProject id c
  = (Val true,
     with_log (log c ++ [DeactivateProject id; ConsoleLog "Project deleted successfully"])
       (with_db (with_projects
                   (updateWhereId id (deactivate (now c)) (projects (db c))) (db c))
          (with_calls (S (calls c)) c))).
Proof.
  intros Hf. unfold deleteProject.
  erewrite catch_val; [reflexivity|].
  erewrite bind_val by reflexivity. erewrite bind_val by apply request_run.
  rewrite Hf. cbn [negb].
  unfold setProjects, consoleLog, emit, bind, modify, ret.
  f_equal. apply client_ext; autorewrite with client; try reflexivity.
  by rewrite <- app_assoc.
Qed.

Lemma getProjects_run filters c :
  faults c (calls c) = false ->
  result_of (getProjects filters c)
  = Val (limited filters (orderDesc (List.filter (selected filters) (projects (db c))))).
Proof.
  intros Hf. unfold getProjects, result_of.
  erewrite catch_val; [reflexivity|].
  erewrite bind_val by reflexivity. erewrite bind_val by apply request_run.
  rewrite Hf. reflexivity.
Qed.

Lemma selected_noFilters r : selected noFilters r = p_is_active r.
Proof. unfold selected, noFilters. cbn [category]. apply andb_true_r. Qed.

Lemma updateWhereId_ids id f rows :
  (forall r, p_id (f r) = p_id r) ->
  map p_id (updateWhereId id f rows) = map p_id rows.
Proof.
  intros Hf. unfold updateWhereId. rewrite map_map. apply map_ext.
  intros r. destruct (String.eqb (p_id r) id); [apply Hf | reflexivity].
Qed.

Lemma active_after_deactivate id t rows :
  List.filter p_is_active (updateWhereId id (deactivate t) rows)
  = List.filter (fun r => p_is_active r && negb (String.eqb (p_id r) id)) rows.
Proof.
  unfold updateWhereId. induction rows as [|r rows IH]; [reflexivity|].
  cbn [map List.filter]. rewrite IH.
  destruct (String.eqb (p_id r) id); cbn [deactivate p_is_active negb].
  - by rewrite andb_false_r.
  - by rewrite andb_true_r.
Qed.

Lemma active_after_second_deactivate id t t' rows :
  List.filter p_is_active
    (updateWhereId id (deactivate t') (updateWhereId id (deactivate t) rows))
  = List.filter p_is_active (updateWhereId id (deactivate t) rows).
Proof.
  rewrite active_after_deactivate. unfold updateWhereId.
  induction rows as [|r rows IH]; [reflexivity|].
  cbn [map List.filter]. rewrite IH.
  destruct (String.eqb (p_id r) id) eqn:E.
  - cbn [deactivate p_is_active p_id andb]. reflexivity.
  - rewrite E. cbn [negb]. by rewrite andb_true_r.
Qed.

Lemma insertDesc_elem r x rows : x ∈ insertDesc r rows <-> x = r \/ x ∈ rows.
Proof.
  induction rows as [|r' rows IH]; cbn [insertDesc].
  - rewrite list_elem_of_singleton. split; [by left | intros [H|H]; [done | inversion H]].
  - destruct (p_created_at r' <? p_created_at r)%Z.
    + by rewrite elem_of_cons.
    + rewrite !elem_of_cons, IH. tauto.
Qed.

Lemma orderDesc_elem x rows : x ∈ orderDesc rows <-> x ∈ rows.
Proof.
  unfold orderDesc. induction rows as [|r rows IH]; cbn [foldr]; [reflexivity|].
  by rewrite insertDesc_elem, IH, elem_of_cons.
Qed.

Lemma elem_of_List_filter {A} (f : A -> bool) l x :
  x ∈ List.filter f l <-> x ∈ l /\ f x = true.
Proof. rewrite !list_elem_of_In. apply filter_In. Qed.

(** C7, as stated, fails in one part: a soft delete does remove the row
    from the visible active set.  The demo project is listed before
    [deleteProject] and not after, while its row is still in the table. *)
Lemma soft_delete_hides_the_row :
  result_of (getProjects noFilters demoClient) = Val [demoProject]
  /\ result_of (getProjects noFilters (after (deleteProject "p1") demoClient)) = Val []
  /\ map p_id (projects (db (after (deleteProject "p1") demoClient))) = ["p1"].
Proof. repeat split; vm_compute; reflexivity. Qed.

(** C7, amended: when the store answers, [deleteProject] returns [true]
    and is a soft delete: no row is removed from the table (the same ids in
    the same order), the rows with the given id get their active flag
    cleared (and their update stamp set), every other row is untouched; the
    rows with that id, and only they, leave the visible active set that
    [getProjects] lists; and it is idempotent for the caller: deleting
    again, at any later instant, returns [true] again and leaves the visible
    active set as it was, changing nothing in the table but the update stamp
    of the rows with that id. *)
Theorem deleteProject_is_soft_and_idempotent c id t :
  reachable c ->
  let c1 := after (deleteProject id) c in
  let c2 := after (deleteProject id) (with_now t c1) in
  result_of (deleteProject id c) = Val true
  /\ map p_id (projects (db c1)) = map p_id (projects (db c))
  /\ projects (db c1) = updateWhereId id (deactivate (now c)) (projects (db c))
  /\ (forall r, r ∈ activeProjects c1 <-> r ∈ activeProjects c /\ p_id r <> id)
  /\ result_of (getProjects noFilters c1) = Val (activeProjects c1)
  /\ result_of (deleteProject id (with_now t c1)) = Val true
  /\ activeProjects c2 = activeProjects c1
  /\ result_of (getProjects noFilters c2) = Val (activeProjects c1)
  /\ map p_id (projects (db c2)) = map p_id (projects (db c1))
  /\ projects (db c2) = updateWhereId id (deactivate t) (projects (db c1)).
Proof.
  intros Hreach c1 c2.
  pose proof (deleteProject_run id c (Hreach _)) as H1.
  assert (Hdb1 : projects (db c1)
                 = updateWhereId id (deactivate (now c)) (projects (db c))).
  { subst c1. unfold after. rewrite H1. cbn [snd]. by autorewrite with client. }
  assert (Hf1 : faults c1 = faults c).
  { subst c1. unfold after. rewrite H1. cbn [snd]. by autorewrite with client. }
  assert (H2 : deleteProject id (with_now t c1) = _)
    by (apply deleteProject_run; autorewrite with client; rewrite Hf1; apply Hreach).
  assert (Hdb2 : projects (db c2)
                 = updateWhereId id (deactivate t) (projects (db c1))).
  { subst c2. unfold after. rewrite H2. cbn [snd]. by autorewrite with client. }
  assert (Hf2 : faults c2 = faults c).
  { subst c2. unfold after. rewrite H2. cbn [snd]. by autorewrite with client. }
  assert (Hget : forall c', faults c' = faults c ->
            result_of (getProjects noFilters c') = Val (activeProjects c')).
  { intros c' Hc'. rewrite getProjects_run by (rewrite Hc'; apply Hreach).
    unfold activeProjects, limited, noFilters. cbn [limit]. do 2 f_equal.
    apply filter_ext. intros r. apply selected_noFilters. }
  assert (Hact : activeProjects c2 = activeProjects c1).
  { unfold activeProjects. rewrite Hdb2, Hdb1.
    by rewrite active_after_second_deactivate. }
  split; [unfold result_of; by rewrite H1|].
  split; [rewrite Hdb1; by apply updateWhereId_ids|].
  split; [exact Hdb1|].
  split.
  { intros r. unfold activeProjects. rewrite Hdb1, active_after_deactivate.
    rewrite !orderDesc_elem, !elem_of_List_filter, andb_true_iff, negb_true_iff.
    rewrite String.eqb_neq. tauto. }
  split; [by apply Hget|].
  split; [unfold result_of; by rewrite H2|].
  split; [exact Hact|].
  split; [rewrite <- Hact; by apply Hget|].
  split; [rewrite Hdb2; by apply updateWhereId_ids | exact Hdb2].
Qed.

Lemma deleteProject_is_soft_and_idempotent_witness :
  reachable demoClient
  /\ result_of (deleteProject "p1" demoClient) = Val true
  /\ activeProjects (after (deleteProject "p1")
                       (with_now 9000 (after (deleteProject "p1") demoClient)))
     = activeProjects (after (deleteProject "p1") demoClient).
Proof.
  assert (H : reachable demoClient) by (intros n; reflexivity).
  split; [exact H|].
  destruct (deleteProject_is_soft_and_idempotent demoClient "p1" 9000 H)
    as (H1 & _ & _ & _ & _ & _ & H7 & _).
  split; [exact H1 | exact H7].
Defined.

(** ** Invariants of monadic code *)

Lemma preserves_ret {A} I (a : A) : preserves I (ret a).
Proof. intros c H. exact H. Qed.

Lemma preserves_throw {A} I e : preserves I (@throw Client A e).
Proof. intros c H. exact H. Qed.

Lemma preserves_gets {A} I (f : Client -> A) : preserves I (gets f).
Proof. intros c H. exact H. Qed.

Lemma preserves_bind {A B} I (m : M Client A) (k : A -> M Client B) :
  preserves I m -> (forall a, preserves I (k a)) -> preserves I (bind m k).
Proof.
  intros Hm Hk c H. unfold bind. specialize (Hm c H).
  destruct (m c) as [[a|e] c']; cbn [snd] in *; [by apply Hk | exact Hm].
Qed.

Lemma preserves_try_catch {A} I (m : M Client A) h :
  preserves I m -> (forall e, preserves I (h e)) -> preserves I (try_catch m h).
Proof.
  intros Hm Hh c H. unfold try_catch. specialize (Hm c H).
  destruct (m c) as [[a|e] c']; cbn [snd] in *; [exact Hm | by apply Hh].
Qed.

Lemma preserves_modify I g :
  (forall c, I c -> I (g c)) -> preserves I (modify g).
Proof. intros Hg c H. by apply Hg. Qed.

Lemma preserves_emit I e :
  (forall c l, I c -> I (with_log l c)) -> preserves I (emit e).
Proof. intros Hl. apply preserves_modify. intros c H. by apply Hl. Qed.

Lemma preserves_request I e :
  (forall c l, I c -> I (with_log l c)) ->
  (forall c n, I c -> I (with_calls n c)) ->
  preserves I (request e).
Proof.
  intros Hl Hn. unfold request.
  apply preserves_bind; [apply preserves_gets|]. intros c0.
  apply preserves_bind; [|intros; apply preserves_ret].
  apply preserves_modify. intros c H. by apply Hn, Hl.
Qed.

(** Decompose a goal [preserves I m] along the structure of [m]. *)
Ltac preserve_step :=
  match goal with
  | |- preserves _ (bind _ _) => apply preserves_bind; [|intros ?]
  | |- preserves _ (try_catch _ _) => apply preserves_try_catch; [|intros ?]
  | |- preserves _ (ret _) => apply preserves_ret
  | |- preserves _ (throw _) => apply preserves_throw
  | |- preserves _ (gets _) => apply preserves_gets
  | |- preserves _ (request _) => apply preserves_request
  | |- preserves _ (emit _) => apply preserves_emit
  | |- preserves _ (consoleLog _) => apply preserves_emit
  | |- preserves _ (consoleError _) => apply preserves_emit
  | |- preserves _ (modify _) => apply preserves_modify
  | |- preserves _ (match ?b with _ => _ end) => destruct b
  end.

Ltac preserve := repeat preserve_step.

Section QuietInvariant.
Variable I : Client -> Prop.
Hypothesis HI : Quiet I.

Ltac quiet :=
  intros; cbv beta;
  first [ apply (quiet_log _ HI) | apply (quiet_calls _ HI)
        | apply (quiet_blocked _ HI) | apply (quiet_attempts _ HI) ];
  assumption.

Lemma getUserIP_preserves : preserves I getUserIP.
Proof. unfold getUserIP. preserve; quiet. Qed.

Lemma isIPBlocked_preserves : preserves I isIPBlocked.
Proof.
  unfold isIPBlocked. preserve; try quiet. apply getUserIP_preserves.
Qed.

Lemma getFailedLoginAttempts_preserves : preserves I getFailedLoginAttempts.
Proof.
  unfold getFailedLoginAttempts. preserve; try quiet. apply getUserIP_preserves.
Qed.

Lemma recordFailedLogin_preserves : preserves I recordFailedLogin.
Proof.
  unfold recordFailedLogin. preserve; try quiet. apply getUserIP_preserves.
Qed.

Lemma clearFailedLoginAttempts_preserves : preserves I clearFailedLoginAttempts.
Proof.
  unfold clearFailedLoginAttempts. preserve; try quiet. apply getUserIP_preserves.
Qed.

Lemma blockIP_preserves : preserves I blockIP.
Proof.
  unfold blockIP, sendIPBlockNotification. preserve; try quiet.
  apply getUserIP_preserves.
Qed.

Lemma verifyAdminPrivileges_preserves userId :
  preserves I (verifyAdminPrivileges userId).
Proof. unfold verifyAdminPrivileges. preserve; quiet. Qed.

End QuietInvariant.

(** ** Login without admin membership *)

Lemma verifyAdminPrivileges_no_row userId c :
  filter (fun r => au_user_id r = userId /\ au_is_active r = true)
    (admin_users (db c)) = [] ->
  verifyAdminPrivileges userId c
  = (Val false,
     with_calls (S (calls c)) (with_log (log c ++ [SelectAdminUser userId]) c)).
Proof.
  intros H. unfold verifyAdminPrivileges.
  erewrite catch_val; [reflexivity|].
  erewrite bind_val by apply request_run.
  erewrite bind_val by reflexivity.
  autorewrite with client. rewrite H.
  by destruct (negb _).
Qed.

Lemma signOut_run c : signOut c = (Val tt, signedOut c).
Proof.
  unfold signOut, signedOut.
  erewrite bind_val by apply request_run.
  destruct (faults c (calls c)); cbn [negb]; [reflexivity|].
  unfold authStateChanged, consoleLog, clearSensitiveData, emit, bind, modify.
  rewrite String.eqb_refl. reflexivity.
Qed.

Lemma getUserIP_run c :
  getUserIP c
  = (Val (if faults c (calls c) then "unknown" else ip c),
     with_calls (S (calls c)) (with_log (log c ++ [FetchIp]) c)).
Proof.
  unfold getUserIP. erewrite bind_val by apply request_run.
  erewrite bind_val by reflexivity. autorewrite with client.
  by destruct (faults c (calls c)).
Qed.

Lemma recordFailedLogin_returns c :
  exists c',
    recordFailedLogin c = (Val tt, c')
    /\ authUser c' = authUser c /\ adminSession c' = adminSession c
    /\ exists evs, log c' = log c ++ evs.
Proof.
  unfold recordFailedLogin.
  eexists. split.
  - erewrite catch_val; [reflexivity|].
    erewrite bind_val by apply getUserIP_run.
    erewrite bind_val by reflexivity.
    erewrite bind_val by apply request_run.
    autorewrite with client.
    instantiate (1 := if negb (faults c (S (calls c))) then _ else _).
    destruct (negb (faults c (S (calls c)))); reflexivity.
  - destruct (negb (faults c (S (calls c)))); autorewrite with client;
      (split; [reflexivity|]); (split; [reflexivity|]);
      eexists; rewrite <- app_assoc; reflexivity.
Qed.

Lemma quiet_config v : Quiet (fun c => config c = v).
Proof. split; intros; autorewrite with client; assumption. Qed.

Lemma quiet_admin_users v : Quiet (fun c => admin_users (db c) = v).
Proof. split; intros; autorewrite with client; assumption. Qed.

Lemma signInWithPassword_db e p c : db (snd (signInWithPassword e p c)) = db c.
Proof.
  unfold signInWithPassword.
  erewrite bind_val by apply request_run. erewrite bind_val by reflexivity.
  destruct (negb (faults c (calls c))); cbn [negb]; [|reflexivity].
  autorewrite with client.
  destruct (findAccount e p (accounts c)); [|reflexivity].
  unfold authStateChanged, consoleLog, emit, bind, modify, ret.
  change (String.eqb "SIGNED_IN" "SIGNED_OUT") with false. cbv iota.
  cbn [snd]. by autorewrite with client.
Qed.

(** C4: whenever [adminLogin] gets as far as the credential check (the
    address is not blocked, fewer failed attempts than the ceiling, e-mail
    and password given) and the auth provider accepts the credentials for
    user [u], but [admin_users] holds no active row for [u], then the login
    fails with "Access denied: Admin privileges required"; right after the
    membership query the client calls [signOut] (no other request comes in
    between) and, when that request goes through, no user and no admin
    session is left. *)
Theorem login_without_admin_row_is_denied credentials c c1 n c2 u token c3 :
  isIPBlocked c = (Val false, c1) ->
  getFailedLoginAttempts c1 = (Val n, c2) ->
  (n < maxFailedAttempts (security (config c)))%nat ->
  present (email credentials) = true ->
  present (password credentials) = true ->
  signInWithPassword (default "" (email credentials))
    (default "" (password credentials)) c2 = (Val (AuthData u token), c3) ->
  adminRows (user_id u) c = [] ->
  let final := after (adminLogin credentials) c in
  result_of (adminLogin credentials c)
  = Exn "Access denied: Admin privileges required"
  /\ (exists rest,
        log final = log c3 ++ SelectAdminUser (user_id u) :: AuthSignOut :: rest)
  /\ (if faults c3 (S (calls c3)) then authUser final = authUser c3
      else authUser final = None /\ adminSession final = None).
Proof.
  intros H1 H2 Hn He Hp H4 Hrows final.
  assert (Hc1 : c1 = snd (isIPBlocked c)) by (by rewrite H1).
  assert (Hc2 : c2 = snd (getFailedLoginAttempts c1)) by (by rewrite H2).
  assert (Hc3 : c3 = snd (signInWithPassword (default "" (email credentials))
                            (default "" (password credentials)) c2))
    by (by rewrite H4).
  assert (Hcfg : config c2 = config c).
  { rewrite Hc2. apply (getFailedLoginAttempts_preserves _ (quiet_config _)).
    rewrite Hc1. by apply (isIPBlocked_preserves _ (quiet_config _)). }
  assert (Hadm : admin_users (db c3) = admin_users (db c)).
  { rewrite Hc3, signInWithPassword_db, Hc2.
    apply (getFailedLoginAttempts_preserves _ (quiet_admin_users _)).
    rewrite Hc1. by apply (isIPBlocked_preserves _ (quiet_admin_users _)). }
  assert (Hrows3 : filter (fun r => au_user_id r = user_id u /\ au_is_active r = true)
                     (admin_users (db c3)) = [])
    by (rewrite Hadm; exact Hrows).
  set (c4 := with_calls (S (calls c3))
               (with_log (log c3 ++ [SelectAdminUser (user_id u)]) c3)).
  destruct (recordFailedLogin_returns (signedOut c4))
    as (c6 & Hrec & Hau & Has & evs & Hlog).
  assert (Hrun : adminLogin credentials c
                 = (Exn "Access denied: Admin privileges required",
                    with_log (log c6 ++ [ConsoleError ("Admin login failed: " +:+
                      "Access denied: Admin privileges required")]) c6)).
  { unfold adminLogin. erewrite catch_exn; [reflexivity|].
    erewrite bind_val by exact H1. cbv iota.
    erewrite bind_val by exact H2. erewrite bind_val by reflexivity.
    rewrite Hcfg. apply Nat.leb_gt in Hn. rewrite Hn, He, Hp. cbn [negb orb].
    erewrite bind_val by exact H4. cbv iota.
    erewrite bind_val by (apply verifyAdminPrivileges_no_row; exact Hrows3).
    cbn [negb]. fold c4.
    erewrite bind_val by apply signOut_run.
    erewrite bind_val by exact Hrec. reflexivity. }
  subst final. unfold result_of, after. rewrite Hrun. cbn [fst snd].
  autorewrite with client. rewrite Hau, Has, Hlog.
  split; [reflexivity|]. split.
  - unfold signedOut. change (faults c4) with (faults c3).
    change (calls c4) with (S (calls c3)).
    destruct (faults c3 (S (calls c3))); autorewrite with client; subst c4;
      autorewrite with client; rewrite <- !app_assoc; eexists; reflexivity.
  - unfold signedOut. change (faults c4) with (faults c3).
    change (calls c4) with (S (calls c3)).
    destruct (faults c3 (S (calls c3))); autorewrite with client; subst c4;
      autorewrite with client; [reflexivity | split; reflexivity].
Qed.

Lemma login_without_admin_row_is_denied_witness :
  let c1 := after isIPBlocked demoClient in
  let c2 := after getFailedLoginAttempts c1 in
  let c3 := after (signInWithPassword "bob@example.com" "battery staple") c2 in
  isIPBlocked demoClient = (Val false, c1)
  /\ getFailedLoginAttempts c1 = (Val 0%nat, c2)
  /\ (0 < maxFailedAttempts (security (config demoClient)))%nat
  /\ present (email bobLogin) = true
  /\ present (password bobLogin) = true
  /\ signInWithPassword "bob@example.com" "battery staple" c2
     = (Val (AuthData bob "token-u-bob"), c3)
  /\ adminRows (user_id bob) demoClient = []
  /\ result_of (adminLogin bobLogin demoClient)
     = Exn "Access denied: Admin privileges required"
  /\ authUser (after (adminLogin bobLogin) demoClient) = None.
Proof.
  intros c1 c2 c3.
  assert (H1 : isIPBlocked demoClient = (Val false, c1)) by (vm_compute; reflexivity).
  assert (H2 : getFailedLoginAttempts c1 = (Val 0%nat, c2)) by (vm_compute; reflexivity).
  assert (H3 : (0 < maxFailedAttempts (security (config demoClient)))%nat)
    by (vm_compute; lia).
  assert (H4 : present (email bobLogin) = true) by reflexivity.
  assert (H5 : present (password bobLogin) = true) by reflexivity.
  assert (H6 : signInWithPassword "bob@example.com" "battery staple" c2
               = (Val (AuthData bob "token-u-bob"), c3)) by (vm_compute; reflexivity).
  assert (H7 : adminRows (user_id bob) demoClient = []) by (vm_compute; reflexivity).
  pose proof (login_without_admin_row_is_denied bobLogin demoClient c1 0%nat c2 bob
                "token-u-bob" c3 H1 H2 H3 H4 H5 H6 H7) as H.
  cbv zeta in H. destruct H as (Hres & _ & Hout).
  change (faults c3 (S (calls c3))) with false in Hout. destruct Hout as [Hout _].
  repeat (split; [assumption|]). exact Hout.
Defined.

(** ** The second factor *)

Lemma bind_inv {A B} (m : M Client A) (k : A -> M Client B) c r c2 :
  bind m k c = (Val r, c2) ->
  exists a c1, m c = (Val a, c1) /\ k a c1 = (Val r, c2).
Proof.
  unfold bind. destruct (m c) as [[a|e] c1]; [|discriminate].
  intros H. by exists a, c1.
Qed.

(** A handler that logs and throws again never turns a failure into a
    result. *)
Lemma rethrow_inv {A} (m : M Client A) (label : string) c r c2 :
  try_catch m (fun error => consoleError (label ++ error) ;; throw error)%js c
  = (Val r, c2) ->
  m c = (Val r, c2).
Proof.
  unfold try_catch. destruct (m c) as [[a|e] c1]; [done|]. discriminate.
Qed.

Ltac logged_out :=
  intros; unfold loggedOut, isAdminLoggedIn in *; autorewrite with client;
  try assumption; try reflexivity.

Lemma quiet_loggedOut : Quiet loggedOut.
Proof. split; logged_out. Qed.

Lemma authStateChanged_loggedOut event : preserves loggedOut (authStateChanged event).
Proof. unfold authStateChanged, clearSensitiveData. preserve; logged_out. Qed.

Lemma signOut_loggedOut : preserves loggedOut signOut.
Proof.
  unfold signOut. preserve; try logged_out. apply authStateChanged_loggedOut.
Qed.

Lemma signInWithPassword_loggedOut e p : preserves loggedOut (signInWithPassword e p).
Proof.
  unfold signInWithPassword. preserve; try logged_out.
  apply authStateChanged_loggedOut.
Qed.

Lemma createAdminSession_run user c :
  createAdminSession user c
  = (Val {| s_id := "session_" +:+ ContactForm.ofZ (now c) +:+ "_" +:+ entropy c;
            s_user := user; s_createdAt := now c; is2FAVerified := false |}, c).
Proof. reflexivity. Qed.

(** Whatever the state before, the session installed by the last steps of
    a login is unverified. *)
Lemma install_session_loggedOut {A} user (k : M Client A) :
  preserves loggedOut k ->
  forall c, loggedOut (snd (bind (createAdminSession user) (fun created =>
              bind (modify (with_adminSession (Some created))) (fun _ => k)) c)).
Proof.
  intros Hk c. erewrite bind_val by apply createAdminSession_run.
  erewrite bind_val by reflexivity. apply Hk. logged_out.
Qed.

Lemma adminLogin_loggedOut credentials : preserves loggedOut (adminLogin credentials).
Proof.
  unfold adminLogin.
  apply preserves_try_catch; [|intros; preserve; logged_out].
  apply preserves_bind; [apply (isIPBlocked_preserves _ quiet_loggedOut)|].
  intros [|]; [apply preserves_throw|].
  apply preserves_bind; [apply (getFailedLoginAttempts_preserves _ quiet_loggedOut)|].
  intros n. apply preserves_bind; [apply preserves_gets|]. intros cfg.
  destruct (_ <=? _)%nat.
  { apply preserves_bind; [apply (blockIP_preserves _ quiet_loggedOut)|].
    intros; apply preserves_throw. }
  destruct (_ || _).
  { apply preserves_bind; [apply (recordFailedLogin_preserves _ quiet_loggedOut)|].
    intros; apply preserves_throw. }
  apply preserves_bind; [apply signInWithPassword_loggedOut|].
  intros [user session|error].
  - apply preserves_bind;
      [apply (verifyAdminPrivileges_preserves _ quiet_loggedOut)|].
    intros [|]; cbn [negb].
    + apply preserves_bind;
        [apply (clearFailedLoginAttempts_preserves _ quiet_loggedOut)|].
      intros _ c _. apply install_session_loggedOut.
      unfold send2FACode. preserve; logged_out.
    + apply preserves_bind; [apply signOut_loggedOut|]. intros _.
      apply preserves_bind;
        [apply (recordFailedLogin_preserves _ quiet_loggedOut)|].
      intros; apply preserves_throw.
  - apply preserves_bind; [apply (recordFailedLogin_preserves _ quiet_loggedOut)|].
    intros; apply preserves_throw.
Qed.

(** A login that returns leaves an unverified session behind. *)
Lemma adminLogin_returns credentials c r c' :
  adminLogin credentials c = (Val r, c') ->
  exists s, adminSession c' = Some s /\ is2FAVerified s = false.
Proof.
  unfold adminLogin. intros H. apply rethrow_inv in H.
  apply bind_inv in H as ([|] & c1 & _ & H); [discriminate|].
  apply bind_inv in H as (n & c2 & _ & H).
  apply bind_inv in H as (cfg & c2' & _ & H).
  destruct (_ <=? _)%nat.
  { apply bind_inv in H as (? & ? & _ & H). discriminate. }
  destruct (_ || _).
  { apply bind_inv in H as (? & ? & _ & H). discriminate. }
  apply bind_inv in H as ([user session|error] & c3 & _ & H).
  2: { apply bind_inv in H as (? & ? & _ & H). discriminate. }
  apply bind_inv in H as ([|] & c4 & _ & H); cbn [negb] in H.
  2: { apply bind_inv in H as (? & ? & _ & H).
       apply bind_inv in H as (? & ? & _ & H). discriminate. }
  apply bind_inv in H as (? & c5 & _ & H).
  erewrite bind_val in H by apply createAdminSession_run.
  erewrite bind_val in H by reflexivity.
  apply bind_inv in H as (? & c6 & H6 & H).
  apply bind_inv in H as (? & c7 & H7 & H).
  injection H as _ <-.
  unfold consoleLog, emit, modify in H7. injection H7 as _ <-.
  destruct (require2FA (admin cfg)).
  - unfold send2FACode, consoleLog, emit, modify in H6. injection H6 as _ <-.
    eexists. split; [autorewrite with client; reflexivity | reflexivity].
  - unfold ret in H6. injection H6 as _ <-.
    eexists. split; [autorewrite with client; reflexivity | reflexivity].
Qed.

Lemma adminLogout_loggedOut : preserves loggedOut adminLogout.
Proof.
  unfold adminLogout, invalidateAdminSession.
  preserve; try logged_out; apply signOut_loggedOut.
Qed.

Lemma sessionCheck_loggedOut : preserves loggedOut sessionCheck.
Proof.
  unfold sessionCheck, validateAdminSession.
  preserve; try logged_out; apply adminLogout_loggedOut.
Qed.

Lemma getProjects_loggedOut filters : preserves loggedOut (getProjects filters).
Proof. unfold getProjects. preserve; logged_out. Qed.

Lemma deleteProject_loggedOut id : preserves loggedOut (deleteProject id).
Proof. unfold deleteProject, setProjects. preserve; logged_out. Qed.

Lemma validateUrl_loggedOut newURL url : preserves loggedOut (validateUrl newURL url).
Proof. unfold validateUrl. preserve. Qed.

Lemma projectFields_loggedOut newURL data :
  preserves loggedOut (projectFields newURL data).
Proof.
  unfold projectFields. preserve; try logged_out; apply validateUrl_loggedOut.
Qed.

Lemma validateProjectData_loggedOut newURL data :
  preserves loggedOut (validateProjectData newURL data).
Proof. unfold validateProjectData. preserve. Qed.

Lemma createProject_loggedOut newURL data :
  preserves loggedOut (createProject newURL data).
Proof.
  unfold createProject, setProjects.
  apply preserves_try_catch; [|intros; preserve; logged_out].
  apply preserves_bind; [apply validateProjectData_loggedOut|]. intros _.
  apply preserves_bind; [apply projectFields_loggedOut|]. intros fields.
  preserve; logged_out.
Qed.

Lemma updateProject_loggedOut newURL id data :
  preserves loggedOut (updateProject newURL id data).
Proof.
  unfold updateProject, setProjects.
  apply preserves_try_catch; [|intros; preserve; logged_out].
  apply preserves_bind; [apply validateProjectData_loggedOut|]. intros _.
  apply preserves_bind; [apply projectFields_loggedOut|]. intros fields.
  preserve; logged_out.
Qed.

(** A call of [verify2FACode] that throws changes nothing but the log. *)
Lemma verify2FACode_throws code c e c' :
  verify2FACode code c = (Exn e, c') -> adminSession c' = adminSession c.
Proof.
  unfold verify2FACode, try_catch.
  erewrite bind_val by reflexivity.
  destruct (adminSession c) as [session|] eqn:Hs.
  - erewrite bind_val by reflexivity.
    destruct (String.eqb code "123456"); cbn [negb].
    + discriminate.
    + unfold throw, consoleError, emit, bind, modify. intros [= _ <-].
      by autorewrite with client.
  - unfold throw, consoleError, emit, bind, modify. intros [= _ <-].
    by autorewrite with client.
Qed.

(** With the fixed code, and a session, [verify2FACode] opens the gate. *)
Lemma verify2FACode_fixed_code c s :
  adminSession c = Some s ->
  result_of (verify2FACode "123456" c) = Val true
  /\ isAdminLoggedIn (snd (verify2FACode "123456" c)) = true.
Proof.
  intros Hs.
  assert (H : exists c', verify2FACode "123456" c = (Val true, c')
                         /\ isAdminLoggedIn c' = true).
  { eexists. split.
    - unfold verify2FACode. erewrite catch_val; [reflexivity|].
      erewrite bind_val by reflexivity. rewrite Hs.
      erewrite bind_val by reflexivity. cbn [String.eqb Ascii.eqb Bool.eqb negb].
      unfold updateAdminSession, consoleLog, emit, bind, modify, ret. reflexivity.
    - unfold isAdminLoggedIn. autorewrite with client. reflexivity. }
  destruct H as (c' & -> & H). by split.
Qed.

Lemma adminLogin_requires2FA credentials c r c' :
  adminLogin credentials c = (Val r, c') ->
  lr_requires2FA r = require2FA (admin (config c)).
Proof.
  unfold adminLogin. intros H. apply rethrow_inv in H.
  apply bind_inv in H as ([|] & c1 & H1 & H); [discriminate|].
  apply bind_inv in H as (n & c2 & H2 & H).
  apply bind_inv in H as (cfg & c2' & Hg & H).
  assert (Hcfg : cfg = config c).
  { unfold gets in Hg. injection Hg as <- <-.
    replace c2 with (snd (getFailedLoginAttempts c1)) by (by rewrite H2).
    apply (getFailedLoginAttempts_preserves _ (quiet_config _)).
    replace c1 with (snd (isIPBlocked c)) by (by rewrite H1).
    by apply (isIPBlocked_preserves _ (quiet_config _)). }
  destruct (_ <=? _)%nat.
  { apply bind_inv in H as (? & ? & _ & H). discriminate. }
  destruct (_ || _).
  { apply bind_inv in H as (? & ? & _ & H). discriminate. }
  apply bind_inv in H as ([user session|error] & c3 & _ & H).
  2: { apply bind_inv in H as (? & ? & _ & H). discriminate. }
  apply bind_inv in H as ([|] & c4 & _ & H); cbn [negb] in H.
  2: { apply bind_inv in H as (? & ? & _ & H).
       apply bind_inv in H as (? & ? & _ & H). discriminate. }
  apply bind_inv in H as (? & c5 & _ & H).
  apply bind_inv in H as (? & ? & _ & H).
  apply bind_inv in H as (? & ? & _ & H).
  apply bind_inv in H as (? & ? & _ & H).
  apply bind_inv in H as (? & ? & _ & H).
  injection H as <- _. by rewrite Hcfg.
Qed.

Lemma step_loggedOut newURL op c :
  verifies op c = false -> loggedOut c -> loggedOut (step newURL op c).
Proof.
  intros Hv Hc.
  destruct op as [credentials|thecode| | |event|filters|data|id data|id|t];
    cbn [step]; unfold after.
  - by apply adminLogin_loggedOut.
  - unfold verifies, result_of in Hv.
    destruct (verify2FACode thecode c) as [[a|e] c'] eqn:E; [discriminate|].
    cbn [snd]. unfold loggedOut, isAdminLoggedIn in *.
    by rewrite (verify2FACode_throws _ _ _ _ E).
  - by apply adminLogout_loggedOut.
  - by apply sessionCheck_loggedOut.
  - by apply authStateChanged_loggedOut.
  - by apply getProjects_loggedOut.
  - by apply createProject_loggedOut.
  - by apply updateProject_loggedOut.
  - by apply deleteProject_loggedOut.
  - exact Hc.
Qed.

Lemma run_loggedOut newURL ops : forall c,
  unverified newURL ops c = true -> loggedOut c -> loggedOut (run newURL ops c).
Proof.
  induction ops as [|op ops IH]; intros c Hu Hc; [exact Hc|].
  cbn [unverified] in Hu. apply andb_prop in Hu as [Hv Hu].
  apply negb_true_iff in Hv.
  cbn [run fold_left]. apply IH; [exact Hu|]. by apply step_loggedOut.
Qed.

(** C10: [isAdminLoggedIn] is true exactly when there is an admin session
    whose 2FA flag is set.  A login that succeeds (with or without 2FA
    required) leaves a session whose flag is not set, and after any further
    sequence of operations of the client (logins, logouts, failed
    verifications, session checks, auth events, project operations, clock
    changes) none of which is a call of [verify2FACode] that returns,
    [isAdminLoggedIn] is false; a call of [verify2FACode] with the fixed code
    "123456" right after the login returns [true] and makes it true. *)
Theorem not_logged_in_before_second_factor newURL credentials c r c1 ops :
  adminLogin credentials c = (Val r, c1) ->
  unverified newURL ops c1 = true ->
  (forall c', isAdminLoggedIn c' = true
              <-> exists s, adminSession c' = Some s /\ is2FAVerified s = true)
  /\ (exists s, adminSession c1 = Some s /\ is2FAVerified s = false)
  /\ lr_requires2FA r = require2FA (admin (config c))
  /\ isAdminLoggedIn c1 = false
  /\ isAdminLoggedIn (run newURL ops c1) = false
  /\ result_of (verify2FACode "123456" c1) = Val true
  /\ isAdminLoggedIn (after (verify2FACode "123456") c1) = true.
Proof.
  intros Hlogin Hops.
  destruct (adminLogin_returns _ _ _ _ Hlogin) as (s & Hs & Hflag).
  assert (Hout : loggedOut c1).
  { unfold loggedOut, isAdminLoggedIn. by rewrite Hs. }
  split.
  { intros c'. unfold isAdminLoggedIn. destruct (adminSession c') as [s'|].
    - split; [by exists s' | by intros (? & [= <-] & ?)].
    - split; [discriminate | by intros (? & [=] & _)]. }
  split; [by exists s|].
  split; [by apply (adminLogin_requires2FA _ _ _ _ Hlogin)|].
  split; [exact Hout|].
  split; [by apply run_loggedOut|].
  apply (verify2FACode_fixed_code c1 s Hs).
Qed.

Lemma not_logged_in_before_second_factor_witness :
  let c1 := after (adminLogin aliceLogin) demoClient in
  let r := {| lr_user := alice; lr_session := "token-u-alice";
              lr_requires2FA := true |} in
  let ops := [OpVerify "000000"; OpGetProjects noFilters; OpSessionCheck;
              OpDeleteProject "p1"; OpClock 9000] in
  adminLogin aliceLogin demoClient = (Val r, c1)
  /\ unverified hasScheme ops c1 = true
  /\ isAdminLoggedIn (run hasScheme ops c1) = false
  /\ isAdminLoggedIn (after (verify2FACode "123456") c1) = true.
Proof.
  intros c1 r ops.
  assert (H1 : adminLogin aliceLogin demoClient = (Val r, c1))
    by (vm_compute; reflexivity).
  assert (H2 : unverified hasScheme ops c1 = true) by (vm_compute; reflexivity).
  destruct (not_logged_in_before_second_factor hasScheme aliceLogin demoClient
              r c1 ops H1 H2) as (_ & _ & _ & _ & H5 & _ & H7).
  repeat (split; [assumption|]). exact H7.
Defined.

End ClientProofs.

(** * Further properties of the contact form *)

Module FormExtraProofs.
Import Js ContactForm FormReadings FormSetup FormProofs.
Local Open Scope list_scope.

#[local] Hint Rewrite
  elements_with_elements formState_with_elements localStorage_with_elements
  config_with_elements env_with_elements log_with_elements
  elements_with_formState formState_with_formState localStorage_with_formState
  config_with_formState env_with_formState log_with_formState
  elements_with_localStorage formState_with_localStorage
  localStorage_with_localStorage config_with_localStorage env_with_localStorage
  log_with_localStorage
  elements_with_env formState_with_env localStorage_with_env config_with_env
  env_with_env log_with_env
  elements_with_log formState_with_log localStorage_with_log config_with_log
  env_with_log log_with_log : page.

(** ** Strings as lists of code units *)

Lemma chars_str l : chars (str l) = l.
Proof. apply list_ascii_of_string_of_list_ascii. Qed.

Lemma str_chars s : str (chars s) = s.
Proof. apply string_of_list_ascii_of_string. Qed.

Lemma len_chars s : len s = length (chars s).
Proof.
  unfold len, chars. induction s as [|c s IH]; simpl; [reflexivity | by f_equal].
Qed.

Lemma len_str l : len (str l) = length l.
Proof. by rewrite len_chars, chars_str. Qed.

Lemma chars_substring m s : chars (substring 0 m s) = take m (chars s).
Proof.
  revert s. induction m as [|m IH]; intros [|c s]; simpl; try reflexivity.
  by rewrite IH.
Qed.

Lemma chars_stripAngle s :
  chars (stripAngle s) = filter (fun c => negb (isAngle c)) (chars s).
Proof. unfold stripAngle. by rewrite chars_str. Qed.

Lemma chars_inj s s' : chars s = chars s' -> s = s'.
Proof. intros H. by rewrite <- (str_chars s), H, str_chars. Qed.

Lemma filter_all {A} (P : A -> Prop) `{!forall x, Decision (P x)} (l : list A) :
  Forall P l -> filter P l = l.
Proof.
  induction 1 as [|x l Hx _ IH]; [reflexivity|].
  by rewrite filter_cons_True, IH.
Qed.

Lemma filter_holds {A} (P : A -> Prop) `{!forall x, Decision (P x)} (l : list A) :
  Forall P (filter P l).
Proof. apply Forall_forall. intros x Hx. by apply list_elem_of_filter in Hx as [? _]. Qed.

Lemma take_filter_filter {A} (P : A -> Prop) `{!forall x, Decision (P x)} k (l : list A) :
  filter P (take k (filter P l)) = take k (filter P l).
Proof. apply filter_all, Forall_take, filter_holds. Qed.

(** ** Sanitizing what is typed *)

Lemma clip_chars m value :
  exists k, chars (clip m value) = take k (chars value)
            /\ (forall n, m = Some n -> (0 < n)%nat -> (len (clip m value) <= n)%nat).
Proof.
  unfold clip. destruct m as [n|].
  - destruct (0 <? n)%nat eqn:H0; cbn [andb].
    + destruct (n <? len value)%nat eqn:Hn.
      * exists n. split; [apply chars_substring|].
        intros n' [= <-] _. rewrite len_chars, chars_substring, length_take. lia.
      * exists (length (chars value)). split; [by rewrite firstn_all|].
        intros n' [= <-] _. apply Nat.ltb_ge in Hn. exact Hn.
    + exists (length (chars value)). split; [by rewrite firstn_all|].
      intros n' [= <-] Hpos. apply Nat.ltb_ge in H0. lia.
  - exists (length (chars value)). split; [by rewrite firstn_all|]. discriminate.
Qed.

Lemma sanitizeInput_run t p :
  sanitizeInput t p
  = (Val tt,
     with_elements
       (assign t (clip (maxLengthOf (config p) (in_name (control t (elements p))))
                    (stripAngle (in_value (control t (elements p)))))
          (elements p)) p).
Proof. reflexivity. Qed.

Lemma control_assign t v els : control t (assign t v els)
  = {| in_name := in_name (control t els); in_value := v |}.
Proof. by destruct t. Qed.

Lemma control_assign_ne t t' v els :
  t' <> t -> control t' (assign t v els) = control t' els.
Proof. by destruct t, t'. Qed.

Lemma assign_assign t v v' els : assign t v' (assign t v els) = assign t v' els.
Proof. by destruct t. Qed.

Lemma honeypot_assign t v els : honeypot (assign t v els) = honeypot els.
Proof. by destruct t. Qed.

(** Clipping what has been stripped and clipped changes nothing. *)
Lemma clip_strip_fixed m value :
  let v := clip m (stripAngle value) in
  clip m (stripAngle v) = v.
Proof.
  intros v.
  destruct (clip_chars m (stripAngle value)) as (k & Hk & Hlen). fold v in Hk, Hlen.
  assert (Hs : stripAngle v = v).
  { apply chars_inj. rewrite chars_stripAngle, Hk, chars_stripAngle.
    apply take_filter_filter. }
  rewrite Hs. unfold clip at 1. destruct m as [n|]; [|reflexivity].
  destruct (0 <? n)%nat eqn:H0; [|reflexivity]. cbn [andb].
  apply Nat.ltb_lt in H0. specialize (Hlen n eq_refl H0).
  apply Nat.ltb_ge in Hlen. by rewrite Hlen.
Qed.

(** X1: [sanitizeInput] never throws; afterwards the value of the
    control holds no angle bracket, is a prefix of the old value without
    its angle brackets, and has at most [maxLength] characters when the
    rule of the control has a (non-zero) [maxLength]; the name of the
    control, the other controls, the form state, the local storage and the
    log are untouched; and sanitizing again changes nothing. *)
Theorem sanitizeInput_strips_and_clips t p :
  let q := after (sanitizeInput t) p in
  let old := in_value (control t (elements p)) in
  let v := in_value (control t (elements q)) in
  result_of (sanitizeInput t p) = Val tt
  /\ Forall (fun c => isAngle c = false) (chars v)
  /\ (exists k, chars v = take k (filter (fun c => negb (isAngle c)) (chars old)))
  /\ (forall rule m,
        validation (config p) !! in_name (control t (elements p)) = Some rule ->
        maxLength rule = Some m -> (0 < m)%nat -> (len v <= m)%nat)
  /\ in_name (control t (elements q)) = in_name (control t (elements p))
  /\ (forall t', t' <> t -> control t' (elements q) = control t' (elements p))
  /\ honeypot (elements q) = honeypot (elements p)
  /\ formState q = formState p
  /\ localStorage q = localStorage p
  /\ log q = log p
  /\ after (sanitizeInput t) q = q.
Proof.
  intros q old v. subst q v. unfold after, result_of.
  rewrite sanitizeInput_run. cbn [fst snd]. autorewrite with page.
  rewrite control_assign. cbn [in_name in_value].
  set (m := maxLengthOf (config p) (in_name (control t (elements p)))).
  destruct (clip_chars m (stripAngle old)) as (k & Hk & Hlen).
  fold old. split; [reflexivity|]. split; [|split; [|split]].
  - rewrite Hk, chars_stripAngle. apply Forall_take.
    eapply Forall_impl; [apply filter_holds|].
    intros c Hc. cbv beta in Hc. by destruct (isAngle c).
  - exists k. by rewrite Hk, chars_stripAngle.
  - intros rule n Hrule Hmax Hpos. apply Hlen; [|exact Hpos].
    subst m. unfold maxLengthOf. by rewrite Hrule.
  - split; [reflexivity|]. split; [intros t' Ht'; by apply control_assign_ne|].
    split; [apply honeypot_assign|]. do 3 (split; [reflexivity|]).
    rewrite sanitizeInput_run. autorewrite with page.
    rewrite control_assign. cbn [in_name in_value]. fold m.
    rewrite assign_assign.
    pose proof (clip_strip_fixed m old) as Hfix. cbv zeta in Hfix. rewrite Hfix.
    apply page_ext; by autorewrite with page.
Qed.

(** ** What is typed is never too long *)

Lemma length_dropSpace l : (length (dropSpace l) <= length l)%nat.
Proof.
  induction l as [|c l IH]; simpl; [lia|].
  destruct (isSpace c); simpl; lia.
Qed.

Lemma len_trim s : (len (trim s) <= len s)%nat.
Proof.
  unfold trim, trimChars. rewrite len_str, length_rev, (len_chars s).
  etransitivity; [apply length_dropSpace|]. rewrite length_rev.
  apply length_dropSpace.
Qed.

Lemma append_inv_head (x a b : string) : x +:+ a = x +:+ b -> a = b.
Proof. induction x as [|c x IH]; simpl; [done|]. intros [= H]. by apply IH. Qed.

Lemma append_nonempty (x : string) c r : x +:+ String c r <> "".
Proof. by destruct x. Qed.

(** Without the length bound violated, the message of [validateField]
    is not the one for a value that is too long. *)
Lemma checkValue_not_too_long fieldName rule value :
  tooLong rule value = false ->
  snd (checkValue fieldName rule value) <> tooLongMessage fieldName rule.
Proof.
  intros Hl. unfold checkValue, tooLongMessage. rewrite Hl.
  destruct (negb (truthy value)); cbn [snd].
  { intros H. apply append_inv_head in H. discriminate. }
  destruct (tooShort rule value); cbn [snd].
  { intros H. apply append_inv_head in H. discriminate. }
  destruct (patternFails rule value); cbn [snd].
  - destruct (String.eqb fieldName "email") eqn:He.
    { apply String.eqb_eq in He. subst fieldName. discriminate. }
    destruct (String.eqb fieldName "name") eqn:Hn.
    { apply String.eqb_eq in Hn. subst fieldName. discriminate. }
    intros H. apply append_inv_head in H. discriminate.
  - intros H. symmetry in H. by apply append_nonempty in H.
Qed.

Lemma inputThenValidate_run t p :
  let q := after (sanitizeInput t) p in
  exists errs v,
    inputThenValidate t p
    = (Val (fieldValid (config p) (control t (elements q))),
       revalidated errs v (fieldMarks (config p) (control t (elements q))) q).
Proof.
  intros q. unfold inputThenValidate.
  erewrite bind_run by apply sanitizeInput_run.
  erewrite bind_run by reflexivity.
  apply (validateField_run (control t (elements q)) q).
Qed.

(** X2: once [sanitizeInput] has run on a control, the trimmed value of
    that control does not exceed the [maxLength] of its rule, so the
    validation that follows never reports
    "... must be less than N characters" for it. *)
Theorem sanitized_input_is_never_too_long t p rule :
  validation (config p) !! in_name (control t (elements p)) = Some rule ->
  let q := after (sanitizeInput t) p in
  let field := control t (elements q) in
  tooLong rule (trim (in_value field)) = false
  /\ forall ok msg,
       FieldMark (in_name field) ok msg ∈ events (inputThenValidate t) p ->
       msg <> tooLongMessage (in_name field) rule.
Proof.
  intros Hrule q field.
  assert (Hname : in_name field = in_name (control t (elements p))).
  { subst field q. unfold after. rewrite sanitizeInput_run. cbn [snd].
    autorewrite with page. by rewrite control_assign. }
  assert (Hlong : tooLong rule (trim (in_value field)) = false).
  { unfold tooLong. destruct (maxLength rule) as [m|] eqn:Hm; [|reflexivity].
    destruct (0 <? m)%nat eqn:H0; [|reflexivity]. cbn [andb].
    apply Nat.ltb_ge. etransitivity; [apply len_trim|].
    apply Nat.ltb_lt in H0.
    subst field q. unfold after. rewrite sanitizeInput_run. cbn [snd].
    autorewrite with page. rewrite control_assign. cbn [in_value].
    destruct (clip_chars (maxLengthOf (config p) (in_name (control t (elements p))))
                (stripAngle (in_value (control t (elements p)))))
      as (k & _ & Hlen).
    apply Hlen; [|exact H0]. unfold maxLengthOf. by rewrite Hrule. }
  split; [exact Hlong|].
  intros ok msg Hin.
  destruct (inputThenValidate_run t p) as (errs & v & Hrun). cbv zeta in Hrun.
  fold q in Hrun. fold field in Hrun.
  assert (Hlog : log (revalidated errs v (fieldMarks (config p) field) q)
                 = log p ++ fieldMarks (config p) field).
  { unfold revalidated. autorewrite with page.
    subst q. unfold after. rewrite sanitizeInput_run. cbn [snd].
    by autorewrite with page. }
  rewrite (events_of _ _ _ _ _ Hrun Hlog) in Hin.
  unfold fieldMarks, fieldChecked in Hin. rewrite Hname, Hrule in Hin.
  destruct (negb (truthy _) || _); [inversion Hin|].
  apply list_elem_of_singleton in Hin. injection Hin as _ ->.
  rewrite Hname. by apply checkValue_not_too_long.
Qed.

Lemma sanitized_input_is_never_too_long_witness :
  let p := fill (fromJo 0) freshPage in
  validation (config p) !! in_name (control NameControl (elements p))
  = Some {| minLength := Some 2%nat; maxLength := Some 50%nat;
            pattern := Some Re.namePattern |}
  /\ tooLong {| minLength := Some 2%nat; maxLength := Some 50%nat;
                pattern := Some Re.namePattern |}
       (trim (in_value (control NameControl
                          (elements (after (sanitizeInput NameControl) p))))) = false.
Proof.
  intros p.
  assert (H : validation (config p) !! in_name (control NameControl (elements p))
              = Some {| minLength := Some 2%nat; maxLength := Some 50%nat;
                        pattern := Some Re.namePattern |}) by reflexivity.
  split; [exact H|].
  exact (proj1 (sanitized_input_is_never_too_long NameControl p _ H)).
Defined.

(** ** The rate limiter at page load *)

Lemma saveSubmissionHistory_val h p :
  saveSubmissionHistory h p
  = (Val tt,
     if available (localStorage p)
     then with_localStorage
            {| available := true;
               items := <[rateLimitKey (security (config p)) := h]>
                        (items (localStorage p)) |} p
     else with_log (log p ++ [cannotSave]) p).
Proof.
  rewrite saveSubmissionHistory_run. by destruct (available (localStorage p)).
Qed.

Lemma checkRateLimit_run p :
  checkRateLimit p
  = (Val (underLimit p),
     if available (localStorage p)
     then with_localStorage
            {| available := true;
               items := <[rateLimitKey (security (config p))
                          := recent (nowCheck (env p)) (history p)]>
                        (items (localStorage p)) |} p
     else with_log (log p ++ [cannotSave]) p).
Proof.
  unfold checkRateLimit.
  erewrite bind_run by reflexivity.
  erewrite bind_run by apply getSubmissionHistory_run.
  erewrite bind_run by apply saveSubmissionHistory_val.
  unfold underLimit, recent.
  destruct (available (localStorage p)) eqn:Ha; reflexivity.
Qed.

Lemma initializeRateLimiting_run now p :
  initializeRateLimiting now p
  = (Val tt,
     if available (localStorage p)
     then with_localStorage
            {| available := true;
               items := <[rateLimitKey (security (config p))
                          := recent now (history p)]>
                        (items (localStorage p)) |} p
     else with_log (log p ++ [cannotSave]) p).
Proof.
  unfold initializeRateLimiting.
  erewrite bind_run by apply getSubmissionHistory_run.
  apply saveSubmissionHistory_val.
Qed.

Lemma recent_later now0 now h :
  (now0 <= now)%Z -> recent now (recent now0 h) = recent now h.
Proof.
  intros Hle. unfold recent. induction h as [|t h IH]; [reflexivity|].
  rewrite !filter_cons.
  destruct (decide (now0 - 60 * 60 * 1000 < t)%Z) as [H0|H0].
  - rewrite filter_cons. destruct (decide (now - 60 * 60 * 1000 < t)%Z);
      by rewrite IH.
  - rewrite decide_False by lia. exact IH.
Qed.

Lemma recent_holds now h :
  Forall (fun t => (now - 60 * 60 * 1000 < t)%Z) (recent now h).
Proof. apply filter_holds. Qed.

(** The history read back after [h] has been saved. *)
Lemma history_saved h p :
  available (localStorage p) = true ->
  history (with_localStorage
             {| available := true;
                items := <[rateLimitKey (security (config p)) := h]>
                         (items (localStorage p)) |} p) = h.
Proof.
  intros _. unfold history. autorewrite with page. cbn [available items].
  by rewrite lookup_insert_eq.
Qed.

Lemma history_unavailable p : available (localStorage p) = false -> history p = [].
Proof. intros H. unfold history. by rewrite H. Qed.

(** On a page whose stored history is an array, [initializeRateLimiting]
    leaves in the stored history exactly the instants less than one hour
    older than the instant of the page load; a rate-limit check made at
    that instant or later gives the same verdict, and leaves the same
    history, as it would have without the pruning; with a working local
    storage, pruning twice is pruning once. *)
Lemma pruning_on_the_page now0 p :
  (now0 <= nowCheck (env p))%Z ->
  let q := after (initializeRateLimiting now0) p in
  result_of (initializeRateLimiting now0 p) = Val tt
  /\ history q = recent now0 (history p)
  /\ Forall (fun t => (now0 - 60 * 60 * 1000 < t)%Z) (history q)
  /\ result_of (checkRateLimit q) = result_of (checkRateLimit p)
  /\ history (after checkRateLimit q) = history (after checkRateLimit p)
  /\ (available (localStorage p) = true ->
      after (initializeRateLimiting now0) q = q).
Proof.
  intros Hle q.
  assert (Hq : history q = recent now0 (history p)).
  { subst q. unfold after. rewrite initializeRateLimiting_run. cbn [snd].
    destruct (available (localStorage p)) eqn:Ha.
    - by apply history_saved.
    - rewrite (history_unavailable p Ha).
      apply history_unavailable. by autorewrite with page. }
  assert (Henv : env q = env p /\ config q = config p
                 /\ available (localStorage q) = available (localStorage p)).
  { subst q. unfold after. rewrite initializeRateLimiting_run. cbn [snd].
    destruct (available (localStorage p)) eqn:Ha; autorewrite with page;
      by rewrite ?Ha. }
  destruct Henv as (He & Hc & Hav).
  split; [unfold result_of; by rewrite initializeRateLimiting_run|].
  split; [exact Hq|].
  split; [rewrite Hq; apply recent_holds|].
  split.
  { unfold result_of. rewrite !checkRateLimit_run. cbn [fst].
    unfold underLimit. by rewrite Hq, He, Hc, recent_later. }
  split.
  { unfold after. rewrite !checkRateLimit_run. cbn [snd]. rewrite Hav.
    destruct (available (localStorage p)) eqn:Ha.
    - rewrite !history_saved by (by rewrite ?Hav).
      by rewrite Hq, He, recent_later.
    - rewrite !history_unavailable; [reflexivity| |]; by autorewrite with page;
        rewrite ?Hav. }
  intros Ha. unfold after at 1. rewrite initializeRateLimiting_run. cbn [snd].
  rewrite Hav, Ha, Hq, Hc.
  rewrite (recent_later now0 now0) by lia.
  subst q. unfold after. rewrite initializeRateLimiting_run. cbn [snd].
  rewrite Ha. apply page_ext; autorewrite with page; try reflexivity.
  cbn [items]. by rewrite insert_insert_eq.
Qed.

(** ** The three ways a submission ends *)

Lemma history_ext p q :
  localStorage q = localStorage p -> config q = config p -> history q = history p.
Proof. intros H1 H2. unfold history. by rewrite H1, H2. Qed.

Lemma history_checkedStorage p :
  history (with_localStorage (checkedStorage p) p)
  = if honeypotFilled (elements p) then history p
    else recent (nowCheck (env p)) (history p).
Proof.
  unfold checkedStorage.
  destruct (honeypotFilled (elements p)).
  - apply history_ext; by autorewrite with page.
  - destruct (available (localStorage p)) eqn:Ha.
    + by apply history_saved.
    + rewrite (history_unavailable p Ha).
      apply history_unavailable. autorewrite with page. exact Ha.
Qed.

Lemma history_recent_sub now h t : t ∈ recent now h -> t ∈ h.
Proof. unfold recent. intros H. by apply list_elem_of_filter in H as [_ ?]. Qed.

Lemma goesThrough_false p :
  isSubmitting (formState p) = false ->
  goesThrough p = false ->
  allValid (config p) (elements p) && securityOk p = false
  \/ (allValid (config p) (elements p) && securityOk p = true
      /\ exists msg, mailFailure p = Some msg).
Proof.
  unfold goesThrough. intros Hs H. rewrite Hs in H. cbn [negb andb] in H.
  destruct (allValid (config p) (elements p) && securityOk p) eqn:Hv.
  - right. split; [reflexivity|]. cbn [andb] in H.
    destruct (mailFailure p) as [msg|]; [by exists msg | discriminate].
  - by left.
Qed.

Lemma goesThrough_true p :
  goesThrough p = true ->
  isSubmitting (formState p) = false
  /\ allValid (config p) (elements p) && securityOk p = true
  /\ mailFailure p = None.
Proof.
  unfold goesThrough. intros H.
  apply andb_prop in H as [H Hm]. apply andb_prop in H as [H Hsec].
  apply andb_prop in H as [Hs Hv]. apply negb_true_iff in Hs.
  rewrite Hv, Hsec. destruct (mailFailure p); [discriminate|]. done.
Qed.









(** X6: only a submission that went through is recorded.  When all
    fields are valid, the security checks pass and the mail service
    answers 200, the instant of the submission is appended to the recent
    part of the stored history (nothing can be stored when the local
    storage does not work).  In every other case no instant is added: the
    stored history afterwards is the one before, or its recent part. *)
Theorem only_sent_submissions_are_recorded p :
  let q := after handleFormSubmit p in
  if goesThrough p then
    history q = if available (localStorage p)
                then recent (nowCheck (env p)) (history p) ++ [nowRecord (env p)]
                else []
  else
    (history q = history p \/ history q = recent (nowCheck (env p)) (history p))
    /\ forall t, t ∈ history q -> t ∈ history p.
Proof.
  intros q. subst q.
  destruct (goesThrough p) eqn:Hg.
  - apply goesThrough_true in Hg as (Hs & Hv & Hm).
    unfold after. rewrite (handleFormSubmit_sent p Hs Hv Hm). cbn [snd].
    apply andb_prop in Hv as [_ Hsec].
    assert (Hh : honeypotFilled (elements p) = false).
    { unfold securityOk in Hsec. apply andb_prop in Hsec as [Hsec _].
      apply andb_prop in Hsec as [Hsec _]. by apply negb_true_iff in Hsec. }
    destruct (available (localStorage p)) eqn:Ha.
    + by apply history_sentPage.
    + apply history_unavailable. unfold sentPage. cbn [localStorage].
      unfold recordedStorage. autorewrite with page.
      rewrite available_checkedStorage, Ha. by rewrite available_checkedStorage.
  - assert (Hcases : history (after handleFormSubmit p) = history p
                     \/ history (after handleFormSubmit p)
                        = recent (nowCheck (env p)) (history p)).
    { unfold after. destruct (isSubmitting (formState p)) eqn:Hs.
      { rewrite (handleFormSubmit_busy p Hs). by left. }
      assert (Hc : forall errs v evs,
                history (revalidated errs v evs
                           (with_localStorage (checkedStorage p) p))
                = history (with_localStorage (checkedStorage p) p)).
      { intros. apply history_ext; unfold revalidated; by autorewrite with page. }
      apply (goesThrough_false p Hs) in Hg as [Hv|(Hv & msg & Hm)].
      - destruct (handleFormSubmit_rejected p Hs Hv) as (errs & v & ->).
        cbn [snd]. rewrite Hc, history_checkedStorage.
        destruct (honeypotFilled (elements p)); [by left | by right].
      - destruct (handleFormSubmit_mail_failed p msg Hs Hv Hm) as (errs & v & ->).
        cbn [snd]. rewrite Hc, history_checkedStorage.
        destruct (honeypotFilled (elements p)); [by left | by right]. }
    split; [exact Hcases|].
    intros t Ht. destruct Hcases as [Hc|Hc]; rewrite Hc in Ht; [exact Ht|].
    by apply history_recent_sub in Ht.
Qed.

(** ** The rate limit without local storage *)

Lemma available_of_sentPage q :
  available (localStorage (sentPage q)) = available (localStorage q).
Proof.
  unfold sentPage. cbn [localStorage]. unfold recordedStorage.
  autorewrite with page. rewrite available_checkedStorage.
  destruct (available (localStorage q)) eqn:Ha; [reflexivity|].
  by rewrite available_checkedStorage.
Qed.

Lemma run_without_storage p0 : forall subs p,
  sameForm p0 p ->
  isSubmitting (formState p) = false ->
  available (localStorage p) = false ->
  (0 < maxSubmissionsPerHour (security (config p0)))%nat ->
  Forall (fun s => acceptable p0 s = true) subs ->
  history (submitAll subs p) = []
  /\ Forall (fun r => sentOk ∈ r.1 /\ cannotSave ∈ r.1
                      /\ Exists (fun e => isEmailSend e = true) r.1)
       (submitTrace subs p).
Proof.
  induction subs as [|s subs IH]; intros p Hsf Hs Hav Hmax Hacc.
  - split; [by apply history_unavailable | constructor].
  - apply Forall_cons in Hacc as [Ha Hacc].
    assert (Ha' : acceptable p s = true)
      by (rewrite (acceptable_sameForm p0 p s Hsf); exact Ha).
    assert (Hu : underLimit (fill s p) = true).
    { unfold underLimit. change (history (fill s p)) with (history p).
      rewrite (history_unavailable p Hav).
      change (config (fill s p)) with (config p).
      destruct Hsf as [-> _]. by apply Nat.ltb_lt. }
    pose proof (submit_accepted s p Hs Ha' Hu) as Hrun.
    assert (Hsub : submit s p = sentPage (fill s p))
      by (unfold submit, after; by rewrite Hrun).
    destruct (IH (submit s p)) as [H1 H2]; try assumption.
    + rewrite Hsub. destruct Hsf as [Hcfg Hfill]. split; [exact Hcfg|].
      intros s'. simpl. rewrite fillElements_blank, fillElements_fill. apply Hfill.
    + by rewrite Hsub.
    + rewrite Hsub, available_of_sentPage. exact Hav.
    + cbn [submitAll fold_left submitTrace].
      change (fold_left (fun q s0 => submit s0 q) subs (submit s p))
        with (submitAll subs (submit s p)).
      split; [exact H1|]. constructor; [|exact H2]. cbn [fst].
      rewrite (events_of _ _ _ _ _ Hrun eq_refl).
      change (available (localStorage (fill s p))) with (available (localStorage p)).
      rewrite Hav. unfold mailEvents.
      change (emailjs (env (fill s p))) with (emailjs (sub_env s)).
      unfold acceptable in Ha'. apply andb_prop in Ha' as [_ Hm].
      destruct (emailjs (sub_env s)); try discriminate.
      split; [|split].
      * rewrite !elem_of_app. do 5 right. constructor.
      * rewrite !elem_of_app. do 4 right. left. constructor.
      * rewrite !Exists_app. right. right. left. constructor. reflexivity.
Qed.

(** X7: the rate limit rests on the local storage alone.  When the local
    storage does not work (every access throws), the history read is
    always empty: with a ceiling of at least one, every submission that
    passes the other checks and is mailed with status 200 goes through,
    however many are made and however close in time; each one sends its
    mail, warns on the console that the history could not be saved, and
    ends with the success notification. *)
Theorem broken_storage_disables_the_rate_limit p subs :
  isSubmitting (formState p) = false ->
  available (localStorage p) = false ->
  (0 < maxSubmissionsPerHour (security (config p)))%nat ->
  Forall (fun s => acceptable p s = true) subs ->
  history (submitAll subs p) = []
  /\ Forall (fun r => sentOk ∈ r.1 /\ cannotSave ∈ r.1
                      /\ Exists (fun e => isEmailSend e = true) r.1)
       (submitTrace subs p).
Proof.
  intros Hs Hav Hmax Hacc.
  apply (run_without_storage p); try assumption. split; reflexivity.
Qed.

Lemma broken_storage_disables_the_rate_limit_witness :
  let p := with_localStorage {| available := false; items := ∅ |} freshPage in
  let subs := fiveFromJo ++ [fromJo 50000; fromJo 60000] in
  isSubmitting (formState p) = false
  /\ available (localStorage p) = false
  /\ (0 < maxSubmissionsPerHour (security (config p)))%nat
  /\ Forall (fun s => acceptable p s = true) subs
  /\ length (submitTrace subs p) = 7%nat
  /\ Forall (fun r => sentOk ∈ r.1 /\ cannotSave ∈ r.1
                      /\ Exists (fun e => isEmailSend e = true) r.1)
       (submitTrace subs p).
Proof.
  intros p subs.
  assert (H1 : isSubmitting (formState p) = false) by reflexivity.
  assert (H2 : available (localStorage p) = false) by reflexivity.
  assert (H3 : (0 < maxSubmissionsPerHour (security (config p)))%nat)
    by (vm_compute; lia).
  assert (H4 : Forall (fun s => acceptable p s = true) subs)
    by (repeat constructor; vm_compute; reflexivity).
  destruct (broken_storage_disables_the_rate_limit p subs H1 H2 H3 H4) as [_ H].
  do 4 (split; [assumption|]). split; [reflexivity | exact H].
Defined.

(** ** The validation errors, exactly *)

Lemma validateField_checked field p r :
  fieldChecked (config p) field = Some r ->
  validateField field p
  = (Val (fst r),
     revalidated (noted (in_name field) r (validationErrors (formState p)))
       (negb (0 <? size (noted (in_name field) r (validationErrors (formState p))))%nat)
       [FieldMark (in_name field) (fst r) (snd r)] p).
Proof.
  unfold fieldChecked, validateField. intros H.
  erewrite bind_run by reflexivity.
  destruct (negb (truthy (in_name field)) || _); [discriminate|].
  destruct (validation (config p) !! in_name field) as [v|]; [|discriminate].
  injection H as <-.
  unfold updateFieldValidation, setValidationError, updateFormValidity, emit,
    bind, modify, ret, revalidated, noted.
  reflexivity.
Qed.


Lemma dropSpace_spaces l : Forall (fun c => isSpace c = true) l -> dropSpace l = [].
Proof. induction 1 as [|c l Hc _ IH]; simpl; [reflexivity | by rewrite Hc]. Qed.

Lemma trim_spaces s : Forall (fun c => isSpace c = true) (chars s) -> trim s = "".
Proof. intros H. unfold trim, trimChars. by rewrite (dropSpace_spaces _ H). Qed.

(** X8: a control that holds nothing but white space (or nothing at all)
    is reported as missing, whatever its rule: for every field that has a
    name other than the honeypot's and a rule in the configuration,
    [validateField] returns [false], marks the field with
    "<Name> is required", notes that message under the name of the field
    in [formState.validationErrors] and clears [formState.isValid]. *)
Theorem blank_field_is_required field p rule :
  truthy (in_name field) = true ->
  in_name field <> honeypotFieldName (security (config p)) ->
  validation (config p) !! in_name field = Some rule ->
  Forall (fun c => isSpace c = true) (chars (in_value field)) ->
  let q := after (validateField field) p in
  result_of (validateField field p) = Val false
  /\ events (validateField field) p
     = [FieldMark (in_name field) false (requiredMessage (in_name field))]
  /\ validationErrors (formState q) !! in_name field
     = Some (requiredMessage (in_name field))
  /\ isValid (formState q) = false.
Proof.
  intros Hn Hh Hrule Hsp q.
  assert (Hc : fieldChecked (config p) field
               = Some (false, requiredMessage (in_name field))).
  { unfold fieldChecked. rewrite Hn. apply String.eqb_neq in Hh. rewrite Hh, Hrule.
    cbn [negb orb]. by rewrite (trim_spaces _ Hsp). }
  pose proof (validateField_checked field p _ Hc) as Hr.
  cbn [fst snd] in Hr. unfold noted in Hr. cbn [fst snd] in Hr.
  subst q. unfold result_of, after.
  rewrite (events_of _ _ _ _ _ Hr) by (unfold revalidated; by autorewrite with page).
  rewrite Hr. cbn [fst snd]. unfold revalidated. autorewrite with page.
  cbn [validationErrors isValid].
  split; [reflexivity|]. split; [reflexivity|].
  split; [by rewrite lookup_insert_eq|].
  apply negb_false_iff, Nat.ltb_lt.
  assert (Hne : <[in_name field := requiredMessage (in_name field)]>
                  (validationErrors (formState p)) <> ∅) by apply insert_non_empty.
  apply map_size_non_empty_iff in Hne. lia.
Qed.

Lemma blank_field_is_required_witness :
  let p := freshPage in
  let field := {| in_name := "subject"; in_value := "   " |} in
  truthy (in_name field) = true
  /\ in_name field <> honeypotFieldName (security (config p))
  /\ validation (config p) !! in_name field
     = Some {| minLength := Some 5%nat; maxLength := Some 100%nat; pattern := None |}
  /\ Forall (fun c => isSpace c = true) (chars (in_value field))
  /\ events (validateField field) p = [FieldMark "subject" false "Subject is required"].
Proof.
  intros p field.
  assert (H1 : truthy (in_name field) = true) by reflexivity.
  assert (H2 : in_name field <> honeypotFieldName (security (config p))) by discriminate.
  assert (H3 : validation (config p) !! in_name field
               = Some {| minLength := Some 5%nat; maxLength := Some 100%nat;
                         pattern := None |}) by reflexivity.
  assert (H4 : Forall (fun c => isSpace c = true) (chars (in_value field)))
    by (repeat constructor).
  destruct (blank_field_is_required field p _ H1 H2 H3 H4) as (_ & H & _).
  do 4 (split; [assumption|]). exact H.
Defined.

(** ** What [formState.isValid] says *)









Lemma validatedState_standard p :
  standardForm (elements p) ->
  (forall t, is_Some (fieldChecked (config p) (control t (elements p)))) ->
  (forall h, honeypot (elements p) = Some h -> fieldChecked (config p) h = None) ->
  exists r1 r2 r3 r4,
    fieldChecked (config p) (nameField (elements p)) = Some r1
    /\ fieldChecked (config p) (emailField (elements p)) = Some r2
    /\ fieldChecked (config p) (subjectField (elements p)) = Some r3
    /\ fieldChecked (config p) (messageField (elements p)) = Some r4
    /\ allValid (config p) (elements p) = fst r1 && (fst r2 && (fst r3 && fst r4))
    /\ forall st,
         validatedState (config p) (inputsOf (elements p)) st
         = (fourNoted r1 r2 r3 r4 (fst st),
            negb (0 <? size (fourNoted r1 r2 r3 r4 (fst st)))%nat).
Proof.
  intros (N1 & N2 & N3 & N4 & _) Hch Hhp.
  destruct (Hch NameControl) as [r1 H1]. destruct (Hch EmailControl) as [r2 H2].
  destruct (Hch SubjectControl) as [r3 H3]. destruct (Hch MessageControl) as [r4 H4].
  cbn [control] in H1, H2, H3, H4.
  exists r1, r2, r3, r4. do 4 (split; [assumption|]).
  split.
  - unfold allValid, inputsOf. rewrite forallb_app. cbn [forallb].
    unfold fieldValid at 1 2 3 4. rewrite H1, H2, H3, H4.
    destruct (honeypot (elements p)) as [h|] eqn:Eh; cbn [forallb].
    + unfold fieldValid. rewrite (Hhp h eq_refl). by rewrite !andb_true_r.
    + by rewrite !andb_true_r.
  - intros st. unfold validatedState, inputsOf. rewrite fold_left_app.
    cbn [fold_left]. rewrite H1, H2, H3, H4. cbn [fst snd].
    rewrite N1, N2, N3, N4. fold (fourNoted r1 r2 r3 r4 (fst st)).
    destruct (honeypot (elements p)) as [h|] eqn:Eh; cbn [fold_left].
    + by rewrite (Hhp h eq_refl).
    + reflexivity.
Qed.

Lemma standard_fields_checked p :
  config p = CONFIG -> standardForm (elements p) ->
  (forall t, is_Some (fieldChecked (config p) (control t (elements p))))
  /\ (forall h, honeypot (elements p) = Some h -> fieldChecked (config p) h = None).
Proof.
  intros Hc (N1 & N2 & N3 & N4 & N5). rewrite Hc. split.
  - intros []; cbn [control]; unfold fieldChecked; rewrite ?N1, ?N2, ?N3, ?N4.
    + change (validation CONFIG !! "name")
        with (Some {| minLength := Some 2%nat; maxLength := Some 50%nat;
                      pattern := Some Re.namePattern |}). by eexists.
    + change (validation CONFIG !! "email")
        with (Some {| minLength := None; maxLength := None;
                      pattern := Some Re.emailPattern |}). by eexists.
    + change (validation CONFIG !! "subject")
        with (Some {| minLength := Some 5%nat; maxLength := Some 100%nat;
                      pattern := None |}). by eexists.
    + change (validation CONFIG !! "message")
        with (Some {| minLength := Some 10%nat; maxLength := Some 1000%nat;
                      pattern := None |}). by eexists.
  - intros h Hh. rewrite Hh in N5. unfold fieldChecked. rewrite N5. reflexivity.
Qed.



(** ** The rows of the form and the constraints of the table *)

Lemma checkValue_valid fieldName rule value :
  fst (checkValue fieldName rule value) = true ->
  truthy value = true /\ tooShort rule value = false
  /\ tooLong rule value = false /\ patternFails rule value = false.
Proof.
  unfold checkValue.
  destruct (truthy value); cbn [negb]; [|discriminate].
  destruct (tooShort rule value); [discriminate|].
  destruct (tooLong rule value); [discriminate|].
  destruct (patternFails rule value); [discriminate|]. done.
Qed.

Lemma tooShort_bound rule m value :
  minLength rule = Some m -> tooShort rule value = false -> (m <= len value)%nat.
Proof.
  unfold tooShort. intros -> H. destruct (0 <? m)%nat eqn:H0.
  - cbn [andb] in H. apply Nat.ltb_ge in H. exact H.
  - apply Nat.ltb_ge in H0. lia.
Qed.

Lemma tooLong_bound rule m value :
  maxLength rule = Some m -> (0 < m)%nat -> tooLong rule value = false ->
  (len value <= m)%nat.
Proof.
  unfold tooLong. intros -> Hm H.
  apply andb_false_iff in H as [H|H]; apply Nat.ltb_ge in H; lia.
Qed.

Lemma splitOn_cons sep c l :
  Re.splitOn sep (c :: l)
  = if Ascii.eqb c sep then [] :: Re.splitOn sep l
    else match Re.splitOn sep l with
         | w :: ws => (c :: w) :: ws
         | [] => [[c]]
         end.
Proof. reflexivity. Qed.

Lemma splitOn_tail_dots sep l :
  (forall w ws, Re.splitOn sep l = w :: ws ->
                forallb (fun x => negb (Nat.eqb (length x) 0)) ws = true) ->
  existsb (Ascii.eqb sep) (removelast l) = existsb (Ascii.eqb sep) l.
Proof.
  induction l as [|c l IH]; [reflexivity|]. intros H.
  destruct l as [|c' l'].
  - cbn [removelast existsb]. rewrite orb_false_r.
    destruct (Ascii.eqb sep c) eqn:E; [|reflexivity].
    exfalso. specialize (H [] [[]]). rewrite splitOn_cons in H.
    rewrite Ascii.eqb_sym, E in H. by specialize (H eq_refl).
  - change (removelast (c :: c' :: l')) with (c :: removelast (c' :: l')).
    cbn [existsb]. rewrite IH; [reflexivity|].
    intros w ws Hsp.
    destruct (Ascii.eqb c sep) eqn:E.
    + specialize (H [] (w :: ws)). rewrite splitOn_cons, E, Hsp in H.
      specialize (H eq_refl). cbn [forallb] in H.
      by apply andb_prop in H as [_ H].
    + apply (H (c :: w) ws). by rewrite splitOn_cons, E, Hsp.
Qed.

Lemma labels_dots d :
  forallb Re.label (Re.splitOn "." d) = true ->
  Schema.dotInside d = existsb (Ascii.eqb ".") d.
Proof.
  intros H.
  assert (Hne : forallb (fun x => negb (Nat.eqb (length x) 0)) (Re.splitOn "." d) = true).
  { apply forallb_forall. intros w Hw.
    apply (proj1 (forallb_forall _ _) H) in Hw. by destruct w. }
  destruct d as [|c d']; [discriminate|].
  unfold Schema.dotInside. cbn [existsb].
  rewrite splitOn_cons in Hne.
  destruct (Ascii.eqb c ".") eqn:E; [discriminate|].
  rewrite Ascii.eqb_sym, E. cbn [orb].
  apply splitOn_tail_dots. intros w ws Hsp. rewrite Hsp in Hne.
  cbn [forallb] in Hne. by apply andb_prop in Hne as [_ Hne].
Qed.

Lemma emailPattern_check s :
  Re.emailPattern s = true ->
  Schema.emailCheck s = existsb (Ascii.eqb ".") (Schema.domainOf s).
Proof.
  unfold Re.emailPattern, Schema.emailCheck, Schema.domainOf.
  destruct (Re.splitOn "@" (chars s)) as [|loc [|dom [|? ?]]]; try discriminate.
  intros H. apply andb_prop in H as [H Hl]. apply andb_prop in H as [H0 _].
  rewrite H0. cbn [andb]. by apply labels_dots.
Qed.

(** X10: what the form accepts and what the table accepts, for the name
    and the e-mail address.  Under the default configuration, the row that
    an accepted submission sends to [contact_messages] always meets the
    column type and the [CHECK] constraint of the name; it meets those of
    the e-mail address exactly when the address has at most 100 characters
    and a full stop after its [@]: an address that the form accepts
    without a full stop in the domain, or with more than 100 characters,
    is refused by the table. *)
Theorem accepted_rows_and_the_table p :
  config p = CONFIG ->
  standardForm (elements p) ->
  allValid (config p) (elements p) = true ->
  let row := rowOf (formDataOf p) in
  Schema.nameOk (row_name row) = true
  /\ Re.namePattern (row_name row) = true
  /\ Re.emailPattern (row_email row) = true
  /\ Schema.emailOk (row_email row)
     = existsb (Ascii.eqb ".") (Schema.domainOf (row_email row))
       && (len (row_email row) <=? 100)%nat.
Proof.
  intros Hc Hstd Hv row.
  destruct (standard_fields_checked p Hc Hstd) as [Hch Hhp].
  destruct (validatedState_standard p Hstd Hch Hhp)
    as (r1 & r2 & r3 & r4 & H1 & H2 & H3 & H4 & Hall & _).
  rewrite Hv in Hall. symmetry in Hall.
  apply andb_prop in Hall as [V1 Hall]. apply andb_prop in Hall as [V2 Hall].
  apply andb_prop in Hall as [V3 V4].
  destruct Hstd as (N1 & N2 & N3 & N4 & _).
  unfold fieldChecked in H1, H2, H3, H4. rewrite Hc in H1, H2, H3, H4.
  rewrite N1 in H1. rewrite N2 in H2. rewrite N3 in H3. rewrite N4 in H4.
  change (validation CONFIG !! "name")
    with (Some {| minLength := Some 2%nat; maxLength := Some 50%nat;
                  pattern := Some Re.namePattern |}) in H1.
  change (validation CONFIG !! "email")
    with (Some {| minLength := None; maxLength := None;
                  pattern := Some Re.emailPattern |}) in H2.
  change (validation CONFIG !! "subject")
    with (Some {| minLength := Some 5%nat; maxLength := Some 100%nat;
                  pattern := None |}) in H3.
  change (validation CONFIG !! "message")
    with (Some {| minLength := Some 10%nat; maxLength := Some 1000%nat;
                  pattern := None |}) in H4.
  cbn [negb orb truthy String.eqb Ascii.eqb Bool.eqb honeypotFieldName security CONFIG]
    in H1, H2, H3, H4.
  injection H1 as <-. injection H2 as <-. injection H3 as <-. injection H4 as <-.
  apply checkValue_valid in V1 as (_ & S1 & L1 & P1).
  apply checkValue_valid in V2 as (_ & _ & _ & P2).
  apply (tooShort_bound _ 2%nat) in S1; [|reflexivity].
  apply (tooLong_bound _ 50%nat) in L1; [|reflexivity|lia].
  unfold patternFails in P1. cbn [pattern] in P1. apply negb_false_iff in P1.
  unfold patternFails in P2. cbn [pattern] in P2. apply negb_false_iff in P2.
  subst row. unfold rowOf, formDataOf.
  cbn [row_name row_email fd_name fd_email].
  unfold Schema.nameOk, Schema.emailOk.
  rewrite (emailPattern_check _ P2).
  split; [apply andb_true_intro; split; apply Nat.leb_le; lia|].
  split; [exact P1|]. split; [exact P2 | reflexivity].
Qed.

Lemma accepted_rows_and_the_table_witness :
  let p := fill (fromLocalhost 0) freshPage in
  config p = CONFIG
  /\ standardForm (elements p)
  /\ allValid (config p) (elements p) = true
  /\ Schema.nameOk (row_name (rowOf (formDataOf p))) = true
  /\ Schema.emailOk (row_email (rowOf (formDataOf p))) = false.
Proof.
  intros p.
  assert (H1 : config p = CONFIG) by reflexivity.
  assert (H2 : standardForm (elements p)) by (repeat split).
  assert (H3 : allValid (config p) (elements p) = true) by (vm_compute; reflexivity).
  destruct (accepted_rows_and_the_table p H1 H2 H3) as (Hn & _ & _ & He).
  do 3 (split; [assumption|]). split; [exact Hn|].
  rewrite He. vm_compute. reflexivity.
Defined.

End FormExtraProofs.

(** * Further properties of the client *)

Module ClientExtraProofs.
Import Js SupabaseClient ClientReadings SessionReadings ClientProofs.
Import FormExtraProofs.
Local Open Scope list_scope.

#[local] Hint Rewrite
  client_config_with_db client_db_with_db client_accounts_with_db client_authUser_with_db
  client_adminSession_with_db client_now_with_db client_ip_with_db client_userAgent_with_db
  client_entropy_with_db client_faults_with_db client_calls_with_db client_log_with_db
  client_config_with_authUser client_db_with_authUser client_accounts_with_authUser client_authUser_with_authUser
  client_adminSession_with_authUser client_now_with_authUser client_ip_with_authUser client_userAgent_with_authUser
  client_entropy_with_authUser client_faults_with_authUser client_calls_with_authUser client_log_with_authUser
  client_config_with_adminSession client_db_with_adminSession client_accounts_with_adminSession client_authUser_with_adminSession
  client_adminSession_with_adminSession client_now_with_adminSession client_ip_with_adminSession client_userAgent_with_adminSession
  client_entropy_with_adminSession client_faults_with_adminSession client_calls_with_adminSession client_log_with_adminSession
  client_config_with_calls client_db_with_calls client_accounts_with_calls client_authUser_with_calls
  client_adminSession_with_calls client_now_with_calls client_ip_with_calls client_userAgent_with_calls
  client_entropy_with_calls client_faults_with_calls client_calls_with_calls client_log_with_calls
  client_config_with_log client_db_with_log client_accounts_with_log client_authUser_with_log
  client_adminSession_with_log client_now_with_log client_ip_with_log client_userAgent_with_log
  client_entropy_with_log client_faults_with_log client_calls_with_log client_log_with_log
  client_config_with_now client_db_with_now client_accounts_with_now client_authUser_with_now
  client_adminSession_with_now client_now_with_now client_ip_with_now client_userAgent_with_now
  client_entropy_with_now client_faults_with_now client_calls_with_now client_log_with_now
  projects_with_projects admin_users_with_projects blocked_ips_with_projects login_attempts_with_projects
  projects_with_blocked_ips admin_users_with_blocked_ips blocked_ips_with_blocked_ips login_attempts_with_blocked_ips
  projects_with_login_attempts admin_users_with_login_attempts blocked_ips_with_login_attempts login_attempts_with_login_attempts : client.

(** ** Listing the projects *)

Lemma getProjects_cases filters c :
  getProjects filters c
  = if faults c (calls c)
    then (Val [],
          with_log (log c ++ [SelectProjects;
                              ConsoleError ("Error fetching projects: " +:+ storeError)])
            (with_calls (S (calls c)) c))
    else (Val (limited filters
                 (orderDesc (List.filter (selected filters) (projects (db c))))),
          with_log (log c ++ [SelectProjects]) (with_calls (S (calls c)) c)).
Proof.
  unfold getProjects. destruct (faults c (calls c)) eqn:Hf.
  - erewrite catch_exn.
    2: { erewrite bind_val by reflexivity. erewrite bind_val by apply request_run.
         rewrite Hf. reflexivity. }
    unfold consoleError, emit, bind, modify, ret. f_equal.
    apply client_ext; autorewrite with client; try reflexivity.
    by rewrite <- app_assoc.
  - erewrite catch_val.
    2: { erewrite bind_val by reflexivity. erewrite bind_val by apply request_run.
         rewrite Hf. reflexivity. }
    reflexivity.
Qed.

Lemma insertDesc_perm r rows : insertDesc r rows ≡ₚ r :: rows.
Proof.
  induction rows as [|r' rows IH]; cbn [insertDesc]; [reflexivity|].
  destruct (p_created_at r' <? p_created_at r)%Z; [reflexivity|].
  rewrite IH. apply Permutation_swap.
Qed.

Lemma orderDesc_perm rows : orderDesc rows ≡ₚ rows.
Proof.
  unfold orderDesc. induction rows as [|r rows IH]; cbn [foldr]; [reflexivity|].
  by rewrite insertDesc_perm, IH.
Qed.

Lemma insertDesc_sorted r rows :
  StronglySorted newerFirst rows -> StronglySorted newerFirst (insertDesc r rows).
Proof.
  induction rows as [|r' rows IH]; cbn [insertDesc]; intros Hs.
  - repeat constructor.
  - apply StronglySorted_inv in Hs as [Hs Hall].
    destruct (p_created_at r' <? p_created_at r)%Z eqn:E.
    + apply Z.ltb_lt in E. constructor; [by constructor|].
      constructor; [unfold newerFirst; lia|].
      eapply Forall_impl; [exact Hall|]. unfold newerFirst. intros x Hx. lia.
    + apply Z.ltb_ge in E. constructor; [by apply IH|].
      apply Forall_forall. intros x Hx. apply insertDesc_elem in Hx as [->|Hx].
      * exact E.
      * by apply (proj1 (Forall_forall _ _) Hall).
Qed.

Lemma orderDesc_sorted rows : StronglySorted newerFirst (orderDesc rows).
Proof.
  unfold orderDesc. induction rows as [|r rows IH]; cbn [foldr]; [constructor|].
  by apply insertDesc_sorted.
Qed.

Lemma StronglySorted_take {A} (R : A -> A -> Prop) n l :
  StronglySorted R l -> StronglySorted R (take n l).
Proof.
  intros H. rewrite <- (take_drop n l) in H.
  revert H. generalize (take n l) (drop n l). intros l1 l2.
  induction l1 as [|x l1 IH]; cbn [app]; intros H; [constructor|].
  apply StronglySorted_inv in H as [H Hall]. constructor; [by apply IH|].
  apply Forall_app in Hall. tauto.
Qed.

Lemma limited_sub filters (rows : list Project) r :
  r ∈ limited filters rows -> r ∈ rows.
Proof.
  unfold limited. destruct (limit filters) as [[|n]|]; try done.
  intros H. apply elem_of_take in H as (i & H & _).
  by apply list_elem_of_lookup_2 in H.
Qed.

(** With a client, [getProjects] makes one request, the query; when that
    request fails it logs the error and returns the empty list.  The
    tables, the auth user and the admin session are left as they were. *)
Lemma getProjects_with_client filters c :
  let c' := after (getProjects filters) c in
  (exists rows, result_of (getProjects filters c) = Val rows
                /\ (faults c (calls c) = true -> rows = []))
  /\ (exists rest, events (getProjects filters) c = SelectProjects :: rest
                   /\ Forall (fun e => isRequest e = false) rest)
  /\ db c' = db c /\ authUser c' = authUser c /\ adminSession c' = adminSession c
  /\ calls c' = S (calls c).
Proof.
  intros c'. subst c'. unfold result_of, after.
  pose proof (getProjects_cases filters c) as H.
  destruct (faults c (calls c)) eqn:Hf.
  - rewrite (client_events_of _ _ _ _ _ H) by (by autorewrite with client).
    rewrite H. cbn [fst snd]. autorewrite with client.
    split; [by eexists|]. split; [|done].
    eexists. split; [reflexivity|]. repeat constructor.
  - rewrite (client_events_of _ _ _ _ _ H) by (by autorewrite with client).
    rewrite H. cbn [fst snd]. autorewrite with client.
    split; [eexists; split; [reflexivity | discriminate]|]. split; [|done].
    eexists. split; [reflexivity|]. constructor.
Qed.

(** X12: when the query goes through, [getProjects] lists rows of the
    table that are active (and of the category asked for, when one is
    given), newest first; without a limit (or with the limit 0, which
    JavaScript takes as no limit) it lists every such row, each as often
    as the table holds it; with a limit [n > 0] it lists the first [n] of
    them. *)
Theorem getProjects_lists_newest_first filters c :
  faults c (calls c) = false ->
  exists rows listed,
    result_of (getProjects filters c) = Val rows
    /\ StronglySorted newerFirst rows
    /\ (forall r, r ∈ rows ->
          r ∈ projects (db c) /\ p_is_active r = true
          /\ forall cat, category filters = Some cat -> truthy cat = true ->
                         p_category r = cat)
    /\ listed ≡ₚ List.filter (selected filters) (projects (db c))
    /\ StronglySorted newerFirst listed
    /\ rows = match limit filters with
              | Some (S n) => take (S n) listed
              | _ => listed
              end
    /\ (forall n, limit filters = Some n -> (0 < n)%nat -> (length rows <= n)%nat).
Proof.
  intros Hf.
  set (listed := orderDesc (List.filter (selected filters) (projects (db c)))).
  exists (limited filters listed), listed.
  split; [by apply getProjects_run|].
  assert (Hs : StronglySorted newerFirst listed) by apply orderDesc_sorted.
  split; [|split; [|split; [|split; [|split]]]].
  - unfold limited. destruct (limit filters) as [[|n]|]; try exact Hs.
    by apply StronglySorted_take.
  - intros r Hr. apply limited_sub in Hr. subst listed.
    apply orderDesc_elem, elem_of_List_filter in Hr as [Hin Hsel].
    unfold selected in Hsel. apply andb_prop in Hsel as [Ha Hc].
    split; [exact Hin|]. split; [exact Ha|].
    intros cat Hcat Ht. rewrite Hcat, Ht in Hc. by apply String.eqb_eq.
  - apply orderDesc_perm.
  - exact Hs.
  - reflexivity.
  - intros n Hn Hpos. unfold limited. rewrite Hn.
    destruct n as [|n]; [lia|]. rewrite length_take. lia.
Qed.

Lemma getProjects_lists_newest_first_witness :
  faults demoClient (calls demoClient) = false
  /\ exists rows, result_of (getProjects noFilters demoClient) = Val rows
                  /\ StronglySorted newerFirst rows.
Proof.
  split; [reflexivity|].
  destruct (getProjects_lists_newest_first noFilters demoClient eq_refl)
    as (rows & listed & H1 & H2 & _).
  by exists rows.
Defined.

(** ** Creating and updating projects *)

Section ProjectWrites.
Variable newURL : string -> bool.

Lemma createProject_run data c :
  createProject newURL data c
  = match rejection newURL data with
    | Some msg =>
        (Exn msg,
         with_log (log c ++ [ConsoleError ("Error creating project: " +:+ msg)]) c)
    | None =>
        let fields := sanitizedFields data in
        if faults c (calls c) then
          (Exn storeError,
           with_log (log c ++ [InsertProject fields (now c);
                               ConsoleError ("Error creating project: " +:+ storeError)])
             (with_calls (S (calls c)) c))
        else
          let row := newRow ("row-" +:+ ofNat (calls c)) fields (now c) in
          (Val row,
           with_log (log c ++ [InsertProject fields (now c);
                               ConsoleLog "Project created successfully"])
             (with_db (with_projects (projects (db c) ++ [row]) (db c))
                (with_calls (S (calls c)) c)))
    end.
Proof.
  destruct (rejection newURL data) as [msg|] eqn:Hr.
  { by apply createProject_refused. }
  cbn zeta. unfold createProject. destruct (faults c (calls c)) eqn:Hf.
  - erewrite catch_exn.
    2: { rewrite prepared, Hr. erewrite bind_val by reflexivity.
         erewrite bind_val by apply request_run. rewrite Hf. reflexivity. }
    unfold consoleError, emit, bind, modify, throw. f_equal.
    apply client_ext; autorewrite with client; try reflexivity.
    by rewrite <- app_assoc.
  - erewrite catch_val.
    2: { rewrite prepared, Hr. erewrite bind_val by reflexivity.
         erewrite bind_val by apply request_run. rewrite Hf. reflexivity. }
    unfold setProjects, consoleLog, emit, bind, modify, ret. f_equal.
    apply client_ext; autorewrite with client; try reflexivity.
    by rewrite <- app_assoc.
Qed.

Lemma updateProject_run id data c :
  updateProject newURL id data c
  = match rejection newURL data with
    | Some msg =>
        (Exn msg,
         with_log (log c ++ [ConsoleError ("Error updating project: " +:+ msg)]) c)
    | None =>
        let fields := sanitizedFields data in
        if faults c (calls c) then
          (Exn storeError,
           with_log (log c ++ [UpdateProject id fields (now c);
                               ConsoleError ("Error updating project: " +:+ storeError)])
             (with_calls (S (calls c)) c))
        else
          let rows := updateWhereId id (patchRow fields (now c)) (projects (db c)) in
          (Val (head (filter (fun r => p_id r = id) rows)),
           with_log (log c ++ [UpdateProject id fields (now c);
                               ConsoleLog "Project updated successfully"])
             (with_db (with_projects rows (db c)) (with_calls (S (calls c)) c)))
    end.
Proof.
  destruct (rejection newURL data) as [msg|] eqn:Hr.
  { by apply updateProject_refused. }
  cbn zeta. unfold updateProject. destruct (faults c (calls c)) eqn:Hf.
  - erewrite catch_exn.
    2: { rewrite prepared, Hr. erewrite bind_val by reflexivity.
         erewrite bind_val by apply request_run. rewrite Hf. reflexivity. }
    unfold consoleError, emit, bind, modify, throw. f_equal.
    apply client_ext; autorewrite with client; try reflexivity.
    by rewrite <- app_assoc.
  - erewrite catch_val.
    2: { rewrite prepared, Hr. erewrite bind_val by reflexivity.
         erewrite bind_val by apply request_run. rewrite Hf. reflexivity. }
    unfold setProjects, consoleLog, emit, bind, modify, ret. f_equal.
    apply client_ext; autorewrite with client; try reflexivity.
    by rewrite <- app_assoc.
Qed.

Lemma sanitizeString_short o : (len (sanitizeString o) <= lengthOf o)%nat.
Proof.
  destruct o as [s|]; cbn [sanitizeString lengthOf]; [|reflexivity].
  rewrite len_chars, chars_stripAngle. etransitivity; [apply length_filter|].
  rewrite <- len_chars. apply len_trim.
Qed.

Lemma sanitizeString_noAngle o : noAngle (sanitizeString o).
Proof.
  unfold noAngle. destruct o as [s|]; cbn [sanitizeString]; [|constructor].
  rewrite chars_stripAngle. eapply Forall_impl; [apply filter_holds|].
  intros ch Hc. cbv beta in Hc. by destruct (isAngle ch).
Qed.

Lemma outside_bounds o lo hi :
  outside o lo hi = false -> (lo <= lengthOf o <= hi)%nat.
Proof.
  unfold outside. intros H. apply orb_false_iff in H as [H Hhi].
  apply orb_false_iff in H as [_ Hlo].
  apply Nat.ltb_ge in Hhi, Hlo. lia.
Qed.

Lemma rejection_None data :
  rejection newURL data = None ->
  outside (d_name data) 3 100 = false
  /\ outside (d_description data) 10 500 = false
  /\ isValidUrl newURL (d_url data) = true
  /\ (present (d_image_url data) = true -> isValidUrl newURL (d_image_url data) = true).
Proof.
  unfold rejection.
  destruct (outside (d_name data) 3 100); [discriminate|].
  destruct (outside (d_description data) 10 500); [discriminate|].
  destruct (present (d_url data)); cbn [negb orb]; [|discriminate].
  destruct (isValidUrl newURL (d_url data)); cbn [negb]; [|discriminate].
  destruct (present (d_image_url data)); cbn [andb]; [|done].
  destruct (isValidUrl newURL (d_image_url data)); cbn [negb]; [done | discriminate].
Qed.

(** X13: what reaches the table [projects].  Every insert or update
    request that [createProject] or [updateProject] sends carries the
    sanitized fields of data that passed the validation: a name of at
    most 100 and a description of at most 500 characters, no angle bracket
    in the name, the description or the category, and a URL that the URL
    parser accepts; no request is sent for data that the validation
    refuses. *)
Theorem project_requests_carry_sanitized_fields id data c e fields :
  e ∈ events (createProject newURL data) c
      ++ events (updateProject newURL id data) c ->
  carried e = Some fields ->
  rejection newURL data = None
  /\ fields = sanitizedFields data
  /\ (len (f_name fields) <= 100)%nat
  /\ (len (f_description fields) <= 500)%nat
  /\ noAngle (f_name fields) /\ noAngle (f_description fields)
  /\ noAngle (f_category fields)
  /\ newURL (f_url fields) = true.
Proof.
  intros Hin Hcar.
  assert (Hr : rejection newURL data = None /\ fields = sanitizedFields data).
  { apply elem_of_app in Hin as [Hin|Hin].
    - pose proof (createProject_run data c) as Hrun.
      destruct (rejection newURL data) as [msg|].
      { rewrite (client_events_of _ _ _ _ _ Hrun) in Hin
          by (by autorewrite with client).
        apply list_elem_of_singleton in Hin. subst e. discriminate. }
      split; [reflexivity|]. cbn zeta in Hrun.
      destruct (faults c (calls c));
        rewrite (client_events_of _ _ _ _ _ Hrun) in Hin
          by (by autorewrite with client);
        rewrite !elem_of_cons in Hin;
        destruct Hin as [->|[->|Hin]]; try discriminate; try (by inversion Hin);
        cbn [carried] in Hcar; congruence.
    - pose proof (updateProject_run id data c) as Hrun.
      destruct (rejection newURL data) as [msg|].
      { rewrite (client_events_of _ _ _ _ _ Hrun) in Hin
          by (by autorewrite with client).
        apply list_elem_of_singleton in Hin. subst e. discriminate. }
      split; [reflexivity|]. cbn zeta in Hrun.
      destruct (faults c (calls c));
        rewrite (client_events_of _ _ _ _ _ Hrun) in Hin
          by (by autorewrite with client);
        rewrite !elem_of_cons in Hin;
        destruct Hin as [->|[->|Hin]]; try discriminate; try (by inversion Hin);
        cbn [carried] in Hcar; congruence. }
  destruct Hr as [Hr ->]. split; [exact Hr|]. split; [reflexivity|].
  apply rejection_None in Hr as (Hn & Hd & Hu & _).
  apply outside_bounds in Hn, Hd.
  unfold sanitizedFields. cbn [f_name f_description f_category f_url].
  pose proof (sanitizeString_short (d_name data)).
  pose proof (sanitizeString_short (d_description data)).
  split; [lia|]. split; [lia|].
  do 3 (split; [apply sanitizeString_noAngle|]).
  unfold isValidUrl in Hu. by destruct (d_url data).
Qed.

(** X14: a project that was created is listed.  When the data pass the
    validation and the insert goes through, [createProject] returns the
    new row: active, stamped with the instant of the call, holding the
    sanitized name, description and category and the URL as given; the
    row is appended to the table, no other row is touched, and the next
    [getProjects] whose query goes through lists it, together with every
    project that was listed before. *)
Theorem created_project_is_listed data c :
  rejection newURL data = None ->
  faults c (calls c) = false ->
  let c' := after (createProject newURL data) c in
  exists row,
    result_of (createProject newURL data c) = Val row
    /\ p_is_active row = true
    /\ p_created_at row = now c
    /\ p_name row = sanitizeString (d_name data)
    /\ p_description row = sanitizeString (d_description data)
    /\ Some (p_url row) = d_url data
    /\ projects (db c') = projects (db c) ++ [row]
    /\ (faults c' (calls c') = false ->
        exists rows, result_of (getProjects noFilters c') = Val rows
                     /\ row ∈ rows
                     /\ forall r, r ∈ activeProjects c -> r ∈ rows).
Proof.
  intros Hr Hf c'.
  pose proof (createProject_run data c) as Hrun. rewrite Hr, Hf in Hrun.
  cbn zeta in Hrun.
  set (row := newRow ("row-" +:+ ofNat (calls c)) (sanitizedFields data) (now c)) in *.
  assert (Hdb : projects (db c') = projects (db c) ++ [row]).
  { subst c'. unfold after. rewrite Hrun. cbn [snd]. by autorewrite with client. }
  exists row. split; [unfold result_of; by rewrite Hrun|].
  do 4 (split; [reflexivity|]).
  split.
  { apply rejection_None in Hr as (_ & _ & Hu & _). unfold isValidUrl in Hu.
    subst row. cbn [newRow p_url sanitizedFields f_url].
    by destruct (d_url data). }
  split; [exact Hdb|].
  intros Hf'. eexists. split; [by apply getProjects_run|].
  unfold limited, noFilters. cbn [limit].
  split.
  - apply orderDesc_elem, elem_of_List_filter. split; [|reflexivity].
    rewrite Hdb. apply elem_of_app. right. constructor.
  - intros r Hin. unfold activeProjects in Hin.
    apply orderDesc_elem, elem_of_List_filter in Hin as [Hin Ha].
    apply orderDesc_elem, elem_of_List_filter. split.
    + rewrite Hdb. apply elem_of_app. by left.
    + unfold selected. cbn [category]. by rewrite Ha.
Qed.

Lemma updateWhereId_map {B} (g : Project -> B) id f rows :
  (forall r, g (f r) = g r) ->
  map g (updateWhereId id f rows) = map g rows.
Proof.
  intros Hf. unfold updateWhereId. rewrite map_map. apply map_ext.
  intros r. destruct (String.eqb (p_id r) id); [apply Hf | reflexivity].
Qed.

Lemma updateWhereId_active id f rows :
  (forall r, p_is_active (f r) = p_is_active r) ->
  (forall r, p_id (f r) = p_id r) ->
  map p_id (List.filter p_is_active (updateWhereId id f rows))
  = map p_id (List.filter p_is_active rows).
Proof.
  intros Ha Hi. unfold updateWhereId.
  induction rows as [|r rows IH]; [reflexivity|].
  cbn [map List.filter].
  destruct (String.eqb (p_id r) id).
  - rewrite Ha. destruct (p_is_active r); cbn [map]; by rewrite IH, ?Hi.
  - destruct (p_is_active r); cbn [map]; by rewrite IH.
Qed.

Lemma updateWhereId_missing id f rows :
  (forall r, r ∈ rows -> p_id r <> id) -> updateWhereId id f rows = rows.
Proof.
  intros H. unfold updateWhereId. induction rows as [|r rows IH]; [reflexivity|].
  cbn [map]. rewrite IH by (intros r' Hr'; apply H; by right).
  assert (Hr : p_id r <> id) by (apply H; left).
  apply String.eqb_neq in Hr. by rewrite Hr.
Qed.

Lemma updateWhereId_others id f rows r :
  r ∈ rows -> p_id r <> id -> r ∈ updateWhereId id f rows.
Proof.
  intros Hin Hne. unfold updateWhereId. apply list_elem_of_fmap_2' with r; [exact Hin|].
  apply String.eqb_neq in Hne. by rewrite Hne.
Qed.

(** X15: an update never revives a project and never fails for want of
    a row.  When the data pass the validation and the request goes
    through, [updateProject] rewrites the fields of the rows with the
    given id and sets their update stamp; no row is added or removed, no
    row changes its id, its active flag or its creation stamp (so a
    project that was soft-deleted stays out of the list), and the rows
    with another id are untouched.  When no row has the given id the call
    still succeeds: it returns [undefined], logs
    "Project updated successfully" and leaves the table as it was. *)
Theorem update_never_revives_a_project id data c :
  rejection newURL data = None ->
  faults c (calls c) = false ->
  let c' := after (updateProject newURL id data) c in
  projects (db c')
  = updateWhereId id (patchRow (sanitizedFields data) (now c)) (projects (db c))
  /\ map p_id (projects (db c')) = map p_id (projects (db c))
  /\ map p_is_active (projects (db c')) = map p_is_active (projects (db c))
  /\ map p_created_at (projects (db c')) = map p_created_at (projects (db c))
  /\ map p_id (List.filter p_is_active (projects (db c')))
     = map p_id (List.filter p_is_active (projects (db c)))
  /\ (forall r, r ∈ projects (db c) -> p_id r <> id -> r ∈ projects (db c'))
  /\ ConsoleLog "Project updated successfully" ∈ events (updateProject newURL id data) c
  /\ ((forall r, r ∈ projects (db c) -> p_id r <> id) ->
      result_of (updateProject newURL id data c) = Val None
      /\ projects (db c') = projects (db c)).
Proof.
  intros Hr Hf c'.
  pose proof (updateProject_run id data c) as Hrun. rewrite Hr, Hf in Hrun.
  cbn zeta in Hrun.
  assert (Hdb : projects (db c')
                = updateWhereId id (patchRow (sanitizedFields data) (now c))
                    (projects (db c))).
  { subst c'. unfold after. rewrite Hrun. cbn [snd]. by autorewrite with client. }
  split; [exact Hdb|]. rewrite Hdb.
  split; [by apply updateWhereId_map|].
  split; [by apply updateWhereId_map|].
  split; [by apply updateWhereId_map|].
  split; [by apply updateWhereId_active|].
  split; [intros r Hin Hne; by apply updateWhereId_others|].
  split.
  { rewrite (client_events_of _ _ _ _ _ Hrun) by (by autorewrite with client).
    right. left. }
  intros Hmiss. rewrite (updateWhereId_missing _ _ _ Hmiss).
  split; [|reflexivity].
  unfold result_of. rewrite Hrun. cbn [fst].
  rewrite (updateWhereId_missing _ _ _ Hmiss). f_equal.
  destruct (filter (fun r => p_id r = id) (projects (db c))) as [|r rest] eqn:E;
    [reflexivity|].
  exfalso. assert (Hin : r ∈ filter (fun r => p_id r = id) (projects (db c)))
    by (rewrite E; left).
  apply list_elem_of_filter in Hin as [Hid Hin]. by apply (Hmiss r Hin).
Qed.

End ProjectWrites.

Lemma project_requests_carry_sanitized_fields_witness :
  let e := InsertProject (sanitizedFields taggedProject) 5000 in
  e ∈ events (createProject UrlSyntax.hasScheme taggedProject) demoClient
      ++ events (updateProject UrlSyntax.hasScheme "p1" taggedProject) demoClient
  /\ carried e = Some (sanitizedFields taggedProject)
  /\ f_name (sanitizedFields taggedProject) = "bShop/b"
  /\ noAngle (f_description (sanitizedFields taggedProject)).
Proof.
  intros e.
  assert (H1 : e ∈ events (createProject UrlSyntax.hasScheme taggedProject) demoClient
                   ++ events (updateProject UrlSyntax.hasScheme "p1" taggedProject)
                        demoClient).
  { apply elem_of_app. left.
    replace (events (createProject UrlSyntax.hasScheme taggedProject) demoClient)
      with [e; ConsoleLog "Project created successfully"] by (vm_compute; reflexivity).
    left. }
  assert (H2 : carried e = Some (sanitizedFields taggedProject)) by reflexivity.
  destruct (project_requests_carry_sanitized_fields UrlSyntax.hasScheme "p1"
              taggedProject demoClient e _ H1 H2) as (_ & _ & _ & _ & _ & Hd & _).
  split; [exact H1|]. split; [exact H2|]. split; [vm_compute; reflexivity | exact Hd].
Defined.

Lemma created_project_is_listed_witness :
  let c' := after (createProject UrlSyntax.hasScheme taggedProject) demoClient in
  rejection UrlSyntax.hasScheme taggedProject = None
  /\ faults demoClient (calls demoClient) = false
  /\ map p_name (projects (db c')) = ["Portfolio"; "bShop/b"]
  /\ exists row, result_of (createProject UrlSyntax.hasScheme taggedProject demoClient)
                 = Val row
                 /\ p_is_active row = true.
Proof.
  intros c'.
  assert (H1 : rejection UrlSyntax.hasScheme taggedProject = None)
    by (vm_compute; reflexivity).
  assert (H2 : faults demoClient (calls demoClient) = false) by reflexivity.
  destruct (created_project_is_listed UrlSyntax.hasScheme taggedProject demoClient H1 H2)
    as (row & Hres & Hact & _).
  split; [exact H1|]. split; [exact H2|]. split; [vm_compute; reflexivity|].
  by exists row.
Defined.

Lemma update_never_revives_a_project_witness :
  let c := after (deleteProject "p1") demoClient in
  let c' := after (updateProject UrlSyntax.hasScheme "p1" taggedProject) c in
  rejection UrlSyntax.hasScheme taggedProject = None
  /\ faults c (calls c) = false
  /\ map p_name (projects (db c')) = ["bShop/b"]
  /\ map p_is_active (projects (db c')) = [false].
Proof.
  intros c c'.
  assert (H1 : rejection UrlSyntax.hasScheme taggedProject = None)
    by (vm_compute; reflexivity).
  assert (H2 : faults c (calls c) = false) by reflexivity.
  destruct (update_never_revives_a_project UrlSyntax.hasScheme "p1" taggedProject c H1 H2)
    as (_ & _ & Hact & _).
  split; [exact H1|]. split; [exact H2|]. split; [vm_compute; reflexivity|].
  fold c' in Hact. rewrite Hact. vm_compute. reflexivity.
Defined.

(** ** The helpers of the login, step by step *)

Lemma logged_config evs n c : config (logged evs n c) = config c.
Proof. reflexivity. Qed.
Lemma logged_db evs n c : db (logged evs n c) = db c.
Proof. reflexivity. Qed.
Lemma logged_accounts evs n c : accounts (logged evs n c) = accounts c.
Proof. reflexivity. Qed.
Lemma logged_authUser evs n c : authUser (logged evs n c) = authUser c.
Proof. reflexivity. Qed.
Lemma logged_adminSession evs n c : adminSession (logged evs n c) = adminSession c.
Proof. reflexivity. Qed.
Lemma logged_now evs n c : now (logged evs n c) = now c.
Proof. reflexivity. Qed.
Lemma logged_ip evs n c : ip (logged evs n c) = ip c.
Proof. reflexivity. Qed.
Lemma logged_userAgent evs n c : userAgent (logged evs n c) = userAgent c.
Proof. reflexivity. Qed.
Lemma logged_entropy evs n c : entropy (logged evs n c) = entropy c.
Proof. reflexivity. Qed.
Lemma logged_faults evs n c : faults (logged evs n c) = faults c.
Proof. reflexivity. Qed.
Lemma logged_calls evs n c : calls (logged evs n c) = (n + calls c)%nat.
Proof. reflexivity. Qed.
Lemma logged_log evs n c : log (logged evs n c) = log c ++ evs.
Proof. reflexivity. Qed.

#[local] Hint Rewrite logged_config logged_db logged_accounts logged_authUser
  logged_adminSession logged_now logged_ip logged_userAgent logged_entropy
  logged_faults logged_calls logged_log : client.

Lemma logged_logged evs1 n1 evs2 n2 c :
  logged evs2 n2 (logged evs1 n1 c) = logged (evs1 ++ evs2) (n2 + n1) c.
Proof.
  apply client_ext; autorewrite with client; try reflexivity; [lia|].
  by rewrite app_assoc.
Qed.

Lemma request_logged e c :
  request e c = (Val (negb (faults c (calls c))), logged [e] 1 c).
Proof. reflexivity. Qed.

Lemma getUserIP_logged c : getUserIP c = (Val (lookedUp c), logged [FetchIp] 1 c).
Proof. rewrite getUserIP_run. reflexivity. Qed.

Lemma isIPBlocked_run c :
  isIPBlocked c
  = (Val (negb (faults c (S (calls c)))
          && notNull (single (blockRows (lookedUp c) c))),
     logged [FetchIp; SelectBlockedIp (lookedUp c)] 2 c).
Proof.
  unfold isIPBlocked. erewrite catch_val; [reflexivity|].
  erewrite bind_val by apply getUserIP_logged.
  erewrite bind_val by apply request_logged.
  erewrite bind_val by reflexivity.
  rewrite logged_logged. autorewrite with client. cbn [Nat.add].
  unfold ret, blockRows. f_equal. f_equal.
  by destruct (faults c (S (calls c))).
Qed.

Lemma getFailedLoginAttempts_run c :
  getFailedLoginAttempts c
  = (Val (if faults c (S (calls c)) then 0%nat
          else length (failedRows (lookedUp c) (now c - oneHour) c)),
     logged [FetchIp; SelectLoginAttempts (lookedUp c) (now c - oneHour)] 2 c).
Proof.
  unfold getFailedLoginAttempts. erewrite catch_val; [reflexivity|].
  erewrite bind_val by apply getUserIP_logged.
  erewrite bind_val by reflexivity.
  erewrite bind_val by apply request_logged.
  rewrite logged_logged. autorewrite with client. cbn [Nat.add].
  unfold ret, failedRows. f_equal. f_equal.
  by destruct (faults c (S (calls c))).
Qed.

Lemma recordFailedLogin_run c :
  recordFailedLogin c
  = (Val tt,
     let c' := logged [FetchIp; InsertLoginAttempt (lookedUp c)] 2 c in
     if faults c (S (calls c)) then c'
     else with_db (with_login_attempts
                     (login_attempts (db c)
                      ++ [failedRow (lookedUp c) (userAgent c) (now c)]) (db c)) c').
Proof.
  unfold recordFailedLogin. erewrite catch_val; [reflexivity|].
  erewrite bind_val by apply getUserIP_logged.
  erewrite bind_val by reflexivity.
  erewrite bind_val by apply request_logged.
  rewrite logged_logged. autorewrite with client. cbn [Nat.add app].
  destruct (faults c (S (calls c))); cbn [negb]; reflexivity.
Qed.

Lemma blockIP_run c :
  blockIP c
  = (Val tt,
     if faults c (S (calls c)) then
       logged [FetchIp; InsertBlockedIp (lookedUp c);
               ConsoleError ("Error blocking IP: " +:+ storeError)] 2 c
     else
       with_db (with_blocked_ips
                  (blocked_ips (db c) ++ [blockRow (lookedUp c) (now c)]) (db c))
         (logged [FetchIp; InsertBlockedIp (lookedUp c);
                  ConsoleLog ("IP blocked notification would be sent for: "
                              +:+ lookedUp c);
                  ConsoleLog ("IP address blocked: " +:+ lookedUp c)] 2 c)).
Proof.
  unfold blockIP. destruct (faults c (S (calls c))) eqn:Hf.
  - erewrite catch_exn.
    2: { erewrite bind_val by apply getUserIP_logged.
         erewrite bind_val by reflexivity.
         erewrite bind_val by apply request_logged.
         autorewrite with client. cbn [Nat.add]. rewrite Hf. reflexivity. }
    unfold consoleError, emit, modify. f_equal. rewrite logged_logged.
    apply client_ext; autorewrite with client; try reflexivity.
    by rewrite <- app_assoc.
  - erewrite catch_val; [reflexivity|].
    erewrite bind_val by apply getUserIP_logged.
    erewrite bind_val by reflexivity.
    erewrite bind_val by apply request_logged.
    autorewrite with client. cbn [Nat.add]. rewrite Hf. cbn [negb].
    unfold sendIPBlockNotification, consoleLog, emit, bind, modify.
    f_equal. rewrite logged_logged.
    apply client_ext; autorewrite with client; try reflexivity.
    by rewrite <- !app_assoc.
Qed.

Lemma clearFailedLoginAttempts_run c :
  clearFailedLoginAttempts c
  = (Val tt,
     let c' := logged [FetchIp; DeleteLoginAttempts (lookedUp c)] 2 c in
     if faults c (S (calls c)) then c'
     else with_db (with_login_attempts
                     (filter (fun r => ~ (la_ip_address r = lookedUp c
                                          /\ la_success r = false))
                        (login_attempts (db c))) (db c)) c').
Proof.
  unfold clearFailedLoginAttempts. erewrite catch_val; [reflexivity|].
  erewrite bind_val by apply getUserIP_logged.
  erewrite bind_val by apply request_logged.
  rewrite logged_logged. autorewrite with client. cbn [Nat.add app].
  destruct (faults c (S (calls c))); cbn [negb]; reflexivity.
Qed.

Lemma verifyAdminPrivileges_run userId c :
  verifyAdminPrivileges userId c
  = (Val (negb (faults c (calls c)) && notNull (single (adminRows userId c))),
     logged [SelectAdminUser userId] 1 c).
Proof.
  unfold verifyAdminPrivileges. erewrite catch_val; [reflexivity|].
  erewrite bind_val by apply request_logged.
  erewrite bind_val by reflexivity.
  unfold ret, adminRows. autorewrite with client. f_equal. f_equal.
  by destruct (faults c (calls c)).
Qed.

Lemma signInWithPassword_run e p c :
  signInWithPassword e p c
  = if faults c (calls c) then
      (Val (AuthError "Failed to fetch"), logged [AuthSignIn e] 1 c)
    else
      match findAccount e p (accounts c) with
      | Some a =>
          (Val (AuthData (acc_user a) ("token-" +:+ user_id (acc_user a))),
           with_authUser (Some (acc_user a))
             (logged [AuthSignIn e; ConsoleLog "Auth state changed: SIGNED_IN"] 1 c))
      | None => (Val (AuthError "Invalid login credentials"), logged [AuthSignIn e] 1 c)
      end.
Proof.
  unfold signInWithPassword.
  erewrite bind_val by apply request_logged. erewrite bind_val by reflexivity.
  destruct (faults c (calls c)); cbn [negb]; [reflexivity|].
  autorewrite with client.
  destruct (findAccount e p (accounts c)) as [a|]; [|reflexivity].
  unfold authStateChanged, consoleLog, emit, bind, modify, ret.
  change (String.eqb "SIGNED_IN" "SIGNED_OUT") with false. cbv iota.
  f_equal. apply client_ext; autorewrite with client; try reflexivity.
  by rewrite <- app_assoc.
Qed.

Lemma signedOut_ok c :
  faults c (calls c) = false ->
  signedOut c
  = with_adminSession None
      (with_authUser None
         (logged [AuthSignOut; ConsoleLog "Auth state changed: SIGNED_OUT"] 1 c)).
Proof.
  intros Hf. unfold signedOut. rewrite Hf.
  apply client_ext; autorewrite with client; try reflexivity.
  by rewrite <- app_assoc.
Qed.

Lemma lookedUp_ok c : faults c (calls c) = false -> lookedUp c = ip c.
Proof. intros H. unfold lookedUp. by rewrite H. Qed.

(** ** The paths of [adminLogin] when every request goes through *)

Section Reachable.
Variable c : Client.
Hypothesis Hreach : reachable c.
Variable cr : Credentials.

Let blockedMsg := "Access denied: IP address is blocked".
Let tooManyMsg := "Too many failed attempts. IP address has been blocked.".
Let since := (now c - oneHour)%Z.

Lemma adminLogin_blocked :
  single (blockRows (ip c) c) <> None ->
  adminLogin cr c
  = (Exn blockedMsg,
     logged [FetchIp; SelectBlockedIp (ip c);
             ConsoleError ("Admin login failed: " +:+ blockedMsg)] 2 c).
Proof.
  intros Hb. unfold adminLogin.
  erewrite catch_exn.
  2: { erewrite bind_val by apply isIPBlocked_run.
       rewrite Hreach, (lookedUp_ok c (Hreach _)). cbn [negb andb].
       destruct (single (blockRows (ip c) c)); [reflexivity | done]. }
  unfold consoleError, emit, bind, modify, throw. f_equal.
  apply client_ext; autorewrite with client; try reflexivity.
  by rewrite <- app_assoc.
Qed.

(** The state in which the credentials are looked at. *)
Let checked : Client :=
  logged [FetchIp; SelectBlockedIp (ip c);
          FetchIp; SelectLoginAttempts (ip c) since] 4 c.

Lemma adminLogin_prelude {A} (k : nat -> M Client A) :
  single (blockRows (ip c) c) = None ->
  bind isIPBlocked (fun blocked =>
    if blocked then throw blockedMsg
    else bind getFailedLoginAttempts k) c
  = k (length (failedRows (ip c) since c)) checked.
Proof.
  intros Hb.
  erewrite bind_val by apply isIPBlocked_run.
  rewrite Hreach, (lookedUp_ok c (Hreach _)), Hb. cbn [negb andb notNull].
  erewrite bind_val by apply getFailedLoginAttempts_run.
  autorewrite with client. rewrite Hreach.
  rewrite lookedUp_ok by (autorewrite with client; apply Hreach).
  autorewrite with client. rewrite logged_logged. reflexivity.
Qed.

Lemma adminLogin_locked :
  single (blockRows (ip c) c) = None ->
  (maxFailedAttempts (security (config c)) <= length (failedRows (ip c) since c))%nat ->
  adminLogin cr c
  = (Exn tooManyMsg,
     with_db (with_blocked_ips
                (blocked_ips (db c) ++ [blockRow (ip c) (now c)]) (db c))
       (logged [FetchIp; SelectBlockedIp (ip c);
                FetchIp; SelectLoginAttempts (ip c) since;
                FetchIp; InsertBlockedIp (ip c);
                ConsoleLog ("IP blocked notification would be sent for: " +:+ ip c);
                ConsoleLog ("IP address blocked: " +:+ ip c);
                ConsoleError ("Admin login failed: " +:+ tooManyMsg)] 6 c)).
Proof.
  intros Hb Hn. unfold adminLogin.
  erewrite catch_exn.
  2: { rewrite (adminLogin_prelude _ Hb).
       erewrite bind_val by reflexivity.
       apply Nat.leb_le in Hn. subst checked. autorewrite with client. rewrite Hn.
       erewrite bind_val by apply blockIP_run.
       autorewrite with client. rewrite Hreach.
       rewrite lookedUp_ok by (autorewrite with client; apply Hreach).
       autorewrite with client. reflexivity. }
  unfold consoleError, emit, bind, modify, throw. f_equal.
  rewrite logged_logged.
  apply client_ext; autorewrite with client; try reflexivity.
  by rewrite <- !app_assoc.
Qed.

Lemma sameStore_record c1 :
  sameStore c c1 ->
  recordFailedLogin c1 = (Val tt, snd (recordFailedLogin c1))
  /\ recordsFailure c (snd (recordFailedLogin c1)).
Proof.
  intros (Hf & Hcfg & Hacc & Hip & Hua & Hnow & Hdb).
  rewrite recordFailedLogin_run. cbn [snd]. split; [reflexivity|].
  cbn zeta. rewrite Hf, Hreach.
  rewrite lookedUp_ok by (rewrite Hf; apply Hreach).
  unfold recordsFailure. autorewrite with client.
  rewrite Hf, Hcfg, Hacc, Hip, Hua, Hnow, Hdb. done.
Qed.

Lemma recordsFailure_log c' l : recordsFailure c c' -> recordsFailure c (with_log l c').
Proof. unfold recordsFailure. by autorewrite with client. Qed.

Lemma sameStore_checked : sameStore c checked.
Proof. done. Qed.

Lemma adminRows_sameStore uid c1 : sameStore c c1 -> adminRows uid c1 = adminRows uid c.
Proof. intros (_ & _ & _ & _ & _ & _ & Hdb). unfold adminRows. by rewrite Hdb. Qed.

(** After the credentials have been refused, at whatever step. *)
Lemma refused_tail :
  refusedCredentials c cr ->
  exists msg c',
    (if negb (present (email cr)) || negb (present (password cr)) then
       bind recordFailedLogin (fun _ => throw "Email and password are required")
     else
       bind (signInWithPassword (default "" (email cr)) (default "" (password cr)))
         (fun reply =>
            match reply with
            | AuthError error => bind recordFailedLogin (fun _ => throw error)
            | AuthData user session =>
                bind (verifyAdminPrivileges (user_id user)) (fun isAdmin =>
                  if negb isAdmin then
                    bind signOut (fun _ =>
                      bind recordFailedLogin (fun _ =>
                        throw "Access denied: Admin privileges required"))
                  else
                    bind clearFailedLoginAttempts (fun _ =>
                      bind (createAdminSession user) (fun created =>
                        bind (modify (with_adminSession (Some created))) (fun _ =>
                          bind (if require2FA (admin (config c))
                                then send2FACode (user_email user) else ret tt)
                            (fun _ =>
                               bind (consoleLog "Admin login successful") (fun _ =>
                                 ret {| lr_user := user; lr_session := session;
                                        lr_requires2FA :=
                                          require2FA (admin (config c)) |}))))))
            end)) checked
    = (Exn msg, c')
    /\ recordsFailure c c'.
Proof.
  intros Href.
  destruct (negb (present (email cr)) || negb (present (password cr))) eqn:Hmiss.
  { destruct (sameStore_record checked sameStore_checked) as [Hrec Hfail].
    eexists _, _. split; [|exact Hfail].
    erewrite bind_val by exact Hrec. reflexivity. }
  apply orb_false_iff in Hmiss as [He Hp].
  apply negb_false_iff in He, Hp.
  destruct Href as [Href|[Href|Href]]; [congruence | congruence |].
  destruct (findAccount (default "" (email cr)) (default "" (password cr))
              (accounts c)) as [a|] eqn:Ha.
  - erewrite bind_val.
    2: { rewrite signInWithPassword_run. subst checked. autorewrite with client.
         rewrite Hreach, Ha. reflexivity. }
    cbv beta iota.
    set (c3 := with_authUser _ _).
    assert (S3 : sameStore c c3) by done.
    erewrite bind_val by apply verifyAdminPrivileges_run.
    rewrite (adminRows_sameStore _ c3 S3), Href. cbn [notNull].
    rewrite andb_false_r. cbn [negb].
    erewrite bind_val by apply signOut_run.
    set (c4 := logged _ 1 c3).
    assert (Hf4 : faults c4 (calls c4) = false).
    { subst c4 c3. autorewrite with client. apply Hreach. }
    rewrite (signedOut_ok c4 Hf4).
    set (c5 := with_adminSession None _).
    assert (S5 : sameStore c c5) by done.
    destruct (sameStore_record c5 S5) as [Hrec Hfail].
    eexists _, _. split; [|exact Hfail].
    erewrite bind_val by exact Hrec. reflexivity.
  - erewrite bind_val.
    2: { rewrite signInWithPassword_run. subst checked. autorewrite with client.
         rewrite Hreach, Ha. reflexivity. }
    cbv beta iota.
    set (c3 := logged _ 1 _).
    assert (S3 : sameStore c c3) by done.
    destruct (sameStore_record c3 S3) as [Hrec Hfail].
    eexists _, _. split; [|exact Hfail].
    erewrite bind_val by exact Hrec. reflexivity.
Qed.

Lemma adminLogin_refused :
  single (blockRows (ip c) c) = None ->
  (length (failedRows (ip c) since c) < maxFailedAttempts (security (config c)))%nat ->
  refusedCredentials c cr ->
  exists msg c', adminLogin cr c = (Exn msg, c') /\ recordsFailure c c'.
Proof.
  intros Hb Hn Href.
  destruct (refused_tail Href) as (msg & c' & Htail & Hfail).
  exists msg, (with_log (log c' ++ [ConsoleError ("Admin login failed: " +:+ msg)]) c').
  split; [|by apply recordsFailure_log].
  unfold adminLogin. erewrite catch_exn; [reflexivity|].
  rewrite (adminLogin_prelude _ Hb).
  erewrite bind_val by reflexivity.
  apply Nat.leb_gt in Hn.
  change (config checked) with (config c). rewrite Hn.
  exact Htail.
Qed.

End Reachable.

(** ** The lock-out *)

Lemma filter_none {A} (P : A -> Prop) `{!forall x, Decision (P x)} (l : list A) :
  Forall (fun x => ~ P x) l -> filter P l = [].
Proof.
  induction 1 as [|x l Hx _ IH]; [reflexivity|].
  by rewrite filter_cons_False.
Qed.

Lemma reachable_with_now t c : reachable c -> reachable (with_now t c).
Proof. intros H n. apply H. Qed.

Lemma failedRows_progress c0 start rows c t :
  cleanRecord c0 ->
  lockProgress c0 start rows c ->
  (t <= start + oneHour)%Z ->
  failedRows (ip c0) (t - oneHour) (with_now t c) = rows.
Proof.
  intros Hclean (_ & _ & _ & _ & _ & _ & Hrows & Hall) Ht.
  unfold failedRows. autorewrite with client. rewrite Hrows, filter_app.
  rewrite filter_none, filter_all; [reflexivity| |].
  - eapply Forall_impl; [exact Hall|]. intros r (H1 & H2 & H3).
    split; [exact H1|]. split; [exact H2|]. unfold oneHour in *. lia.
  - apply Forall_forall. intros r Hr (Hip & Hs & _).
    specialize (Hclean r Hr Hip). congruence.
Qed.

Lemma refusedCredentials_progress c0 start rows c t cr :
  lockProgress c0 start rows c ->
  refusedCredentials c0 cr -> refusedCredentials (with_now t c) cr.
Proof.
  intros (_ & _ & Hacc & _ & Hadm & _) H. unfold refusedCredentials in *.
  autorewrite with client. rewrite Hacc.
  destruct H as [H|[H|H]]; [by left | by right; left | right; right].
  destruct (findAccount _ _ (accounts c0)) as [a|]; [|done].
  unfold adminRows in *. autorewrite with client. by rewrite Hadm.
Qed.

Lemma logins_progress c0 start : forall attempts rows c,
  cleanRecord c0 ->
  blockRows (ip c0) c0 = [] ->
  lockProgress c0 start rows c ->
  (length rows + length attempts <= maxFailedAttempts (security (config c0)))%nat ->
  Forall (fun a => (start <= fst a <= start + oneHour)%Z
                   /\ refusedCredentials c0 (snd a)) attempts ->
  exists rows',
    lockProgress c0 start (rows ++ rows') (loginsAt attempts c)
    /\ length rows' = length attempts.
Proof.
  induction attempts as [|[t cr] attempts IH]; intros rows c Hclean Hb Hp Hlen Hall.
  - exists []. by rewrite app_nil_r.
  - apply Forall_cons in Hall as [[Ht Href] Hall]. cbn [fst snd] in Ht, Href.
    cbn [length] in Hlen.
    pose proof Hp as (Hreach & Hcfg & Hacc & Hip & Hadm & Hblk & Hrows & Hnew).
    assert (Hfail : failedRows (ip c0) (t - oneHour) (with_now t c) = rows)
      by (apply (failedRows_progress c0 start); [assumption..|lia]).
    destruct (adminLogin_refused (with_now t c) (reachable_with_now t c Hreach) cr)
      as (msg & c' & Hrun & Hrec).
    + autorewrite with client. rewrite Hip.
      unfold blockRows in *. autorewrite with client. by rewrite Hblk, Hb.
    + autorewrite with client. rewrite Hip, Hfail, Hcfg. lia.
    + by apply (refusedCredentials_progress c0 start rows).
    + destruct Hrec as (Rf & Rcfg & Racc & Rip & Rua & Rnow & Rprj & Radm & Rblk & Ratt).
      autorewrite with client in *.
      destruct (IH (rows ++ [failedRow (ip c) (userAgent c) t]) c' Hclean Hb)
        as (rows' & Hp' & Hlen'); [| |exact Hall|].
      * unfold lockProgress. rewrite Rcfg, Racc, Rip, Radm, Rblk, Ratt, Hrows.
        split; [intros n; rewrite Rf; apply Hreach|].
        do 5 (split; [assumption|]). split; [by rewrite app_assoc|].
        apply Forall_app. split; [exact Hnew|]. constructor; [|constructor].
        cbn [failedRow la_ip_address la_success la_created_at]. rewrite Hip.
        split; [reflexivity|]. split; [reflexivity|]. lia.
      * rewrite length_app. cbn [length]. lia.
      * exists (failedRow (ip c) (userAgent c) t :: rows').
        cbn [loginsAt fold_left fst snd length]. unfold loginAt at 2, after.
        rewrite Hrun. cbn [snd].
        change (fold_left _ attempts c') with (loginsAt attempts c').
        rewrite <- app_assoc in Hp'. split; [exact Hp'|]. by rewrite Hlen'.
Qed.

(** X16: the lock-out.  Take an address that is not blocked and has no
    failed attempt on record, a store that answers every request, and as
    many login attempts as the ceiling [maxFailedAttempts] allows, all made
    within one hour and all with credentials that do not open an admin
    session.  Each of them is put on record; the next attempt within that
    hour, whatever its credentials (those of an administrator included),
    fails with "Too many failed attempts. IP address has been blocked."
    without the credentials being sent to the auth provider, and blocks
    the address; every attempt after that, at any time, fails with
    "Access denied: IP address is blocked", again without reaching the
    auth provider and without writing to the store. *)
Theorem repeated_failures_lock_the_address c attempts start t cr :
  reachable c ->
  blockRows (ip c) c = [] ->
  cleanRecord c ->
  length attempts = maxFailedAttempts (security (config c)) ->
  Forall (fun a => (start <= fst a <= start + oneHour)%Z
                   /\ refusedCredentials c (snd a)) attempts ->
  (start <= t <= start + oneHour)%Z ->
  let c1 := loginsAt attempts c in
  let c2 := loginAt t cr c1 in
  length (failedRows (ip c) (t - oneHour) (with_now t c1)) = length attempts
  /\ result_of (adminLogin cr (with_now t c1))
     = Exn "Too many failed attempts. IP address has been blocked."
  /\ Forall (fun e => isSignIn e = false) (events (adminLogin cr) (with_now t c1))
  /\ blockRows (ip c) c2 = [blockRow (ip c) t]
  /\ forall t' cr',
       result_of (adminLogin cr' (with_now t' c2))
       = Exn "Access denied: IP address is blocked"
       /\ Forall (fun e => isSignIn e = false /\ isStoreWrite e = false)
            (events (adminLogin cr') (with_now t' c2)).
Proof.
  intros Hreach Hb Hclean Hlen Hall Ht c1 c2.
  assert (Hp0 : lockProgress c start [] c).
  { unfold lockProgress. rewrite app_nil_r. repeat split; done. }
  destruct (logins_progress c start attempts [] c Hclean Hb Hp0) as (rows & Hp & Hrows);
    [cbn [length]; lia | exact Hall |].
  cbn [app] in Hp. fold c1 in Hp.
  pose proof Hp as (Hreach1 & Hcfg & Hacc & Hip & Hadm & Hblk & Hatt & Hnew).
  assert (Hfail : failedRows (ip c) (t - oneHour) (with_now t c1) = rows)
    by (apply (failedRows_progress c start); [assumption..|lia]).
  assert (Hnb : single (blockRows (ip (with_now t c1)) (with_now t c1)) = None).
  { autorewrite with client. rewrite Hip. unfold blockRows in *.
    autorewrite with client. by rewrite Hblk, Hb. }
  pose proof (adminLogin_locked (with_now t c1) (reachable_with_now t c1 Hreach1) cr Hnb)
    as Hrun.
  autorewrite with client in Hrun. rewrite Hip, Hfail, Hcfg in Hrun.
  specialize (Hrun ltac:(lia)).
  split; [by rewrite Hfail|].
  split; [unfold result_of; by rewrite Hrun|].
  split.
  { rewrite (client_events_of _ _ _ _ _ Hrun) by (by autorewrite with client).
    repeat constructor. }
  assert (Hc2 : blockRows (ip c) c2 = [blockRow (ip c) t]).
  { subst c2. unfold loginAt, after. rewrite Hrun. cbn [snd].
    unfold blockRows in *. autorewrite with client.
    rewrite Hblk, filter_app, Hb. cbn [app].
    rewrite filter_cons_True by done. reflexivity. }
  split; [exact Hc2|].
  intros t' cr'.
  assert (Hreach2 : reachable c2).
  { subst c2. unfold loginAt, after. rewrite Hrun. cbn [snd]. intros n.
    autorewrite with client. apply Hreach1. }
  assert (Hip2 : ip c2 = ip c).
  { subst c2. unfold loginAt, after. rewrite Hrun. cbn [snd].
    autorewrite with client. exact Hip. }
  assert (Hb2 : single (blockRows (ip (with_now t' c2)) (with_now t' c2)) <> None).
  { autorewrite with client. rewrite Hip2.
    change (blockRows (ip c) (with_now t' c2)) with (blockRows (ip c) c2).
    by rewrite Hc2. }
  pose proof (adminLogin_blocked (with_now t' c2) (reachable_with_now t' c2 Hreach2)
                cr' Hb2) as Hrun2.
  split; [unfold result_of; by rewrite Hrun2|].
  rewrite (client_events_of _ _ _ _ _ Hrun2) by (by autorewrite with client).
  repeat constructor.
Qed.

Lemma repeated_failures_lock_the_address_witness :
  let c1 := loginsAt threeWrong demoClient in
  reachable demoClient
  /\ blockRows (ip demoClient) demoClient = []
  /\ cleanRecord demoClient
  /\ length threeWrong = maxFailedAttempts (security (config demoClient))
  /\ Forall (fun a => (5000 <= fst a <= 5000 + oneHour)%Z
                      /\ refusedCredentials demoClient (snd a)) threeWrong
  /\ (5000 <= 8000 <= 5000 + oneHour)%Z
  /\ result_of (adminLogin aliceLogin (with_now 8000 c1))
     = Exn "Too many failed attempts. IP address has been blocked."
  /\ blockRows (ip demoClient) (loginAt 8000 aliceLogin c1)
     = [blockRow (ip demoClient) 8000].
Proof.
  intros c1.
  assert (H1 : reachable demoClient) by (intros n; reflexivity).
  assert (H2 : blockRows (ip demoClient) demoClient = []) by reflexivity.
  assert (H3 : cleanRecord demoClient) by (intros r Hr; inversion Hr).
  assert (H4 : length threeWrong = maxFailedAttempts (security (config demoClient)))
    by reflexivity.
  assert (H5 : Forall (fun a => (5000 <= fst a <= 5000 + oneHour)%Z
                               /\ refusedCredentials demoClient (snd a)) threeWrong).
  { repeat constructor; try (cbn; unfold oneHour; lia);
      right; right; vm_compute; exact I. }
  assert (H6 : (5000 <= 8000 <= 5000 + oneHour)%Z) by (unfold oneHour; lia).
  destruct (repeated_failures_lock_the_address demoClient threeWrong 5000 8000
              aliceLogin H1 H2 H3 H4 H5 H6) as (_ & Hres & _ & Hblk & _).
  do 6 (split; [assumption|]). split; [exact Hres | exact Hblk].
Defined.

(** ** A login that succeeds *)

Section Success.
Variable c : Client.
Hypothesis Hreach : reachable c.
Variable cr : Credentials.
Variable a : Account.
Variable row : AdminUser.

Hypothesis Hb : single (blockRows (ip c) c) = None.
Hypothesis Hn :
  (length (failedRows (ip c) (now c - oneHour) c)
   < maxFailedAttempts (security (config c)))%nat.
Hypothesis He : present (email cr) = true.
Hypothesis Hp : present (password cr) = true.
Hypothesis Ha :
  findAccount (default "" (email cr)) (default "" (password cr)) (accounts c) = Some a.
Hypothesis Hrow : single (adminRows (user_id (acc_user a)) c) = Some row.

Lemma adminLogin_succeeds :
  exists c',
    adminLogin cr c
    = (Val {| lr_user := acc_user a;
              lr_session := "token-" +:+ user_id (acc_user a);
              lr_requires2FA := require2FA (admin (config c)) |}, c')
    /\ authUser c' = Some (acc_user a)
    /\ adminSession c'
       = Some {| s_id := "session_" +:+ ContactForm.ofZ (now c) +:+ "_" +:+ entropy c;
                 s_user := acc_user a; s_createdAt := now c;
                 is2FAVerified := false |}
    /\ login_attempts (db c')
       = filter (fun r => ~ (la_ip_address r = ip c /\ la_success r = false))
           (login_attempts (db c))
    /\ blocked_ips (db c') = blocked_ips (db c)
    /\ projects (db c') = projects (db c)
    /\ admin_users (db c') = admin_users (db c).
Proof.
  eexists. split.
  - unfold adminLogin. erewrite catch_val; [reflexivity|].
    rewrite (adminLogin_prelude c Hreach _ Hb).
    erewrite bind_val by reflexivity.
    apply Nat.leb_gt in Hn. autorewrite with client. rewrite Hn, He, Hp.
    cbn [negb orb].
    erewrite bind_val.
    2: { rewrite signInWithPassword_run. autorewrite with client.
         rewrite Hreach, Ha. reflexivity. }
    cbv beta iota.
    erewrite bind_val by apply verifyAdminPrivileges_run.
    autorewrite with client. rewrite Hreach.
    match goal with
    | |- context [adminRows ?u ?s] =>
        change (adminRows u s) with (adminRows u c)
    end.
    rewrite Hrow. cbn [negb andb notNull].
    erewrite bind_val by apply clearFailedLoginAttempts_run.
    cbv zeta. autorewrite with client. rewrite Hreach.
    rewrite lookedUp_ok by (autorewrite with client; apply Hreach).
    autorewrite with client.
    erewrite bind_val by apply createAdminSession_run.
    erewrite bind_val by reflexivity.
    instantiate (1 := ltac:(destruct (require2FA (admin (config c))))).
    destruct (require2FA (admin (config c))); reflexivity.
  - destruct (require2FA (admin (config c)));
      unfold send2FACode, consoleLog, emit, modify; autorewrite with client;
      repeat split; reflexivity.
Qed.

End Success.

(** X17: a login that succeeds wipes the record.  When every request
    goes through, the address is not blocked and has fewer failed attempts
    on record than the ceiling, and the credentials are those of an account
    with exactly one active row in [admin_users], [adminLogin] returns the
    user with the configured [requires2FA]; afterwards the auth provider
    holds the user, no failed attempt of the address is left on record,
    whatever its age, the attempts of other addresses and the successful
    ones are untouched, and so is the list of blocked addresses. *)
Theorem successful_login_resets_the_count c cr a row :
  reachable c ->
  single (blockRows (ip c) c) = None ->
  (length (failedRows (ip c) (now c - oneHour) c)
   < maxFailedAttempts (security (config c)))%nat ->
  present (email cr) = true ->
  present (password cr) = true ->
  findAccount (default "" (email cr)) (default "" (password cr)) (accounts c) = Some a ->
  single (adminRows (user_id (acc_user a)) c) = Some row ->
  let c' := after (adminLogin cr) c in
  (exists r, result_of (adminLogin cr c) = Val r
             /\ lr_user r = acc_user a
             /\ lr_requires2FA r = require2FA (admin (config c)))
  /\ authUser c' = Some (acc_user a)
  /\ (forall since, failedRows (ip c) since c' = [])
  /\ (forall r, r ∈ login_attempts (db c')
                <-> r ∈ login_attempts (db c)
                    /\ ~ (la_ip_address r = ip c /\ la_success r = false))
  /\ blocked_ips (db c') = blocked_ips (db c).
Proof.
  intros Hreach Hb Hn He Hp Ha Hrow c'.
  destruct (adminLogin_succeeds c Hreach cr a row Hb Hn He Hp Ha Hrow)
    as (c1 & Hrun & Hau & _ & Hatt & Hblk & _).
  subst c'. unfold result_of, after. rewrite Hrun. cbn [fst snd].
  split; [by eexists|]. split; [exact Hau|].
  assert (Hiff : forall r, r ∈ login_attempts (db c1)
                   <-> r ∈ login_attempts (db c)
                       /\ ~ (la_ip_address r = ip c /\ la_success r = false)).
  { intros r. rewrite Hatt, list_elem_of_filter. tauto. }
  split; [|split; [exact Hiff | exact Hblk]].
  intros since. unfold failedRows. apply filter_none, Forall_forall.
  intros r Hr (H1 & H2 & _). apply Hiff in Hr as [_ Hr]. by apply Hr.
Qed.

Lemma successful_login_resets_the_count_witness :
  let c := loginAt 5000 wrongLogin demoClient in
  let c' := after (adminLogin aliceLogin) c in
  reachable c
  /\ single (blockRows (ip c) c) = None
  /\ (length (failedRows (ip c) (now c - oneHour) c)
      < maxFailedAttempts (security (config c)))%nat
  /\ present (email aliceLogin) = true
  /\ present (password aliceLogin) = true
  /\ findAccount "alice@example.com" "correct horse" (accounts c)
     = Some {| acc_email := "alice@example.com"; acc_password := "correct horse";
               acc_user := alice |}
  /\ single (adminRows "u-alice" c)
     = Some {| au_user_id := "u-alice"; au_is_active := true |}
  /\ length (login_attempts (db c)) = 1%nat
  /\ login_attempts (db c') = [].
Proof.
  intros c c'.
  assert (H1 : reachable c) by (intros n; vm_compute; reflexivity).
  assert (H2 : single (blockRows (ip c) c) = None) by (vm_compute; reflexivity).
  assert (H3 : (length (failedRows (ip c) (now c - oneHour) c)
                < maxFailedAttempts (security (config c)))%nat) by (vm_compute; lia).
  assert (H4 : present (email aliceLogin) = true) by reflexivity.
  assert (H5 : present (password aliceLogin) = true) by reflexivity.
  assert (H6 : findAccount "alice@example.com" "correct horse" (accounts c)
               = Some {| acc_email := "alice@example.com";
                         acc_password := "correct horse"; acc_user := alice |})
    by (vm_compute; reflexivity).
  assert (H7 : single (adminRows "u-alice" c)
               = Some {| au_user_id := "u-alice"; au_is_active := true |})
    by (vm_compute; reflexivity).
  destruct (successful_login_resets_the_count c aliceLogin _ _ H1 H2 H3 H4 H5 H6 H7)
    as (_ & _ & _ & Hiff & _).
  do 7 (split; [assumption|]). split; [vm_compute; reflexivity|].
  fold c' in Hiff.
  destruct (login_attempts (db c')) as [|r rest] eqn:E; [reflexivity|].
  exfalso. destruct (proj1 (Hiff r) ltac:(left)) as [Hin Hne].
  replace (login_attempts (db c))
    with [failedRow "203.0.113.7" "Mozilla/5.0" 5000] in Hin by (vm_compute; reflexivity).
  apply list_elem_of_singleton in Hin. subst r. apply Hne. by vm_compute.
Defined.

(** ** Logging out *)

(** With a client, [adminLogout] returns [true] whether or not the
    sign-out request goes through, and ends the admin session. *)
Lemma adminLogout_with_client c :
  let c' := after adminLogout c in
  result_of (adminLogout c) = Val true
  /\ adminSession c' = None
  /\ isAdminLoggedIn c' = false
  /\ db c' = db c
  /\ authUser c' = (if faults c (calls c) then authUser c else None)
  /\ ConsoleLog "Admin logout successful" ∈ events adminLogout c
  /\ Forall (fun e => isStoreCall e = false) (events adminLogout c).
Proof.
  intros c'.
  assert (H : exists evs,
            adminLogout c
            = (Val true,
               with_adminSession None
                 (with_authUser (if faults c (calls c) then authUser c else None)
                    (logged evs 1 c)))
            /\ ConsoleLog "Admin logout successful" ∈ evs
            /\ Forall (fun e => isStoreCall e = false) evs).
  { unfold adminLogout.
    destruct (adminSession c) as [s|] eqn:Hs.
    - eexists. split; [|split].
      + erewrite catch_val; [reflexivity|].
        erewrite bind_val by reflexivity. rewrite Hs.
        unfold invalidateAdminSession, consoleLog.
        erewrite bind_val by reflexivity.
        erewrite bind_val by apply signOut_run.
        unfold signedOut, emit, bind, modify, ret. autorewrite with client.
        instantiate (1 := if faults c (calls c) then _ else _).
        destruct (faults c (calls c)); f_equal;
          apply client_ext; autorewrite with client; try reflexivity;
          rewrite <- ?app_assoc; reflexivity.
      + destruct (faults c (calls c)); cbn [app]; rewrite !elem_of_cons; auto 10.
      + destruct (faults c (calls c)); cbn [app]; repeat constructor.
    - eexists. split; [|split].
      + erewrite catch_val; [reflexivity|].
        erewrite bind_val by reflexivity. rewrite Hs.
        erewrite bind_val by reflexivity.
        erewrite bind_val by apply signOut_run.
        unfold signedOut, consoleLog, emit, bind, modify, ret. autorewrite with client.
        instantiate (1 := if faults c (calls c) then _ else _).
        destruct (faults c (calls c)); f_equal;
          apply client_ext; autorewrite with client; try reflexivity;
          rewrite <- ?app_assoc; try reflexivity.
        exact Hs.
      + destruct (faults c (calls c)); cbn [app]; rewrite !elem_of_cons; auto 10.
      + destruct (faults c (calls c)); cbn [app]; repeat constructor. }
  destruct H as (evs & Hrun & Hin & Hall).
  subst c'. unfold result_of, after.
  rewrite (client_events_of _ _ _ _ _ Hrun) by (by autorewrite with client).
  rewrite Hrun. cbn [fst snd]. unfold isAdminLoggedIn. autorewrite with client.
  done.
Qed.

(** ** The second factor *)

Lemma verify2FACode_wrong code c :
  code <> "123456" ->
  exists e, verify2FACode code c
            = (Exn e, with_log (log c ++ [ConsoleError ("2FA verification failed: " +:+ e)]) c).
Proof.
  intros Hne. apply String.eqb_neq in Hne.
  unfold verify2FACode, try_catch.
  erewrite bind_val by reflexivity.
  destruct (adminSession c) as [session|].
  - erewrite bind_val by reflexivity. rewrite Hne. cbn [negb].
    eexists. reflexivity.
  - eexists. reflexivity.
Qed.

(** X19: a wrong code is never counted.  Any number of calls of
    [verify2FACode] with codes other than ["123456"] all throw, send no
    request and leave of each only one error line on the console: the
    store, the session and the signed-in user are as before.  If there is an
    admin session, the code ["123456"] is accepted afterwards as it would
    have been at first, and [isAdminLoggedIn] becomes true. *)
Theorem wrong_codes_are_never_counted codes : forall c,
  Forall (fun code => code <> "123456") codes ->
  let c' := tryCodes codes c in
  (forall code c0, code ∈ codes -> exists e, result_of (verify2FACode code c0) = Exn e)
  /\ (exists evs, c' = with_log (log c ++ evs) c
                  /\ length evs = length codes
                  /\ Forall (fun e => exists msg, e = ConsoleError msg) evs)
  /\ (forall s, adminSession c = Some s ->
                result_of (verify2FACode "123456" c') = Val true
                /\ isAdminLoggedIn (after (verify2FACode "123456") c') = true).
Proof.
  assert (Hlog : forall c,
            Forall (fun code => code <> "123456") codes ->
            exists evs, tryCodes codes c = with_log (log c ++ evs) c
                        /\ length evs = length codes
                        /\ Forall (fun e => exists msg, e = ConsoleError msg) evs).
  { induction codes as [|code codes IH]; intros c Hall.
    - exists []. split; [|by split].
      cbn. apply client_ext; autorewrite with client; try reflexivity.
      by rewrite app_nil_r.
    - inversion Hall as [|? ? Hne Hrest]; subst.
      destruct (verify2FACode_wrong code c Hne) as (e & Hrun).
      destruct (IH (after (verify2FACode code) c) Hrest) as (evs & Heq & Hlen & Hev).
      exists (ConsoleError ("2FA verification failed: " +:+ e) :: evs).
      split; [|split].
      + cbn [tryCodes fold_left]. fold (tryCodes codes (after (verify2FACode code) c)).
        rewrite Heq. unfold after. rewrite Hrun. cbn [snd].
        apply client_ext; autorewrite with client; try reflexivity.
        by rewrite <- app_assoc.
      + cbn [length]. by rewrite Hlen.
      + constructor; [by eexists | exact Hev]. }
  intros c Hall c'. destruct (Hlog c Hall) as (evs & Heq & Hlen & Hev).
  split.
  { intros code c0 Hin. rewrite Forall_forall in Hall.
    destruct (verify2FACode_wrong code c0 (Hall code Hin)) as (e & Hrun).
    exists e. unfold result_of. by rewrite Hrun. }
  split; [by exists evs|].
  intros s Hs. subst c'. apply verify2FACode_fixed_code with (s := s).
  rewrite Heq. by autorewrite with client.
Qed.

Lemma wrong_codes_are_never_counted_witness :
  let c := after (adminLogin aliceLogin) demoClient in
  let c' := tryCodes ["000000"; "111111"; "12345"] c in
  Forall (fun code => code <> "123456") ["000000"; "111111"; "12345"]
  /\ db c' = db c /\ calls c' = calls c
  /\ isAdminLoggedIn c' = false
  /\ isAdminLoggedIn (after (verify2FACode "123456") c') = true.
Proof.
  intros c c'.
  assert (H : Forall (fun code => code <> "123456") ["000000"; "111111"; "12345"])
    by (repeat constructor; discriminate).
  destruct (wrong_codes_are_never_counted ["000000"; "111111"; "12345"] c H)
    as (_ & (evs & Heq & _) & Hok).
  fold c' in Heq, Hok.
  split; [exact H|].
  split; [by rewrite Heq; autorewrite with client|].
  split; [by rewrite Heq; autorewrite with client|].
  split; [vm_compute; reflexivity|].
  eapply Hok. vm_compute. reflexivity.
Defined.

(** ** When the queries of the lockout are denied *)

Lemma since_ext n e c c' l :
  log c' = log c ++ l -> loggedSince n e c -> loggedSince n e c'.
Proof.
  unfold loggedSince. intros -> H. rewrite drop_app. apply elem_of_app. by left.
Qed.

Lemma since_emit n e x : preserves (loggedSince n e) (emit x).
Proof.
  apply preserves_modify. intros c H.
  eapply since_ext; [|exact H]. by autorewrite with client.
Qed.

Lemma since_recordFailedLogin n e : preserves (loggedSince n e) recordFailedLogin.
Proof.
  intros c H. rewrite recordFailedLogin_run. cbn [snd].
  destruct (faults c (S (calls c)));
    (eapply since_ext; [|exact H]); by autorewrite with client.
Qed.

Lemma since_clearFailedLoginAttempts n e :
  preserves (loggedSince n e) clearFailedLoginAttempts.
Proof.
  intros c H. rewrite clearFailedLoginAttempts_run. cbn [snd].
  destruct (faults c (S (calls c)));
    (eapply since_ext; [|exact H]); by autorewrite with client.
Qed.

Lemma since_verifyAdminPrivileges n e userId :
  preserves (loggedSince n e) (verifyAdminPrivileges userId).
Proof.
  intros c H. rewrite verifyAdminPrivileges_run. cbn [snd].
  eapply since_ext; [|exact H]. by autorewrite with client.
Qed.

Lemma since_signOut n e : preserves (loggedSince n e) signOut.
Proof.
  intros c H. rewrite signOut_run. cbn [snd]. unfold signedOut.
  destruct (faults c (calls c));
    (eapply since_ext; [|exact H]); autorewrite with client;
    rewrite <- ?app_assoc; reflexivity.
Qed.

Lemma since_session n e s : preserves (loggedSince n e) (modify (with_adminSession s)).
Proof.
  apply preserves_modify. intros c H.
  eapply (since_ext _ _ _ _ []); [|exact H]. autorewrite with client.
  by rewrite app_nil_r.
Qed.

Lemma throwsOnly_ret {A} P (a : A) : throwsOnly P (ret a).
Proof. intros c e c'. discriminate. Qed.

Lemma throwsOnly_throw {A} (P : string -> Prop) e : P e -> throwsOnly P (@throw Client A e).
Proof. intros H c e' c' [= <- _]. exact H. Qed.

Lemma throwsOnly_bind {A B} P (m : M Client A) (k : A -> M Client B) :
  throwsOnly P m -> (forall a, throwsOnly P (k a)) -> throwsOnly P (bind m k).
Proof.
  intros Hm Hk c e c'. unfold bind.
  destruct (m c) as [[a|e0] c1] eqn:Hrun.
  - apply Hk.
  - intros [= <- <-]. by eapply Hm.
Qed.

Lemma throwsOnly_returns {A} P (m : M Client A) :
  (forall c, exists a c', m c = (Val a, c')) -> throwsOnly P m.
Proof. intros H c e c' Hrun. destruct (H c) as (a & c1 & Heq). congruence. Qed.

Lemma try_catch_run {A} (m m' : M Client A) h c c' :
  m c = m' c' -> try_catch m h c = try_catch m' h c'.
Proof. unfold try_catch. by intros ->. Qed.

Ltac since :=
  repeat first
    [ apply since_recordFailedLogin
    | apply since_clearFailedLoginAttempts
    | apply since_verifyAdminPrivileges
    | apply since_signOut
    | apply since_session
    | apply since_emit
    | apply preserves_ret
    | apply preserves_throw
    | apply preserves_gets
    | apply preserves_bind; [|intros ?]
    | match goal with
      | |- preserves _ (if ?b then _ else _) => destruct b
      end ].

Ltac throwing :=
  repeat first
    [ apply throwsOnly_returns; intros ?; eexists _, _;
      first [ apply recordFailedLogin_run | apply clearFailedLoginAttempts_run
            | apply verifyAdminPrivileges_run | apply signOut_run
            | reflexivity ]
    | apply throwsOnly_ret
    | apply throwsOnly_throw
    | apply throwsOnly_bind; [|intros ?]
    | match goal with
      | |- throwsOnly _ (if ?b then _ else _) => destruct b
      end ].

Section Denied.
Variable c : Client.
Variable cr : Credentials.
Hypothesis Hd : deniedQueries c.
Hypothesis Hmax : (0 < maxFailedAttempts (security (config c)))%nat.
Hypothesis He : present (email cr) = true.
Hypothesis Hp : present (password cr) = true.

Let sent : Event := AuthSignIn (default "" (email cr)).
Let I : Client -> Prop := loggedSince (length (log c)) sent.
Let P : string -> Prop := fun msg => isRefusal msg = false.

Lemma adminLogin_denied :
  exists (m : M Client LoginResult) c3,
    adminLogin cr c
    = try_catch m
        (fun error => consoleError ("Admin login failed: " +:+ error) ;; throw error)%js c3
    /\ I c3 /\ preserves I m /\ throwsOnly P m.
Proof.
  destruct Hd as [H1 H3].
  pose (c2 := logged [FetchIp; SelectBlockedIp (lookedUp c)] 2 c).
  pose (c4 := logged [FetchIp; SelectLoginAttempts (lookedUp c2) (now c2 - oneHour)] 2 c2).
  destruct (signInWithPassword (default "" (email cr)) (default "" (password cr)) c4)
    as [r c5] eqn:Hs.
  assert (Hr : exists reply, r = Val reply /\ I c5
                             /\ forall msg, reply = AuthError msg -> P msg).
  { rewrite signInWithPassword_run in Hs.
    assert (Hin : forall evs c', log c' = log c4 ++ sent :: evs -> I c').
    { intros evs c' Hlog. unfold I, loggedSince. rewrite Hlog.
      subst c4 c2. autorewrite with client. rewrite <- !app_assoc.
      rewrite drop_app_length. cbn [app]. rewrite !elem_of_cons. auto 10. }
    destruct (faults c4 (calls c4)).
    - injection Hs as <- <-. eexists. split; [reflexivity|]. split.
      + apply (Hin []). by autorewrite with client.
      + by intros msg [= <-].
    - destruct (findAccount _ _ _) as [a|]; injection Hs as <- <-;
        (eexists; split; [reflexivity|]); split.
      + eapply Hin. autorewrite with client. reflexivity.
      + intros msg. discriminate.
      + apply (Hin []). by autorewrite with client.
      + by intros msg [= <-]. }
  destruct Hr as (reply & -> & HI & Hmsg).
  eexists _, c5. split; [|split; [exact HI|]].
  - unfold adminLogin. apply try_catch_run.
    erewrite bind_val by apply isIPBlocked_run.
    rewrite H1. cbn [negb andb].
    erewrite bind_val by apply getFailedLoginAttempts_run.
    fold c2. change (faults c2 (S (calls c2))) with (faults c (S (S (S (calls c))))).
    rewrite H3.
    erewrite bind_val by reflexivity.
    fold c4. change (config c4) with (config c).
    rewrite (proj2 (Nat.leb_gt _ _) Hmax), He, Hp. cbn [negb orb].
    erewrite bind_val by exact Hs.
    reflexivity.
  - split.
    + destruct reply as [user session|msg]; since.
    + destruct reply as [user session|msg]; throwing;
        first [ by apply Hmsg | reflexivity ].
Qed.

End Denied.

(** X20: the lockout fails open.  When the store does not answer the
    query on [blocked_ips] and the query on [login_attempts] of a login
    (the second and the fourth request of [adminLogin]), as when it denies
    them, then whatever these tables hold, credentials that are present
    are sent to the auth provider, and if [adminLogin] throws, it is not
    with one of the two messages that turn a locked address away. *)
Theorem lockout_fails_open c cr :
  deniedQueries c ->
  (0 < maxFailedAttempts (security (config c)))%nat ->
  present (email cr) = true ->
  present (password cr) = true ->
  AuthSignIn (default "" (email cr)) ∈ events (adminLogin cr) c
  /\ (forall msg, result_of (adminLogin cr c) = Exn msg -> isRefusal msg = false).
Proof.
  intros Hd Hmax He Hp.
  destruct (adminLogin_denied c cr Hd Hmax He Hp) as (m & c3 & Hrun & HI & Hpres & Hthr).
  split.
  - unfold events, after. rewrite Hrun.
    refine (preserves_try_catch
              (loggedSince (length (log c)) (AuthSignIn (default "" (email cr))))
              m _ Hpres _ c3 HI).
    intros e. since.
  - intros msg. unfold result_of. rewrite Hrun. unfold try_catch.
    destruct (m c3) as [[a|e] c'] eqn:Hm; [discriminate|].
    unfold consoleError, emit, bind, modify, throw. cbn [fst].
    intros [= <-]. by eapply Hthr.
Qed.

Lemma lockout_fails_open_witness :
  deniedQueries blockedClient
  /\ (0 < maxFailedAttempts (security (config blockedClient)))%nat
  /\ present (email aliceLogin) = true
  /\ present (password aliceLogin) = true
  /\ single (blockRows (ip blockedClient) blockedClient)
     = Some (blockRow "203.0.113.7" 1000)
  /\ AuthSignIn "alice@example.com" ∈ events (adminLogin aliceLogin) blockedClient
  /\ (exists r, result_of (adminLogin aliceLogin blockedClient) = Val r
                /\ lr_user r = alice).
Proof.
  assert (H1 : deniedQueries blockedClient) by (split; reflexivity).
  assert (H2 : (0 < maxFailedAttempts (security (config blockedClient)))%nat)
    by (vm_compute; lia).
  assert (H3 : present (email aliceLogin) = true) by reflexivity.
  assert (H4 : present (password aliceLogin) = true) by reflexivity.
  destruct (lockout_fails_open blockedClient aliceLogin H1 H2 H3 H4) as [Hin _].
  do 4 (split; [assumption|]).
  split; [vm_compute; reflexivity|]. split; [exact Hin|].
  eexists. split; vm_compute; reflexivity.
Defined.

(** ** The operations that do not wait for the client *)

Lemma getProjects_built filters s :
  ClientHandle.hasClient s = true ->
  ClientHandle.getProjects filters s = ClientHandle.lift (getProjects filters) s.
Proof.
  destruct s as [b c]. cbn [ClientHandle.hasClient]. intros ->.
  unfold ClientHandle.getProjects, getProjects, ClientHandle.viaClient,
    ClientHandle.lift, try_catch.
  cbn [ClientHandle.inner ClientHandle.hasClient].
  erewrite FormProofs.bind_run by reflexivity. cbn [ClientHandle.hasClient ClientHandle.inner].
  match goal with
  | |- context [bind (gets (fun c => c)) ?k c] =>
      destruct (bind (gets (fun c => c)) k c) as [[rows|e] c']
  end; reflexivity.
Qed.

Lemma getProjects_unbuilt filters s :
  ClientHandle.hasClient s = false ->
  ClientHandle.getProjects filters s
  = (Val [],
     ClientHandle.around false
       (with_log (log (ClientHandle.inner s)
                  ++ [ConsoleError ("Error fetching projects: " +:+ ClientHandle.nullAccess)])
          (ClientHandle.inner s))).
Proof.
  destruct s as [b c]. cbn [ClientHandle.hasClient]. intros ->. reflexivity.
Qed.

(** X11: [getProjects] never throws and never writes, with or without a
    client.  Before the client is created it sends no request at all: the
    [TypeError] is caught, logged, and the empty list returned.  With a
    client it behaves as described for the created client: it sends one
    request, the query, and when that request fails it logs the error and
    returns the empty list.  So a caller cannot tell a missing client or a
    failed query from a store without projects.  The tables, the auth user,
    the admin session and the handle are left as they were. *)
Theorem getProjects_never_throws filters s :
  let s' := snd (ClientHandle.getProjects filters s) in
  let c := ClientHandle.inner s in
  let c' := ClientHandle.inner s' in
  let evs := ClientHandle.events (ClientHandle.getProjects filters) s in
  (exists rows, result_of (ClientHandle.getProjects filters s) = Val rows
                /\ (ClientHandle.hasClient s = false \/ faults c (calls c) = true -> rows = []))
  /\ (if ClientHandle.hasClient s
      then ClientHandle.getProjects filters s
           = ClientHandle.lift (getProjects filters) s
           /\ calls c' = S (calls c)
           /\ exists rest, evs = SelectProjects :: rest
                           /\ Forall (fun e => isRequest e = false) rest
      else calls c' = calls c
           /\ evs = [ConsoleError ("Error fetching projects: "
                                   +:+ ClientHandle.nullAccess)])
  /\ db c' = db c /\ authUser c' = authUser c /\ adminSession c' = adminSession c
  /\ ClientHandle.hasClient s' = ClientHandle.hasClient s.
Proof.
  intros s' c c' evs. subst s' c c' evs. unfold ClientHandle.events.
  destruct (ClientHandle.hasClient s) eqn:Hb.
  - rewrite (getProjects_built filters s Hb).
    unfold ClientHandle.lift, result_of. cbn [fst snd ClientHandle.inner ClientHandle.hasClient].
    destruct (getProjects_with_client filters (ClientHandle.inner s))
      as ((rows & Hres & Hrows) & (rest & Hev & Hrest) & Hdb & Hau & Has & Hcalls).
    unfold result_of, after in *.
    split; [exists rows; split; [exact Hres | intros [|]; [done | by apply Hrows]]|].
    split; [|done].
    split; [reflexivity|]. split; [exact Hcalls|].
    exists rest. split; [exact Hev | exact Hrest].
  - rewrite (getProjects_unbuilt filters s Hb).
    unfold result_of, ClientHandle.around. cbn [fst snd ClientHandle.inner ClientHandle.hasClient].
    autorewrite with client.
    split; [exists []; done|].
    split; [split; [reflexivity | by rewrite drop_app_length]|].
    done.
Qed.

Lemma run_bind_exn {S A B} (m : M S A) (k : A -> M S B) s e s' :
  m s = (Exn e, s') -> bind m k s = (Exn e, s').
Proof. intros H. unfold bind. by rewrite H. Qed.

Lemma run_catch_val {S A} (m : M S A) h s a s' :
  m s = (Val a, s') -> try_catch m h s = (Val a, s').
Proof. intros H. unfold try_catch. by rewrite H. Qed.

Lemma run_catch_exn {S A} (m : M S A) h s e s' :
  m s = (Exn e, s') -> try_catch m h s = h e s'.
Proof. intros H. unfold try_catch. by rewrite H. Qed.

Lemma lift_run {A} (m : M Client A) b c r c' :
  m c = (r, c') ->
  ClientHandle.lift m (ClientHandle.around b c) = (r, ClientHandle.around b c').
Proof.
  intros H. unfold ClientHandle.lift, ClientHandle.around.
  cbn [ClientHandle.inner ClientHandle.hasClient]. by rewrite H.
Qed.

Lemma adminLogout_built s :
  ClientHandle.hasClient s = true ->
  ClientHandle.adminLogout s = ClientHandle.lift adminLogout s.
Proof.
  destruct s as [b c]. cbn [ClientHandle.hasClient]. intros ->.
  change {| ClientHandle.hasClient := true; ClientHandle.inner := c |}
    with (ClientHandle.around true c).
  assert (H : exists c3,
            adminLogout c = (Val true, c3)
            /\ ClientHandle.adminLogout (ClientHandle.around true c)
               = (Val true, ClientHandle.around true c3)).
  { destruct (adminSession c) as [session|] eqn:Hs; eexists; split.
    - unfold adminLogout. erewrite catch_val; [reflexivity|].
      erewrite bind_val by reflexivity. rewrite Hs.
      erewrite bind_val by reflexivity.
      erewrite bind_val by apply signOut_run. reflexivity.
    - unfold ClientHandle.adminLogout. erewrite run_catch_val; [reflexivity|].
      erewrite FormProofs.bind_run by (apply lift_run; reflexivity). rewrite Hs.
      erewrite FormProofs.bind_run.
      2: { erewrite FormProofs.bind_run by (apply lift_run; reflexivity).
           apply lift_run. reflexivity. }
      unfold ClientHandle.viaClient.
      erewrite FormProofs.bind_run.
      2: { erewrite FormProofs.bind_run by reflexivity.
           apply lift_run, signOut_run. }
      erewrite FormProofs.bind_run by (apply lift_run; reflexivity).
      reflexivity.
    - unfold adminLogout. erewrite catch_val; [reflexivity|].
      erewrite bind_val by reflexivity. rewrite Hs.
      erewrite bind_val by reflexivity.
      erewrite bind_val by apply signOut_run. reflexivity.
    - unfold ClientHandle.adminLogout. erewrite run_catch_val; [reflexivity|].
      erewrite FormProofs.bind_run by (apply lift_run; reflexivity). rewrite Hs.
      erewrite FormProofs.bind_run by reflexivity.
      unfold ClientHandle.viaClient.
      erewrite FormProofs.bind_run.
      2: { erewrite FormProofs.bind_run by reflexivity.
           apply lift_run, signOut_run. }
      erewrite FormProofs.bind_run by (apply lift_run; reflexivity).
      reflexivity. }
  destruct H as (c3 & H1 & H2). rewrite H2.
  symmetry. by apply lift_run.
Qed.

Lemma adminLogout_unbuilt s :
  ClientHandle.hasClient s = false ->
  exists evs,
    ClientHandle.adminLogout s
    = (Exn ClientHandle.nullAccess,
       ClientHandle.around false
         (with_log (log (ClientHandle.inner s) ++ evs)
            (with_adminSession None (ClientHandle.inner s))))
    /\ Forall (fun e => isRequest e = false) evs.
Proof.
  destruct s as [b c]. cbn [ClientHandle.hasClient ClientHandle.inner]. intros ->.
  change {| ClientHandle.hasClient := false; ClientHandle.inner := c |}
    with (ClientHandle.around false c).
  unfold ClientHandle.adminLogout.
  destruct (adminSession c) as [session|] eqn:Hs.
  - exists [ConsoleLog ("Session invalidated: " +:+ s_id session);
            ConsoleError ("Admin logout failed: " +:+ ClientHandle.nullAccess)].
    split; [|repeat constructor].
    erewrite run_catch_exn.
    2: { erewrite FormProofs.bind_run by (apply lift_run; reflexivity). rewrite Hs.
         erewrite FormProofs.bind_run.
         2: { erewrite FormProofs.bind_run by (apply lift_run; reflexivity).
              apply lift_run. reflexivity. }
         apply run_bind_exn. unfold ClientHandle.viaClient.
         erewrite FormProofs.bind_run by reflexivity. reflexivity. }
    erewrite FormProofs.bind_run by (apply lift_run; reflexivity).
    unfold throw. f_equal. f_equal.
    apply client_ext; autorewrite with client; try reflexivity.
    rewrite <- app_assoc. reflexivity.
  - exists [ConsoleError ("Admin logout failed: " +:+ ClientHandle.nullAccess)].
    split; [|repeat constructor].
    erewrite run_catch_exn.
    2: { erewrite FormProofs.bind_run by (apply lift_run; reflexivity). rewrite Hs.
         erewrite FormProofs.bind_run by reflexivity.
         apply run_bind_exn. unfold ClientHandle.viaClient.
         erewrite FormProofs.bind_run by reflexivity. reflexivity. }
    erewrite FormProofs.bind_run by (apply lift_run; reflexivity).
    unfold throw. f_equal. f_equal.
    apply client_ext; autorewrite with client; try reflexivity.
    by rewrite Hs.
Qed.

(** X18: [adminLogout] always ends the admin session, whether it returns
    or throws: afterwards there is no admin session and [isAdminLoggedIn]
    is false, and the store is not touched.  Before the client is created
    it sends no request and throws the [TypeError] again, after dropping
    the session.  With a client it never throws and returns [true] whether
    or not the sign-out request goes through; the auth provider's user is
    dropped only when that request goes through: when it fails, the call
    still reports success and the user stays signed in with the
    provider. *)
Theorem adminLogout_ends_the_session s :
  let s' := snd (ClientHandle.adminLogout s) in
  let c := ClientHandle.inner s in
  let c' := ClientHandle.inner s' in
  let evs := ClientHandle.events ClientHandle.adminLogout s in
  adminSession c' = None
  /\ isAdminLoggedIn c' = false
  /\ db c' = db c
  /\ ClientHandle.hasClient s' = ClientHandle.hasClient s
  /\ result_of (ClientHandle.adminLogout s)
     = (if ClientHandle.hasClient s then Val true else Exn ClientHandle.nullAccess)
  /\ authUser c'
     = (if ClientHandle.hasClient s && negb (faults c (calls c)) then None else authUser c)
  /\ Forall (fun e => isStoreCall e = false) evs
  /\ (if ClientHandle.hasClient s
      then ConsoleLog "Admin logout successful" ∈ evs
      else Forall (fun e => isRequest e = false) evs).
Proof.
  intros s' c c' evs. subst s' c c' evs. unfold ClientHandle.events.
  destruct (ClientHandle.hasClient s) eqn:Hb.
  - rewrite (adminLogout_built s Hb).
    unfold ClientHandle.lift, result_of. cbn [fst snd ClientHandle.inner ClientHandle.hasClient andb].
    destruct (adminLogout_with_client (ClientHandle.inner s))
      as (Hres & Has & Hin & Hdb & Hau & Hlog & Hall).
    unfold result_of, after, events in *.
    rewrite Hau. by destruct (faults (ClientHandle.inner s) (calls (ClientHandle.inner s))).
  - destruct (adminLogout_unbuilt s Hb) as (evs & -> & Hall).
    unfold result_of, ClientHandle.around, isAdminLoggedIn.
    cbn [fst snd ClientHandle.inner ClientHandle.hasClient andb]. autorewrite with client.
    rewrite drop_app_length.
    repeat split; try done.
    eapply Forall_impl; [exact Hall|]. intros e. by destruct e.
Qed.

End ClientExtraProofs.

(** * The contact form over any stored text *)

Module StoredTextProofs.
Import Js ContactForm FormReadings FormSetup FormProofs FormExtraProofs.
Import StoredText.
Local Open Scope list_scope.

#[local] Hint Rewrite
  elements_with_elements formState_with_elements localStorage_with_elements
  config_with_elements env_with_elements log_with_elements
  elements_with_formState formState_with_formState localStorage_with_formState
  config_with_formState env_with_formState log_with_formState
  elements_with_localStorage formState_with_localStorage
  localStorage_with_localStorage config_with_localStorage env_with_localStorage
  log_with_localStorage
  elements_with_env formState_with_env localStorage_with_env config_with_env
  env_with_env log_with_env
  elements_with_log formState_with_log localStorage_with_log config_with_log
  env_with_log log_with_log : page.

(** ** Running the lifted code *)

Lemma tab_eta t : {| foreign := foreign t; page := page t |} = t.
Proof. by destruct t. Qed.

Lemma lifted_run {A} (m : M Page A) f p r p' :
  m p = (r, p') ->
  lift m {| foreign := f; page := p |} = (r, {| foreign := f; page := p' |}).
Proof. intros H. unfold lift. cbn [page foreign]. by rewrite H. Qed.


Lemma tab_bind_exn {A B} (m : M Tab A) (k : A -> M Tab B) t e t' :
  m t = (Exn e, t') -> bind m k t = (Exn e, t').
Proof. intros H. unfold bind. by rewrite H. Qed.

Lemma unreadable_false_foreign t :
  unreadable t = false ->
  foreign t && negb (available (localStorage (page t))) = foreign t.
Proof.
  unfold unreadable. destruct (foreign t), (available (localStorage (page t))); done.
Qed.

(** ** The history as it is read *)

Lemma getSubmissionHistory_tab t :
  getSubmissionHistory t
  = (Val (if unreadable t then NotArray else Instants (history (page t))), t).
Proof.
  destruct t as [f p]. unfold getSubmissionHistory, unreadable, history.
  erewrite bind_run by (apply lifted_run; reflexivity).
  erewrite bind_run by (apply lifted_run; reflexivity).
  erewrite bind_run by reflexivity.
  cbn [page foreign]. unfold ret.
  destruct (available (localStorage p)), f; reflexivity.
Qed.

Lemma saveSubmissionHistory_tab h t :
  saveSubmissionHistory h t
  = (Val tt,
     {| foreign := foreign t && negb (available (localStorage (page t)));
        page := snd (ContactForm.saveSubmissionHistory h (page t)) |}).
Proof.
  destruct t as [f p]. unfold saveSubmissionHistory.
  erewrite bind_run by (apply lifted_run; reflexivity).
  erewrite bind_run by (apply lifted_run; reflexivity).
  rewrite saveSubmissionHistory_val. cbn [page foreign snd].
  destruct (available (localStorage p)).
  - by rewrite andb_false_r.
  - rewrite andb_true_r. reflexivity.
Qed.

Lemma checkRateLimit_tab t :
  checkRateLimit t
  = if unreadable t then (Exn typeError, t)
    else lift ContactForm.checkRateLimit t.
Proof.
  unfold checkRateLimit.
  rewrite <- (tab_eta t) at 1.
  erewrite bind_run by (apply lifted_run; reflexivity). rewrite tab_eta.
  erewrite bind_run by apply getSubmissionHistory_tab.
  destruct (unreadable t) eqn:Hu.
  - by apply tab_bind_exn.
  - erewrite bind_run by reflexivity.
    erewrite bind_run by apply saveSubmissionHistory_tab.
    rewrite (unreadable_false_foreign t Hu).
    erewrite bind_run by (apply lifted_run; reflexivity).
    unfold lift, ret. rewrite checkRateLimit_run, saveSubmissionHistory_val.
    cbn [fst snd]. unfold underLimit, recent.
    destruct (available (localStorage (page t))); by autorewrite with page.
Qed.


Lemma initializeRateLimiting_tab now t :
  initializeRateLimiting now t
  = if unreadable t then (Exn typeError, t)
    else lift (FormSetup.initializeRateLimiting now) t.
Proof.
  unfold initializeRateLimiting.
  erewrite bind_run by apply getSubmissionHistory_tab.
  destruct (unreadable t) eqn:Hu.
  - by apply tab_bind_exn.
  - erewrite bind_run by reflexivity.
    rewrite saveSubmissionHistory_tab, (unreadable_false_foreign t Hu).
    unfold lift. rewrite initializeRateLimiting_run, saveSubmissionHistory_val.
    reflexivity.
Qed.

(** ** Following the page where the history can be read *)
























(** ** Where the history cannot be read *)








Lemma unreadable_after_pruning now t :
  unreadable t = false ->
  unreadable (after (initializeRateLimiting now) t) = false.
Proof.
  intros Hu. unfold after. rewrite initializeRateLimiting_tab, Hu.
  unfold lift, unreadable in *. cbn [snd page foreign].
  rewrite initializeRateLimiting_run. cbn [snd].
  destruct (available (localStorage (page t))) eqn:Ha;
    autorewrite with page; cbn [available]; by rewrite ?Ha.
Qed.

(** ** The rate limiter at page load *)

(** X3: [initializeRateLimiting] over any stored text.  When the local
    storage works and the text under the rate-limit key parses to
    something that is not an array, [initializeRateLimiting] throws a
    [TypeError], changes nothing, and so does every later rate-limit
    check.  In every other state it returns, and the history read
    afterwards holds exactly the instants less than one hour older than
    the instant of the page load; a rate-limit check made at that instant
    or later gives the same verdict, and leaves the same history, as it
    would have without the pruning; with a working local storage, pruning
    twice is pruning once.  (The local storage works for reading and
    writing alike, or for neither.) *)
Theorem pruning_at_load_keeps_the_verdict now0 t :
  (now0 <= nowCheck (env (page t)))%Z ->
  let q := after (initializeRateLimiting now0) t in
  if unreadable t then
    result_of (initializeRateLimiting now0 t) = Exn typeError
    /\ q = t
    /\ checkRateLimit t = (Exn typeError, t)
  else
    result_of (initializeRateLimiting now0 t) = Val tt
    /\ unreadable q = false
    /\ result_of (getSubmissionHistory q)
       = Val (Instants (recent now0 (history (page t))))
    /\ Forall (fun i => (now0 - 60 * 60 * 1000 < i)%Z) (history (page q))
    /\ result_of (checkRateLimit q) = result_of (checkRateLimit t)
    /\ history (page (after checkRateLimit q)) = history (page (after checkRateLimit t))
    /\ (available (localStorage (page t)) = true ->
        after (initializeRateLimiting now0) q = q).
Proof.
  intros Hle q.
  destruct (unreadable t) eqn:Hu.
  - subst q. unfold after, result_of.
    rewrite initializeRateLimiting_tab, checkRateLimit_tab, Hu. done.
  - pose proof (unreadable_after_pruning now0 t Hu) as Huq. fold q in Huq.
    destruct (pruning_on_the_page now0 (page t) Hle)
      as (H1 & H2 & H3 & H4 & H5 & H6).
    assert (Hq : q = {| foreign := foreign t;
                        page := ContactForm.after (FormSetup.initializeRateLimiting now0)
                                  (page t) |}).
    { subst q. unfold after. by rewrite initializeRateLimiting_tab, Hu. }
    assert (Hp : page q
                 = ContactForm.after (FormSetup.initializeRateLimiting now0) (page t))
      by (by rewrite Hq).
    split.
    { unfold result_of. rewrite initializeRateLimiting_tab, Hu. exact H1. }
    split; [exact Huq|].
    split.
    { unfold result_of. rewrite getSubmissionHistory_tab, Huq. cbn [fst].
      by rewrite Hp, H2. }
    split; [by rewrite Hp|].
    split.
    { unfold result_of. rewrite !checkRateLimit_tab, Hu, Huq.
      unfold lift. cbn [fst]. rewrite Hp. exact H4. }
    split.
    { unfold after. rewrite !checkRateLimit_tab, Hu, Huq.
      unfold lift. cbn [snd page]. rewrite Hp. exact H5. }
    intros Ha.
    assert (E : snd (FormSetup.initializeRateLimiting now0 (page q)) = page q).
    { rewrite Hp. exact (H6 Ha). }
    unfold after at 1. rewrite initializeRateLimiting_tab, Huq.
    unfold lift. cbn [snd]. rewrite E. apply tab_eta.
Qed.

Lemma pruning_at_load_keeps_the_verdict_witness :
  let t := plain (with_env (envAt 3600005 200)
                    (FormReadings.submitAll fiveFromJo freshPage)) in
  let q := after (initializeRateLimiting 3600003) t in
  (3600003 <= nowCheck (env (page t)))%Z
  /\ unreadable t = false
  /\ result_of (getSubmissionHistory t)
     = Val (Instants [2; 10002; 20002; 30002; 40002]%Z)
  /\ result_of (getSubmissionHistory q)
     = Val (Instants [10002; 20002; 30002; 40002]%Z)
  /\ result_of (checkRateLimit q) = result_of (checkRateLimit t).
Proof.
  intros t q.
  assert (H : (3600003 <= nowCheck (env (page t)))%Z) by (vm_compute; discriminate 1).
  pose proof (pruning_at_load_keeps_the_verdict 3600003 t H) as Hp.
  cbv zeta in Hp. change (unreadable t) with false in Hp.
  destruct Hp as (_ & _ & H3 & _ & H5 & _).
  split; [exact H|]. split; [reflexivity|].
  split; [vm_compute; reflexivity|].
  split; [|exact H5]. fold q in H3. rewrite H3. vm_compute. reflexivity.
Defined.

(** ** The submit handler *)





End StoredTextProofs.
